(** * cloud-init.py: the reconciliation engine of ionos-cloud-init

    A shallow embedding of [src/cloud-init.py].  The script talks to a remote
    HTTP API, reads a directory of cloud-config templates, draws random
    passwords and mutates the dictionary [json_files] it was given.  All of
    this is made explicit here:

    - the remote API is a parameter (a record of request handlers over an
      abstract world), so every theorem holds whatever the remote answers;
    - every function of the script is a computation in a small monad that
      threads the state (remote world, [json_files], random source), stops at
      the first [exit(1)] or uncaught exception, and records the requests,
      sleeps and prints it performed, in order. *)

From Stdlib Require Import String Ascii List Arith ZArith Bool Lia.
Import ListNotations.
Open Scope string_scope.
Open Scope list_scope.

Set Implicit Arguments.

(** ** Desired state: the JSON documents under /datacenters/<dc>/ *)

(** The key ["imagePassword"] of a property bag: missing, [null], or a string.
    The script distinguishes the three ([KeyError], [is None], anything else). *)
Inductive password : Type :=
| PwAbsent
| PwNull
| PwValue (pw : string).

(** [t["properties"]] of a volume or of a NIC.  Only the keys the script reads
    or writes are named; the remaining ones travel along in [prop_rest]. *)
Record properties : Type := mkProperties {
  prop_name : string;
  prop_imagePassword : password;
  prop_userData : option string;
  prop_rest : list (string * string)
}.

(** One firewall rule: [rule["properties"]["name"]] and the other properties. *)
Record rule : Type := mkRule {
  rule_name : string;
  rule_rest : list (string * string)
}.

(** A volume or a NIC as a JSON object: its ["properties"] and, when the key
    is present, its ["firewallrules"] list. *)
Record component : Type := mkComponent {
  c_properties : properties;
  firewallrules : option (list rule)
}.

Definition c_name (c : component) : string := prop_name (c_properties c).

(** [json_file["server"]]: the creation payload with its embedded entities,
    [server["entities"]["volumes"]["items"]] and
    [server["entities"]["nics"]["items"]]. *)
Record server_doc : Type := mkServer {
  srv_name : string;
  srv_rest : list (string * string);
  entities_volumes : list component;
  entities_nics : list component
}.

(** One <server>.json document: the ["server"] object and the standalone
    ["volumes"] and ["nics"] lists. *)
Record json_file : Type := mkJsonFile {
  server : server_doc;
  volumes : list component;
  nics : list component
}.

(** The [type] argument of attach/detach: ["volumes"] or ["nics"]. *)
Inductive ctype : Type := Volumes | Nics.

Definition type_str (t : ctype) : string :=
  match t with Volumes => "volumes" | Nics => "nics" end.

(** [json_file[type]] *)
Definition standalone (t : ctype) (jf : json_file) : list component :=
  match t with Volumes => volumes jf | Nics => nics jf end.

(** [json_file["server"]["entities"][type]["items"]] *)
Definition embedded (t : ctype) (jf : json_file) : list component :=
  match t with
  | Volumes => entities_volumes (server jf)
  | Nics => entities_nics (server jf)
  end.

(** ** The remote API *)

(** A parsed response document.  [r_items] are the [item["href"]] of a
    collection, [r_name] is [properties.name], [r_state] is
    [metadata.state], [None] when [metadata] or [state] is missing.  The
    script reads the other keys without a [try]; the remote side is taken to
    send them, as the API does. *)
Record response : Type := mkResponse {
  r_href : string;
  r_id : string;
  r_name : string;
  r_state : option string;
  r_items : list string
}.

(** The [json=] argument of a POST or PATCH. *)
Inductive body : Type :=
| BodyServer (payload : server_doc)
| BodyProperties (p : properties)
| BodyRule (r : rule)
| BodyBootVolume (id : string).

(** Lines written to standard output. *)
Inductive message : Type :=
| MsgNoSuchName (name : string)
| MsgLimitReached
| MsgServerBusy
| MsgServerExists (server_name : string)
| MsgServerDoesNotExist (server_name : string)
| MsgCreatingServer (server_name : string)
| MsgResponse (res : response)
| MsgNotIn (name : string) (components : list string)
| MsgAttaching (t : ctype) (name server_name : string)
| MsgDetaching (t : ctype) (name server_name : string)
| MsgDeletingServer (server_name : string)
| MsgDuplicateRules (nic_name : string) (rules_names : list string)
| MsgCreatingRule (name nic_name server_name : string).

(** What the script does to the outside, in order. *)
Inductive event : Type :=
| EvGet (url : string)
| EvPost (url : string) (b : body)
| EvPatch (url : string) (b : body)
| EvDelete (url : string)
| EvSleep (seconds : nat)
| EvPrint (m : message).

(** Why a run stopped.  Every [exit(1)] of the script is tagged with the
    condition its diagnostic reports; [KeyError] is the uncaught exception of
    a failed dictionary lookup. *)
Inductive error : Type :=
| NotFound
| AlreadyExists
| DuplicateName
| Timeout
| KeyError.

Inductive result (A : Type) : Type :=
| Ok (a : A)
| Fail (e : error).
Arguments Ok {A} a.
Arguments Fail {A} e.

(** The handlers of the HTTP verbs the script uses and of [time.sleep], over
    an abstract world: the remote side may answer anything and may change
    between any two calls. *)
Record Remote (World : Type) : Type := mkRemote {
  http_get : string -> World -> response * World;
  http_post : string -> body -> World -> response * World;
  http_patch : string -> body -> World -> World;
  http_delete : string -> World -> World;
  time_passes : nat -> World -> World
}.

Definition URL_DATACENTERS : string :=
  "https://api.ionos.com/cloudapi/v6/datacenters".

(** ** Strings *)

(** [sub in s] *)
Fixpoint contains (sub s : string) : bool :=
  if String.prefix sub s then true
  else match s with
       | EmptyString => false
       | String _ s' => contains sub s'
       end.

(** [s.endswith(suffix)] *)
Fixpoint endswith (s suffix : string) : bool :=
  if String.eqb s suffix then true
  else match s with
       | EmptyString => false
       | String _ s' => endswith s' suffix
       end.

(** [x in l] for a list of strings *)
Definition mem (x : string) (l : list string) : bool :=
  existsb (String.eqb x) l.

(** [l.index(x)], for [x in l] *)
Fixpoint index_of (x : string) (l : list string) : nat :=
  match l with
  | [] => 0
  | y :: l' => if String.eqb y x then 0 else S (index_of x l')
  end.

(** [string.ascii_uppercase + string.ascii_lowercase + string.digits] *)
Definition alphabet : string :=
  "ABCDEFGHIJKLMNOPQRSTUVWXYZabcdefghijklmnopqrstuvwxyz0123456789".

Definition alphanumeric (c : ascii) : bool :=
  let n := nat_of_ascii c in
  (((65 <=? n) && (n <=? 90)) || ((97 <=? n) && (n <=? 122))
   || ((48 <=? n) && (n <=? 57)))%nat.

(** ** The monad of the script *)

Section Monad.

Context {World : Type}.

(** The state a call can read and change: the remote world, the dictionary
    [json_files] (one object, shared by reference between all calls) and the
    stream of draws of the random generator. *)
Record state : Type := mkState {
  world : World;
  json_files : list (string * json_file);
  rng : nat -> nat
}.

Record run (A : Type) : Type := mkRun {
  value : result A;
  final : state;
  trace : list event
}.

Definition M (A : Type) : Type := state -> run A.

Definition ret {A} (a : A) : M A := fun s => mkRun (Ok a) s [].

Definition bind {A B} (m : M A) (f : A -> M B) : M B :=
  fun s =>
    let r := m s in
    match value r with
    | Ok a => let r' := f a (final r) in
              mkRun (value r') (final r') (trace r ++ trace r')
    | Fail e => mkRun (Fail e) (final r) (trace r)
    end.

(** [exit(1)], or an uncaught exception *)
Definition exit {A} (e : error) : M A := fun s => mkRun (Fail e) s [].

Definition emit (e : event) : M unit := fun s => mkRun (Ok tt) s [e].

Definition print (m : message) : M unit := emit (EvPrint m).

Definition with_world (w : World) (s : state) : state :=
  mkState w (json_files s) (rng s).

Definition with_json_files (fs : list (string * json_file)) (s : state)
  : state :=
  mkState (world s) fs (rng s).

End Monad.

Arguments state World : clear implicits.
Arguments run World A : clear implicits.
Arguments M World A : clear implicits.

Declare Scope engine_scope.
Delimit Scope engine_scope with engine.
Notation "x <- m ;; k" := (bind m (fun x => k))
  (at level 61, m at next level, right associativity) : engine_scope.
Notation "m ;; k" := (bind m (fun _ => k))
  (at level 61, right associativity) : engine_scope.
Open Scope engine_scope.

(** ** Primitives *)

Section Engine.

Context {World : Type}.
Variable remote : Remote World.

(** [os.environ.get("DATACENTER")] *)
Variable DATACENTER : string.
(** [os.listdir(dir)], in a run in which it returns: the exception of a
    directory that cannot be listed is outside this model. *)
Variable listdir : string -> list string.
(** [user_data(dir, file_name)], in a run in which it returns: the assembled
    template, base64 encoded.  The engine uses it as an opaque function of
    the directory and the file. *)
Variable user_data : string -> string -> string.

Local Abbreviation M := (M World).

(** [json.loads(requests.get(url, headers=auth_headers).text)] *)
Definition requests_get (url : string) : M response :=
  fun s =>
    let rw := http_get remote url (world s) in
    mkRun (Ok (fst rw)) (with_world (snd rw) s) [EvGet url].

(** [json.loads(requests.post(url, json=b, headers=auth_headers).text)] *)
Definition requests_post (url : string) (b : body) : M response :=
  fun s =>
    let rw := http_post remote url b (world s) in
    mkRun (Ok (fst rw)) (with_world (snd rw) s) [EvPost url b].

Definition requests_patch (url : string) (b : body) : M unit :=
  fun s =>
    mkRun (Ok tt) (with_world (http_patch remote url b (world s)) s)
          [EvPatch url b].

Definition requests_delete (url : string) : M unit :=
  fun s =>
    mkRun (Ok tt) (with_world (http_delete remote url (world s)) s)
          [EvDelete url].

Definition time_sleep (seconds : nat) : M unit :=
  fun s =>
    mkRun (Ok tt) (with_world (time_passes remote seconds (world s)) s)
          [EvSleep seconds].

(** [json_files[key]]; a missing key raises [KeyError]. *)
Fixpoint lookup (key : string) (files : list (string * json_file))
  : option json_file :=
  match files with
  | [] => None
  | (k, jf) :: files' => if String.eqb k key then Some jf else lookup key files'
  end.

Definition json_files_get (key : string) : M json_file :=
  fun s =>
    match lookup key (json_files s) with
    | Some jf => mkRun (Ok jf) s []
    | None => mkRun (Fail KeyError) s []
    end.

(** ["".join(random.choices(alphabet, k=32))]: 32 draws, each an index into
    the 62 characters of [alphabet]. *)
Definition draw (i : nat) : ascii :=
  match String.get (i mod 62) alphabet with
  | Some c => c
  | None => "A"%char
  end.

Definition random_password : M string :=
  fun s =>
    mkRun (Ok (string_of_list_ascii (map (fun i => draw (rng s i)) (seq 0 32))))
          (mkState (world s) (json_files s) (fun i => rng s (32 + i)))
          [].

(** ** name_to_href *)

(** [for item in items: ...] of [name_to_href]; falling off the loop prints
    the diagnostic and exits. *)
Fixpoint name_to_href_items (name : string) (items : list string) : M string :=
  match items with
  | [] => print (MsgNoSuchName name) ;; exit NotFound
  | item :: items' =>
      href <- requests_get item ;;
      if String.eqb (r_name href) name then ret (r_href href)
      else name_to_href_items name items'
  end.

Definition name_to_href (name api_url : string) : M string :=
  listing <- requests_get api_url ;;
  name_to_href_items name (r_items listing).

(** ** all_available *)

(** The [try ... except KeyError: status = "BUSY"] of the polling loop. *)
Definition status_of (r : response) : string :=
  match r_state r with
  | Some st => st
  | None => "BUSY"
  end.

(** [for href in hrefs: ...]: one state fetch per href, up to the first one
    that is not AVAILABLE ([break]).  Returns the flag [all_available]. *)
Fixpoint poll (hrefs : list string) : M bool :=
  match hrefs with
  | [] => ret true
  | href :: hrefs' =>
      r <- requests_get href ;;
      if String.eqb (status_of r) "AVAILABLE" then poll hrefs'
      else ret false
  end.

(** One turn of [while not all_available] with [limit] not yet zero: the
    print, the sleep, the fetches. *)
Definition polling_round (hrefs : list string) : M bool :=
  print MsgServerBusy ;;
  time_sleep 5 ;;
  poll hrefs.

(** The [while] loop, by recursion on the counter [limit] it decrements. *)
Fixpoint all_available_from (limit : nat) (hrefs : list string) : M unit :=
  match limit with
  | O => print MsgLimitReached ;; exit Timeout
  | S limit' =>
      ok <- polling_round hrefs ;;
      if ok then ret tt else all_available_from limit' hrefs
  end.

Definition all_available (hrefs : list string) : M unit :=
  all_available_from 120 hrefs.

(** ** server_exists *)

Fixpoint server_exists_items (server_name : string) (items : list string)
  : M bool :=
  match items with
  | [] => print (MsgServerDoesNotExist server_name) ;; ret false
  | item :: items' =>
      server <- requests_get item ;;
      if String.eqb (r_name server) server_name
      then print (MsgServerExists server_name) ;; ret true
      else server_exists_items server_name items'
  end.

Definition server_exists (server_name api_url : string) : M bool :=
  listing <- requests_get api_url ;;
  server_exists_items server_name (r_items listing).

(** ** create_single *)

Definition set_imagePassword (pw : string) (c : component) : component :=
  let p := c_properties c in
  mkComponent
    (mkProperties (prop_name p) (PwValue pw) (prop_userData p) (prop_rest p))
    (firewallrules c).

Definition set_userData (ud : string) (c : component) : component :=
  let p := c_properties c in
  mkComponent
    (mkProperties (prop_name p) (prop_imagePassword p) (Some ud) (prop_rest p))
    (firewallrules c).

(** [if "firewallrules" in item: del item["firewallrules"]] *)
Definition del_firewallrules (item : component) : component :=
  mkComponent (c_properties item) None.

(** The password loop of [create_single], on the deep copy.  The [try] is
    around the whole [for]: an item without the key ["imagePassword"] raises
    [KeyError], which ends the loop; the items before it keep what was
    assigned to them, the items from it on are left as they are. *)
Fixpoint generate_passwords (items : list component) : M (list component) :=
  match items with
  | [] => ret []
  | item :: items' =>
      match prop_imagePassword (c_properties item) with
      | PwAbsent => ret (item :: items')
      | PwNull =>
          pw <- random_password ;;
          items'' <- generate_passwords items' ;;
          ret (set_imagePassword pw item :: items'')
      | PwValue _ =>
          items'' <- generate_passwords items' ;;
          ret (item :: items'')
      end
  end.

Definition cloud_configs_dir : string :=
  ("/datacenters/" ++ DATACENTER ++ "/cloud-configs/")%string.

(** The userData loop of [create_single], on the deep copy. *)
Definition attach_user_data (item : component) : component :=
  let name := c_name item in
  let file_name := (name ++ ".yaml")%string in
  if mem file_name (listdir cloud_configs_dir) && contains "-boot" name
  then set_userData (user_data cloud_configs_dir file_name) item
  else item.

Definition create_single (server_name api_url : string) : M string :=
  print (MsgCreatingServer server_name) ;;
  jf <- json_files_get (server_name ++ ".json")%string ;;
  let server_deepcopy := server jf in
  let nics_items := map del_firewallrules (entities_nics server_deepcopy) in
  volumes_items <- generate_passwords (entities_volumes server_deepcopy) ;;
  let volumes_items := map attach_user_data volumes_items in
  let payload :=
    mkServer (srv_name server_deepcopy) (srv_rest server_deepcopy)
             volumes_items nics_items in
  res <- requests_post api_url (BodyServer payload) ;;
  print (MsgResponse res) ;;
  all_available [r_href res] ;;
  ret (r_href res).

(** ** attach_single, attach *)

Fixpoint update_nth {A} (n : nat) (f : A -> A) (l : list A) : list A :=
  match l, n with
  | [], _ => []
  | x :: l', O => f x :: l'
  | x :: l', S n' => x :: update_nth n' f l'
  end.

Definition update_standalone (type : ctype) (idx : nat)
  (f : component -> component) (jf : json_file) : json_file :=
  match type with
  | Volumes => mkJsonFile (server jf) (update_nth idx f (volumes jf)) (nics jf)
  | Nics => mkJsonFile (server jf) (volumes jf) (update_nth idx f (nics jf))
  end.

Fixpoint update_file (key : string) (f : json_file -> json_file)
  (files : list (string * json_file)) : list (string * json_file) :=
  match files with
  | [] => []
  | (k, jf) :: files' =>
      if String.eqb k key then (k, f jf) :: files'
      else (k, jf) :: update_file key f files'
  end.

(** An assignment [json_files[key][type][idx]["properties"][...] = ...]: the
    script holds no copy, it writes into the shared dictionary. *)
Definition json_files_assign (key : string) (type : ctype) (idx : nat)
  (f : component -> component) : M unit :=
  fun s =>
    mkRun (Ok tt)
          (with_json_files
             (update_file key (update_standalone type idx f) (json_files s)) s)
          [].

(** [json_files[key][type][idx]], read from the shared dictionary as it is
    now.  The index is always [components.index(name)] of a name that was
    found, so the failure branch is never taken. *)
Definition json_files_item (key : string) (type : ctype) (idx : nat)
  : M component :=
  json_file <- json_files_get key ;;
  match nth_error (standalone type json_file) idx with
  | Some item => ret item
  | None => exit KeyError
  end.

Definition is_volumes (type : ctype) : bool :=
  match type with Volumes => true | Nics => false end.

(** The names [attach_single] accepts:
    [[t["properties"]["name"] for t in json_file[type]]]. *)
Definition attachable (type : ctype) (json_file : json_file) : list string :=
  map c_name (standalone type json_file).

(** The password block of [attach_single]: for a volume whose
    ["imagePassword"] is [null], a generated password is assigned to the
    entry itself; a missing key raises [KeyError], which is caught. *)
Definition attach_password (key : string) (type : ctype) (idx : nat)
  : M unit :=
  if is_volumes type then
    item <- json_files_item key type idx ;;
    match prop_imagePassword (c_properties item) with
    | PwNull =>
        pw <- random_password ;;
        json_files_assign key type idx (set_imagePassword pw)
    | PwValue _ => ret tt
    | PwAbsent => ret tt
    end
  else ret tt.

(** The userData block of [attach_single]: the template of the server,
    <server_name>-boot.yaml, for a volume whose name contains "-boot". *)
Definition attach_boot_script (key server_name name : string) (type : ctype)
  (idx : nat) : M unit :=
  let file_name := (server_name ++ "-boot.yaml")%string in
  if is_volumes type && mem file_name (listdir cloud_configs_dir)
     && contains "-boot" name
  then json_files_assign key type idx
         (set_userData (user_data cloud_configs_dir file_name))
  else ret tt.

(** "Make newly attached volume a boot device if name ends with -boot". *)
Definition attach_boot_device (href : string) (type : ctype)
  (component : response) : M unit :=
  if is_volumes type && endswith (r_name component) "-boot"
  then requests_patch href (BodyBootVolume (r_id component))
  else ret tt.

Definition attach_single (href server_name name : string) (type : ctype)
  : M unit :=
  dc_href <- name_to_href DATACENTER URL_DATACENTERS ;;
  let URL_SERVERS := (dc_href ++ "/servers")%string in
  found <- server_exists server_name URL_SERVERS ;;
  if negb found then exit NotFound else
  let key := (server_name ++ ".json")%string in
  json_file <- json_files_get key ;;
  let components := attachable type json_file in
  if negb (mem name components)
  then print (MsgNotIn name components) ;; exit NotFound
  else
  let url_type := (href ++ "/" ++ type_str type)%string in
  let idx := index_of name components in
  attach_password key type idx ;;
  attach_boot_script key server_name name type idx ;;
  print (MsgAttaching type name server_name) ;;
  item <- json_files_item key type idx ;;
  component <- requests_post url_type (BodyProperties (c_properties item)) ;;
  all_available [href] ;;
  attach_boot_device href type component ;;
  all_available [href].

(** [for t in json_files[server_name + ".json"][type]: attach_single(...)].
    The calls assign to keys of the listed objects but never add, remove or
    rename one, so the loop runs over the names the list had on entry. *)
Fixpoint attach_items (api_url server_name : string) (type : ctype)
  (items : list component) : M unit :=
  match items with
  | [] => ret tt
  | t :: items' =>
      attach_single api_url server_name (c_name t) type ;;
      attach_items api_url server_name type items'
  end.

Definition attach (type : ctype) (api_url : string) : M unit :=
  server <- requests_get api_url ;;
  let server_name := r_name server in
  json_file <- json_files_get (server_name ++ ".json")%string ;;
  attach_items api_url server_name type (standalone type json_file).

(** ** fwrules_create_single, fwrules_create *)

(** The body of [if rule["properties"]["name"] == name:]: resolve the NIC,
    announce the creation, post the rule, wait for the server. *)
Definition fwrules_post_rule (name server_name nic_name URL_SERVERS : string)
  (rule : rule) : M unit :=
  server_href <- name_to_href server_name URL_SERVERS ;;
  let nic_href := (server_href ++ "/nics")%string in
  nic <- name_to_href nic_name nic_href ;;
  let fw_href := (nic ++ "/firewallrules")%string in
  print (MsgCreatingRule name nic_name server_name) ;;
  _ <- requests_post fw_href (BodyRule rule) ;;
  server_href <- name_to_href server_name URL_SERVERS ;;
  all_available [server_href].

(** [for rule in rules: if rule["properties"]["name"] == name: ...] *)
Fixpoint fwrules_create_rules (name server_name nic_name URL_SERVERS : string)
  (rules : list rule) : M unit :=
  match rules with
  | [] => ret tt
  | rule :: rules' =>
      (if String.eqb (rule_name rule) name
       then fwrules_post_rule name server_name nic_name URL_SERVERS rule
       else ret tt) ;;
      fwrules_create_rules name server_name nic_name URL_SERVERS rules'
  end.

(** [len(set(rules_names)) != len(rules)] *)
Definition has_duplicates (rules_names : list string) : bool :=
  negb (length (nodup string_dec rules_names) =? length rules_names)%nat.

(** [for nic in nics: if nic_name == nic["properties"]["name"]: ...];
    [nic["firewallrules"]] of a NIC without that key raises [KeyError]. *)
Fixpoint fwrules_create_nics (name server_name nic_name URL_SERVERS : string)
  (nics : list component) : M unit :=
  match nics with
  | [] => ret tt
  | nic :: nics' =>
      (if String.eqb nic_name (c_name nic) then
         match firewallrules nic with
         | None => exit KeyError
         | Some rules =>
             let rules_names := map rule_name rules in
             if has_duplicates rules_names
             then print (MsgDuplicateRules nic_name rules_names) ;;
                  exit DuplicateName
             else fwrules_create_rules name server_name nic_name URL_SERVERS
                    rules
         end
       else ret tt) ;;
      fwrules_create_nics name server_name nic_name URL_SERVERS nics'
  end.

Definition fwrules_create_single (name server_name nic_name : string)
  : M unit :=
  dc_href <- name_to_href DATACENTER URL_DATACENTERS ;;
  let URL_SERVERS := (dc_href ++ "/servers")%string in
  found <- server_exists server_name URL_SERVERS ;;
  if negb found then exit NotFound else
  json_file <- json_files_get (server_name ++ ".json")%string ;;
  let nics := nics json_file ++ entities_nics (server json_file) in
  fwrules_create_nics name server_name nic_name URL_SERVERS nics.

(** [for firewallrule in nic["firewallrules"]: fwrules_create_single(...)] *)
Fixpoint fwrules_create_each (server_name nic_name : string)
  (rules : list rule) : M unit :=
  match rules with
  | [] => ret tt
  | firewallrule :: rules' =>
      fwrules_create_single (rule_name firewallrule) server_name nic_name ;;
      fwrules_create_each server_name nic_name rules'
  end.

(** [for nic in nics: if "firewallrules" in nic: ...] *)
Fixpoint fwrules_create_all (server_name : string) (nics : list component)
  : M unit :=
  match nics with
  | [] => ret tt
  | nic :: nics' =>
      match firewallrules nic with
      | Some rules => fwrules_create_each server_name (c_name nic) rules
      | None => ret tt
      end ;;
      fwrules_create_all server_name nics'
  end.

Definition fwrules_create (server_name : string) : M unit :=
  json_file <- json_files_get (server_name ++ ".json")%string ;;
  let nics := nics json_file ++ entities_nics (server json_file) in
  fwrules_create_all server_name nics.

(** ** create *)

Definition create (server_name api_url : string) : M unit :=
  found <- server_exists server_name api_url ;;
  if found then exit AlreadyExists else
  href <- create_single server_name api_url ;;
  attach Volumes href ;;
  attach Nics href ;;
  fwrules_create server_name.

(** ** delete_single, detach_single, detach, delete *)

Definition delete_single (server_object : response) : M unit :=
  print (MsgDeletingServer (r_name server_object)) ;;
  requests_delete (r_href server_object).

(** The names [detach_single] accepts:
    [json_file[type] + json_file["server"]["entities"][type]["items"]]. *)
Definition detachable (type : ctype) (json_file : json_file) : list string :=
  map c_name (standalone type json_file ++ embedded type json_file).

Definition detach_single (href server_name name : string) (type : ctype)
  : M unit :=
  dc_href <- name_to_href DATACENTER URL_DATACENTERS ;;
  let URL_SERVERS := (dc_href ++ "/servers")%string in
  found <- server_exists server_name URL_SERVERS ;;
  if negb found then exit NotFound else
  json_file <- json_files_get (server_name ++ ".json")%string ;;
  let components := detachable type json_file in
  if negb (mem name components)
  then print (MsgNotIn name components) ;; exit NotFound
  else
  print (MsgDetaching type name server_name) ;;
  requests_delete href ;;
  server_href <- name_to_href server_name URL_SERVERS ;;
  all_available [server_href].

(** [for item in items: ...] of [detach], over the hrefs of the listing the
    remote side returned. *)
Fixpoint detach_items (server_name : string) (type : ctype)
  (items : list string) : M unit :=
  match items with
  | [] => ret tt
  | item_href :: items' =>
      item <- requests_get item_href ;;
      let item_name := r_name item in
      detach_single item_href server_name item_name type ;;
      detach_items server_name type items'
  end.

Definition detach (type : ctype) (api_url : string) : M unit :=
  server <- requests_get api_url ;;
  let server_name := r_name server in
  let url_type := (api_url ++ "/" ++ type_str type)%string in
  listing <- requests_get url_type ;;
  detach_items server_name type (r_items listing).

Definition delete (server_name api_url : string) : M unit :=
  found <- server_exists server_name api_url ;;
  if negb found then exit NotFound else
  server_href <- name_to_href server_name api_url ;;
  server_object <- requests_get server_href ;;
  all_available [server_href] ;;
  detach Nics server_href ;;
  detach Volumes server_href ;;
  delete_single server_object.

End Engine.

(** ** Reading a trace *)

Definition is_sleep (e : event) : bool :=
  match e with EvSleep _ => true | _ => false end.

(** The number of [time.sleep] calls. *)
Definition count_sleeps (tr : list event) : nat := length (filter is_sleep tr).

(** The number of polling rounds: maximal runs of consecutive state fetches. *)
Fixpoint poll_rounds_from (in_round : bool) (tr : list event) : nat :=
  match tr with
  | [] => 0
  | EvGet _ :: tr' => (if in_round then 0 else 1) + poll_rounds_from true tr'
  | _ :: tr' => poll_rounds_from false tr'
  end.

Definition poll_rounds (tr : list event) : nat := poll_rounds_from false tr.

(** POST, PATCH and DELETE change the remote side; GET, sleeping and printing
    do not. *)
Definition mutating (e : event) : bool :=
  match e with
  | EvPost _ _ | EvPatch _ _ | EvDelete _ => true
  | _ => false
  end.

(** The hrefs deleted, in order. *)
Fixpoint deleted (tr : list event) : list string :=
  match tr with
  | [] => []
  | EvDelete url :: tr' => url :: deleted tr'
  | _ :: tr' => deleted tr'
  end.

(** The bodies posted, in order. *)
Fixpoint posted (tr : list event) : list body :=
  match tr with
  | [] => []
  | EvPost _ b :: tr' => b :: posted tr'
  | _ :: tr' => posted tr'
  end.

(** The PATCH requests, in order. *)
Fixpoint patched (tr : list event) : list event :=
  match tr with
  | [] => []
  | EvPatch url b :: tr' => EvPatch url b :: patched tr'
  | _ :: tr' => patched tr'
  end.

(** The firewall-rule creation calls: each POST of a rule that follows the
    line "+++ Creating firewallrules.<name> on nics.<nic_name> ..." the
    script prints just before it, as (NIC name, rule posted). *)
Fixpoint fw_creations (tr : list event) : list (string * rule) :=
  match tr with
  | [] => []
  | EvPrint (MsgCreatingRule _ nic_name _) :: tr' =>
      match tr' with
      | EvPost _ (BodyRule r) :: _ => (nic_name, r) :: fw_creations tr'
      | _ => fw_creations tr'
      end
  | _ :: tr' => fw_creations tr'
  end.

Definition announces_rule (e : event) : bool :=
  match e with EvPrint (MsgCreatingRule _ _ _) => true | _ => false end.

(** ** Rounds of the availability barrier *)

Section Rounds.

Context {World : Type}.
Variable remote : Remote World.

(** The state in which [all_available] starts its round number [k] (from 0)
    when the rounds before it did not end the loop. *)
Fixpoint before_round (k : nat) (hrefs : list string) (s : state World)
  : state World :=
  match k with
  | O => s
  | S k' => before_round k' hrefs (final (polling_round remote hrefs s))
  end.

(** Whether every href reports AVAILABLE in round [k]. *)
Definition round_ok (k : nat) (hrefs : list string) (s : state World) : bool :=
  match value (polling_round remote hrefs (before_round k hrefs s)) with
  | Ok b => b
  | Fail _ => false
  end.

End Rounds.

(** ** What the members of the set report *)

Section Reports.

Context {World : Type}.
Variable remote : Remote World.

(** The document says that the resource is available: its
    ["metadata"]["state"] is there and reads "AVAILABLE". *)
Definition reports_available (r : response) : bool :=
  match r_state r with
  | Some st => String.eqb st "AVAILABLE"
  | None => false
  end.

(** The members are asked one after the other, starting in the world [w], up
    to the first one that does not report available: whether all of them
    reported available, and the world after their answers. *)
Fixpoint asked (hrefs : list string) (w : World) : bool * World :=
  match hrefs with
  | [] => (true, w)
  | href :: hrefs' =>
      let rw := http_get remote href w in
      if reports_available (fst rw) then asked hrefs' (snd rw)
      else (false, snd rw)
  end.

(** The world in which the members are asked in round [k] (from 0): every
    round, the first one included, comes after a sleep of 5. *)
Fixpoint world_of_round (k : nat) (hrefs : list string) (w : World) : World :=
  match k with
  | O => time_passes remote 5 w
  | S k' =>
      world_of_round k' hrefs (snd (asked hrefs (time_passes remote 5 w)))
  end.

(** Every member of the set reports available in round [k]. *)
Definition all_report_available (k : nat) (hrefs : list string) (w : World)
  : bool :=
  fst (asked hrefs (world_of_round k hrefs w)).

End Reports.

(** ** Remote sides to run the script against *)

(** A remote side that answers the [n]-th GET by a table and replies to a
    POST by a function of the request; its world is the number of GETs
    answered so far. *)
Definition scripted (answer : nat -> string -> response)
  (reply : string -> body -> response) : Remote nat :=
  mkRemote (fun url n => (answer n url, S n))
           (fun url b n => (reply url b, n))
           (fun _ _ n => n)
           (fun _ n => n)
           (fun _ n => n).

Definition no_reply (url : string) (b : body) : response :=
  mkResponse url "" "" None [].

(** Every href is BUSY for the first two fetches and AVAILABLE afterwards. *)
Definition busy_busy_available (n : nat) (url : string) : response :=
  mkResponse url "" ""
             (Some (if (n <? 2)%nat then "BUSY" else "AVAILABLE")) [].

Definition empty_state : state nat := mkState 0 [] (fun i => i).

(** A remote side that never changes: a GET is answered from a fixed table of
    documents, any other href by an empty AVAILABLE document. *)
Fixpoint document (table : list (string * response)) (url : string)
  : response :=
  match table with
  | [] => mkResponse url "" "" (Some "AVAILABLE") []
  | (k, r) :: table' => if String.eqb k url then r else document table' url
  end.

(** The reply to a POST: the created object, with the name that was sent. *)
Definition echo_reply (url : string) (b : body) : response :=
  match b with
  | BodyServer payload =>
      mkResponse "dc1/servers/s1" "s1" (srv_name payload) (Some "BUSY") []
  | BodyProperties p =>
      mkResponse (url ++ "/new")%string "new" (prop_name p) (Some "BUSY") []
  | BodyRule r =>
      mkResponse (url ++ "/new")%string "new" (rule_name r) (Some "BUSY") []
  | BodyBootVolume id => mkResponse url id "" (Some "BUSY") []
  end.

Definition static (table : list (string * response)) : Remote nat :=
  scripted (fun _ => document table) echo_reply.

Definition collection (href : string) (items : list string) : response :=
  mkResponse href "" "" (Some "AVAILABLE") items.

Definition resource (href id name : string) : response :=
  mkResponse href id name (Some "AVAILABLE") [].

(** Datacenter "fra" with one server "web1" that has one NIC "lan" and one
    volume "web1-boot". *)
Definition cloud : list (string * response) :=
  [ (URL_DATACENTERS, collection URL_DATACENTERS ["dc1"]);
    ("dc1", resource "dc1" "dc1" "fra");
    ("dc1/servers", collection "dc1/servers" ["dc1/servers/s1"]);
    ("dc1/servers/s1", resource "dc1/servers/s1" "s1" "web1");
    ("dc1/servers/s1/nics",
     collection "dc1/servers/s1/nics" ["dc1/servers/s1/nics/n1"]);
    ("dc1/servers/s1/nics/n1", resource "dc1/servers/s1/nics/n1" "n1" "lan");
    ("dc1/servers/s1/volumes",
     collection "dc1/servers/s1/volumes" ["dc1/servers/s1/volumes/v1"]);
    ("dc1/servers/s1/volumes/v1",
     resource "dc1/servers/s1/volumes/v1" "v1" "web1-boot") ].

(** The same, after somebody added a NIC "extra" to the server by hand. *)
Definition cloud_with_extra_nic : list (string * response) :=
  [ ("dc1/servers/s1/nics",
     collection "dc1/servers/s1/nics"
                ["dc1/servers/s1/nics/n1"; "dc1/servers/s1/nics/n2"]);
    ("dc1/servers/s1/nics/n2", resource "dc1/servers/s1/nics/n2" "n2" "extra")
  ] ++ cloud.

Definition plain (name : string) : properties :=
  mkProperties name PwAbsent None [].

Definition ssh : rule := mkRule "ssh" [("protocol", "TCP"); ("port", "22")].
Definition http : rule := mkRule "http" [("protocol", "TCP"); ("port", "80")].

(** web1.json: a boot volume embedded in the server, a NIC "lan" declared in
    both lists with the same firewall rules, a data volume to attach. *)
Definition web1 (rules : list rule) : json_file :=
  mkJsonFile
    (mkServer "web1" [("cores", "2")]
       [mkComponent (mkProperties "web1-boot" PwNull None []) None]
       [mkComponent (plain "lan") (Some rules)])
    [mkComponent (mkProperties "web1-data" PwNull None []) None]
    [mkComponent (plain "lan") (Some rules)].

(** web1.json with the boot volume declared in the standalone list, to be
    attached after the server was created. *)
Definition web1_late_boot : json_file :=
  mkJsonFile
    (mkServer "web1" [("cores", "2")] [] [])
    [mkComponent (mkProperties "web1-data" PwNull None []) None;
     mkComponent (mkProperties "web1-boot" PwNull None []) None]
    [].

(** web1.json with a boot volume "web1-boot" embedded in the server, a data
    volume embedded in the server, and a boot volume of the same name to
    attach. *)
Definition web1_boot_twice : json_file :=
  mkJsonFile
    (mkServer "web1" [("cores", "2")]
       [mkComponent (mkProperties "web1-boot" PwNull None []) None;
        mkComponent (mkProperties "web1-data" PwNull None []) None]
       [])
    [mkComponent (mkProperties "web1-boot" PwNull None []) None]
    [].

(** db1.json: the first embedded volume has no "imagePassword" key, the
    second one has "imagePassword": null. *)
Definition db1 : json_file :=
  mkJsonFile
    (mkServer "db1" []
       [mkComponent (plain "db1-data") None;
        mkComponent (mkProperties "db1-logs" PwNull None []) None]
       [])
    [] [].

(** old1.json: an embedded volume whose name contains "-boot" but does not
    end with it. *)
Definition old1 : json_file :=
  mkJsonFile
    (mkServer "old1" []
       [mkComponent (mkProperties "old1-boot-2019" (PwValue "secret") None [])
                    None]
       [])
    [] [].

Definition start (files : list (string * json_file)) : state nat :=
  mkState 0 files (fun i => i).

(** ** What a computation does, whatever the state *)

Section Observations.

Context {World : Type}.

(** Every event of every run satisfies [P]. *)
Definition emits {A} (P : event -> Prop) (m : M World A) : Prop :=
  forall s, Forall P (trace (m s)).

(** No run changes [json_files]. *)
Definition keeps {A} (m : M World A) : Prop :=
  forall s, json_files (final (m s)) = json_files s.

(** [json_files[key][type][idx]] exists and is called [name]. *)
Definition has_entry (key : string) (type : ctype) (idx : nat) (name : string)
  (s : state World) : Prop :=
  exists jf item, lookup key (json_files s) = Some jf /\
                  nth_error (standalone type jf) idx = Some item /\
                  c_name item = name.

End Observations.

(** How the password loop of [create_single] should treat one volume: a
    [null] password is replaced by 32 letters and digits, anything else is
    left alone. *)
Definition password_filled (item item' : component) : Prop :=
  match prop_imagePassword (c_properties item) with
  | PwNull =>
      exists pw, item' = set_imagePassword pw item /\
                 String.length pw = 32 /\
                 Forall (fun c => alphanumeric c = true)
                        (list_ascii_of_string pw)
  | _ => item' = item
  end.

Section Guards.

Context {World : Type}.
Variable remote : Remote World.
Variable DATACENTER : string.

(** The remote half of the guard of [attach_single], [detach_single] and
    [fwrules_create_single]: the datacenter resolves and the server is found
    in it. *)
Definition guard_passes (server_name : string) (s : state World) : bool :=
  let dc := name_to_href remote DATACENTER URL_DATACENTERS s in
  match value dc with
  | Ok dc_href =>
      match value (server_exists remote server_name
                     (dc_href ++ "/servers")%string (final dc)) with
      | Ok found => found
      | Fail _ => false
      end
  | Fail _ => false
  end.

(** The hrefs [detach] walks through when started in [s]: the items of the
    listing the remote side returns for [api_url/type]. *)
Definition listing_seen (type : ctype) (api_url : string) (s : state World)
  : list string :=
  r_items (fst (http_get remote (api_url ++ "/" ++ type_str type)%string
                         (world (final (requests_get remote api_url s))))).

(** [server_object["href"]] of the server document a GET returned. *)
Definition server_href_of (fetched : run World response) : string :=
  match value fetched with
  | Ok server_object => r_href server_object
  | Fail _ => EmptyString
  end.

End Guards.

(** Reading the remote side and reporting: fetches, sleeps, and prints other
    than the announcement of a firewall-rule creation. *)
Definition harmless (e : event) : Prop :=
  match e with
  | EvGet _ | EvSleep _ => True
  | EvPrint (MsgCreatingRule _ _ _) => False
  | EvPrint _ => True
  | EvPost _ _ | EvPatch _ _ | EvDelete _ => False
  end.

(** [tr] contains the firewall-rule creation calls [cs], whatever follows. *)
Definition creations_of (tr : list event) (cs : list (string * rule)) : Prop :=
  forall tl, fw_creations (tr ++ tl) = cs ++ fw_creations tl.

(** [json_file["nics"] + json_file["server"]["entities"]["nics"]["items"]] *)
Definition declared_nics (jf : json_file) : list component :=
  nics jf ++ entities_nics (server jf).

(** The creation calls one completed [fwrules_create_single(name, ...,
    nic_name, ...)] makes: for every declaration called [nic_name] in [nics],
    one per rule of that declaration called [name]. *)
Definition rule_posts (name nic_name : string) (nics : list component)
  : list (string * rule) :=
  flat_map
    (fun nic =>
       if String.eqb nic_name (c_name nic) then
         match firewallrules nic with
         | Some rules =>
             map (pair nic_name)
                 (filter (fun x => String.eqb (rule_name x) name) rules)
         | None => []
         end
       else [])
    nics.

(** The creation calls of the [fwrules_create_single] made for one
    declaration of the outer list, when they all complete. *)
Definition calls_for (nics : list component) (nic : component)
  : list (string * rule) :=
  match firewallrules nic with
  | Some rules =>
      flat_map (fun fr => rule_posts (rule_name fr) (c_name nic) nics) rules
  | None => []
  end.

(** The creation calls a completed [fwrules_create] makes: those of one
    [fwrules_create_single] for every rule of every declaration in [nics]. *)
Definition sync_posts (nics : list component) : list (string * rule) :=
  flat_map (calls_for nics) nics.

(** The firewall rules of [nic] are declared, and two of them share a name. *)
Definition duplicate_rules (nic : component) : Prop :=
  exists rules, firewallrules nic = Some rules /\
                has_duplicates (map rule_name rules) = true.

(** The creation calls on NIC [n] for rules called as [r]. *)
Definition creations_for (n : string) (r : rule) (cs : list (string * rule))
  : list (string * rule) :=
  filter (fun c => String.eqb (fst c) n
                   && String.eqb (rule_name (snd c)) (rule_name r)) cs.

(** ** Remote sides without memory *)

(** The remote side answers a GET by the document [doc url], whatever
    happened before. *)
Definition stateless {World : Type} (remote : Remote World)
  (doc : string -> response) : Prop :=
  forall url w, fst (http_get remote url w) = doc url.

(** The documents the remote side returns when [urls] are fetched one after
    the other, starting in the world [w]. *)
Fixpoint fetched {World : Type} (remote : Remote World) (urls : list string)
  (w : World) : list response :=
  match urls with
  | [] => []
  | url :: urls' =>
      let rw := http_get remote url w in
      fst rw :: fetched remote urls' (snd rw)
  end.

(** A resource that is still materializing: its document has no state. *)
Definition materializing (n : nat) (url : string) : response :=
  mkResponse url "" "" None [].

(** ** Declared names *)

Section Declared.

Context {World : Type}.

(** No run changes which names are declared in the standalone lists of any
    <server>.json (the entries themselves may change). *)
Definition keeps_declared {A} (m : M World A) : Prop :=
  forall s key type,
    option_map (attachable type) (lookup key (json_files (final (m s)))) =
    option_map (attachable type) (lookup key (json_files s)).

End Declared.

(** Requests that add or configure, never remove: anything but PATCH and
    DELETE. *)
Definition no_patch_no_delete (e : event) : Prop :=
  match e with
  | EvPatch _ _ | EvDelete _ => False
  | _ => True
  end.

(** Requests that read or remove, never create or change: anything but POST
    and PATCH. *)
Definition no_post_no_patch (e : event) : Prop :=
  match e with
  | EvPost _ _ | EvPatch _ _ => False
  | _ => True
  end.

(** The declared firewall rules, each under the name of its NIC, in the order
    of the declarations. *)
Definition declared_rules (nics : list component) : list (string * rule) :=
  flat_map
    (fun nic =>
       match firewallrules nic with
       | Some rules => map (pair (c_name nic)) rules
       | None => []
       end)
    nics.

(** web1.json with the NIC "lan" declared twice with different rules: one
    rule "ssh" in the standalone list, two rules called "http" in the
    server. *)
Definition web1_lan_mixed : json_file :=
  mkJsonFile
    (mkServer "web1" [("cores", "2")]
       [mkComponent (mkProperties "web1-boot" PwNull None []) None]
       [mkComponent (plain "lan") (Some [http; http])])
    []
    [mkComponent (plain "lan") (Some [ssh])].

(** web1.json with the NIC "lan" declared once, in the standalone list. *)
Definition web1_lan_once (rules : list rule) : json_file :=
  mkJsonFile
    (mkServer "web1" [("cores", "2")]
       [mkComponent (mkProperties "web1-boot" PwNull None []) None]
       [])
    []
    [mkComponent (plain "lan") (Some rules)].

(** web1.json with the NIC "lan" declared twice: with firewall rules in the
    standalone list, without the key "firewallrules" in the server. *)
Definition web1_lan_half (rules : list rule) : json_file :=
  mkJsonFile
    (mkServer "web1" [("cores", "2")]
       [mkComponent (mkProperties "web1-boot" PwNull None []) None]
       [mkComponent (plain "lan") None])
    []
    [mkComponent (plain "lan") (Some rules)].

(** * The helpers around the engine

    [user_data], [header_function] and [math_func] do not talk to the remote
    side.  What they take from the Python library is a parameter here: the
    file system ([os.path.isfile], [open(...).read()]), [base64.b64encode],
    the environment, the lines of the standard input, [int] and the random
    generator.  A string is a sequence of code points below 256. *)

(** ** Python strings, continued *)

Definition newline : ascii := "010"%char.

(** [c.isspace()] *)
Definition isspace (c : ascii) : bool :=
  let n := nat_of_ascii c in
  (((9 <=? n) && (n <=? 13)) || ((28 <=? n) && (n <=? 32))
   || (n =? 133) || (n =? 160))%nat.

(** [c.isascii()] *)
Definition isascii (c : ascii) : bool := (nat_of_ascii c <? 128)%nat.

(** [all(p(c) for c in s)] *)
Fixpoint all_chars (p : ascii -> bool) (s : string) : bool :=
  match s with
  | EmptyString => true
  | String c s' => p c && all_chars p s'
  end.

(** [s.lstrip()] *)
Fixpoint lstrip (s : string) : string :=
  match s with
  | EmptyString => EmptyString
  | String c s' => if isspace c then lstrip s' else s
  end.

(** [s.rstrip()] *)
Fixpoint rstrip (s : string) : string :=
  match s with
  | EmptyString => EmptyString
  | String c s' =>
      match rstrip s' with
      | EmptyString => if isspace c then EmptyString else String c EmptyString
      | String c' r => String c (String c' r)
      end
  end.

(** [s.strip()] *)
Definition strip (s : string) : string := lstrip (rstrip s).

(** [s.startswith(prefix)] *)
Definition startswith (s prefix : string) : bool := String.prefix prefix s.

(** [s[n:]] *)
Fixpoint slice_from (n : nat) (s : string) : string :=
  match n with
  | 0 => s
  | S n' =>
      match s with
      | EmptyString => EmptyString
      | String _ s' => slice_from n' s'
      end
  end.

(** [s.split(sep)[0]], for a separator that is not empty: [s] up to the
    first occurrence of [sep], all of [s] when there is none. *)
Fixpoint before (sep s : string) : string :=
  if String.prefix sep s then EmptyString
  else match s with
       | EmptyString => EmptyString
       | String c s' => String c (before sep s')
       end.

(** [fp.readlines()] on a file whose text is [text]: the lines, each with its
    terminating newline (the last one may have none). *)
Fixpoint readlines (text : string) : list string :=
  match text with
  | EmptyString => []
  | String c rest =>
      if Ascii.eqb c newline then String c EmptyString :: readlines rest
      else match readlines rest with
           | [] => [String c EmptyString]
           | line :: lines => String c line :: lines
           end
  end.

(** ** Exceptions *)

Inductive exception : Type :=
| OSError (path : string)
| UnicodeDecodeError
| UnicodeEncodeError
| EnvironKeyError (key : string)
| EOFError
| ValueError
| RecursionError
| SystemExit (code : nat).

Inductive outcome (A : Type) : Type :=
| Returns (a : A)
| Raises (e : exception).
Arguments Returns {A} a.
Arguments Raises {A} e.

(** [s.encode("ascii")], followed by [f] on the bytes *)
Definition encode_ascii {A} (s : string) (f : string -> A) : outcome A :=
  if all_chars isascii s then Returns (f s) else Raises UnicodeEncodeError.

(** ** header_function *)

(** [headers["headers"]], the dictionary of the two request headers. *)
Record auth_headers : Type := mkAuthHeaders {
  X_Contract_Number : string;
  Authorization : string
}.

Section Helpers.

(** [os.environ.get("DATACENTER")] *)
Variable DATACENTER : string.
(** [os.path.isfile(path)] *)
Variable isfile : string -> bool.
(** [open(path).read()]: the text of the file as Python reads it (text mode,
    line ends already translated to newlines), or the exception that [open]
    or the reading raises: [OSError] for a file that is not there or cannot
    be opened, [ValueError] for a path with a null character,
    [UnicodeDecodeError] for bytes that are no text. *)
Variable open_read : string -> outcome string.
(** [base64.b64encode(bytes).decode("ascii")] *)
Variable b64encode : string -> string.

Definition header_function (username password contract_nr : string)
  : outcome auth_headers :=
  let base_up := (rstrip username ++ ":" ++ rstrip password)%string in
  encode_ascii base_up (fun base_up_en =>
    let auth_base_64_de := b64encode base_up_en in
    mkAuthHeaders (rstrip contract_nr) ("Basic " ++ auth_base_64_de)%string).

(** ** user_data

    The engine above takes [user_data] as a function that returns; this is
    the function itself, with the exceptions of the files it reads. *)

(** [line[2:].split("}}")[0].strip()] *)
Definition includes_file_of (line : string) : string :=
  strip (before "}}" (slice_from 2 line)).

(** [includes_dir + includes_file], with the includes of the datacenter
    first and /datacenters/includes/ when the file is not there. *)
Definition includes_path (includes_file : string) : string :=
  let includes_dir := ("/datacenters/" ++ DATACENTER ++ "/includes/")%string in
  let includes_dir :=
    if negb (isfile (includes_dir ++ includes_file)%string)
    then "/datacenters/includes/" else includes_dir in
  (includes_dir ++ includes_file)%string.

(** [for line in braces: ...]: what the loop writes to the temporary file. *)
Fixpoint temp_braces (braces : list string) : outcome string :=
  match braces with
  | [] => Returns EmptyString
  | line :: braces' =>
      if startswith line "{{" then
        let path := includes_path (includes_file_of line) in
        match open_read path with
        | Raises e => Raises e
        | Returns text =>
            match temp_braces braces' with
            | Returns rest => Returns (text ++ rest)%string
            | Raises e => Raises e
            end
        end
      else
        match temp_braces braces' with
        | Returns rest => Returns (line ++ rest)%string
        | Raises e => Raises e
        end
  end.

(** [temp_braces.seek(0); server_yaml = temp_braces.read()], for a template
    whose text is [template]. *)
Definition server_yaml (template : string) : outcome string :=
  temp_braces (readlines template).

Definition user_data (dir file_name : string) : outcome string :=
  match open_read (dir ++ file_name)%string with
  | Raises e => Raises e
  | Returns template =>
      match server_yaml template with
      | Returns server_yaml => encode_ascii server_yaml b64encode
      | Raises e => Raises e
      end
  end.

End Helpers.

(** *** A file system to run the helpers on *)

(** One template, one include file that exists for the datacenter "fra" and
    globally, one that exists only globally. *)
Definition files_open_read (path : string) : outcome string :=
  if String.eqb path "/datacenters/fra/cloud-configs/web1-boot.yaml"
  then Returns ("#cloud-config" ++ String newline
                ("{{ users.yaml }} # accounts" ++ String newline
                 ("{{motd.yaml}}" ++ String newline "runcmd: []")))%string
  else if String.eqb path "/datacenters/fra/cloud-configs/plain.yaml"
  then Returns ("#cloud-config" ++ String newline
                (" {{ users.yaml }}" ++ String newline EmptyString))%string
  else if String.eqb path "/datacenters/fra/includes/users.yaml"
  then Returns ("users: [fra]" ++ String newline EmptyString)%string
  else if String.eqb path "/datacenters/includes/users.yaml"
  then Returns ("users: []" ++ String newline EmptyString)%string
  else if String.eqb path "/datacenters/includes/motd.yaml"
  then Returns ("motd: hello" ++ String newline EmptyString)%string
  else Raises (OSError path).

Definition files_isfile (path : string) : bool :=
  match files_open_read path with Returns _ => true | Raises _ => false end.

(** A stand-in for base64, enough to tell the encoded from the plain. *)
Definition tagged (bytes : string) : string := ("b64:" ++ bytes)%string.

(** [a; b], stopping at the first exception, for two texts. *)
Definition then_text (a b : outcome string) : outcome string :=
  match a with
  | Returns x =>
      match b with
      | Returns y => Returns (x ++ y)%string
      | Raises e => Raises e
      end
  | Raises e => Raises e
  end.

(** ** math_func *)

(** What the script writes to the terminal: the prompt of an [input], or a
    printed line. *)
Inductive output : Type :=
| Prompt (text : string)
| Printed (line : string).

(** [re.match("^(W|w)(rest)?$", s)] for the patterns of [math_func]: the
    whole of [s] is one of the four words, up to one final newline. *)
Definition re_match_word (upper lower rest s : string) : bool :=
  let words := [upper; lower; (upper ++ rest)%string; (lower ++ rest)%string] in
  mem s (words ++ map (fun w => (w ++ String newline EmptyString)%string) words).

(** The double quote, as a string. *)
Definition quote : string := String (ascii_of_nat 34) EmptyString.

Definition string_val : list string :=
  ["zero"; "one"; "two"; "three"; "four"; "five"; "six"; "seven"; "eight";
   "nine"].

(** [str(n)] for a digit *)
Definition str_digit (n : nat) : string :=
  nth n ["0"; "1"; "2"; "3"; "4"; "5"; "6"; "7"; "8"; "9"] EmptyString.

Section MathFunc.

(** [os.environ] *)
Variable environ : string -> option string.
(** [int(answer)]: [None] when it raises [ValueError]. *)
Variable int : string -> option Z.
(** The numbers the random generator yields, in the order they are drawn. *)
Variable rng : nat -> nat.

(** [os.environ[key]] *)
Definition environ_item (key : string) : outcome string :=
  match environ key with
  | Some v => Returns v
  | None => Raises (EnvironKeyError key)
  end.

(** The prompt of the first [input], by the kind of deletion. *)
Definition question (type : option string) : outcome string :=
  match type with
  | Some t =>
      if String.eqb t EmptyString then
        match environ_item "SERVER" with
        | Returns server =>
            Returns ("Are you sure you want to delete the server "
                     ++ server ++ "? [y/N]: ")%string
        | Raises e => Raises e
        end
      else if String.eqb t "DATACENTER" then
        match environ_item "DATACENTER" with
        | Returns dc =>
            Returns ("Are you sure you want to delete the datacenter "
                     ++ dc ++ "? [y/N]: ")%string
        | Raises e => Raises e
        end
      else
        match environ_item t with
        | Returns v =>
            match environ_item "SERVER" with
            | Returns server =>
                Returns ("Are you sure you want to delete " ++ t ++ "="
                         ++ quote ++ v ++ quote ++ " from server " ++ server
                         ++ "? [y/N]: ")%string
            | Raises e => Raises e
            end
        | Raises e => Raises e
        end
  | None =>
      match environ_item "SERVER" with
      | Returns server =>
          Returns ("Are you sure you want to delete the server "
                   ++ server ++ "? [y/N]: ")%string
      | Raises e => Raises e
      end
  end.

(** [random.randint(0, 9)], twice *)
Definition left_operand : nat := rng 0 mod 10.
Definition right_operand : nat := rng 1 mod 10.

(** [random.choice([True, False])], twice: whether the operand is spelled *)
Definition left_str : string :=
  if (rng 2 mod 2 =? 0)%nat then nth left_operand string_val EmptyString
  else str_digit left_operand.
Definition right_str : string :=
  if (rng 3 mod 2 =? 0)%nat then nth right_operand string_val EmptyString
  else str_digit right_operand.

(** [random.choice(["*", "-", "+"])] *)
Definition operator : string :=
  nth (rng 4 mod 3) ["*"; "-"; "+"] EmptyString.

Definition math_problem : string :=
  ("What is the result of " ++ left_str ++ " " ++ operator ++ " "
   ++ right_str ++ "? ")%string.

Definition problem_result : Z :=
  if String.eqb operator "*"
  then Z.mul (Z.of_nat left_operand) (Z.of_nat right_operand)
  else if String.eqb operator "-"
  then Z.sub (Z.of_nat left_operand) (Z.of_nat right_operand)
  else Z.add (Z.of_nat left_operand) (Z.of_nat right_operand).

(** The branch of a yes: the problem is asked, and anything but its result
    ends the run. *)
Definition challenge (inputs : list string) : outcome unit * list output :=
  match inputs with
  | [] => (Raises EOFError, [Prompt math_problem])
  | answer :: _ =>
      if String.eqb answer EmptyString
      then (Raises (SystemExit 1),
            [Prompt math_problem; Printed "Wrong answer..."])
      else
        match int answer with
        | None => (Raises ValueError, [Prompt math_problem])
        | Some n =>
            if negb (Z.eqb n problem_result)
            then (Raises (SystemExit 1),
                  [Prompt math_problem; Printed "Wrong answer..."])
            else (Returns tt, [Prompt math_problem])
        end
  end.

(** [math_func(type)], reading the lines [inputs] of the standard input.
    The function calls itself after a request for help and after an answer
    it does not understand; [frames] is the number of calls the interpreter
    still allows ([RecursionError] beyond). *)
Fixpoint math_func (frames : nat) (type : option string)
  (inputs : list string) : outcome unit * list output :=
  match frames with
  | 0 => (Raises RecursionError, [])
  | S frames' =>
      match question type with
      | Raises e => (Raises e, [])
      | Returns q =>
          match inputs with
          | [] => (Raises EOFError, [Prompt q])
          | line :: inputs' =>
              let input_val :=
                if String.eqb line EmptyString then "N" else line in
              if re_match_word "H" "h" "elp" input_val then
                let r := math_func frames' type inputs' in
                (fst r,
                 Prompt q :: Printed "There is no help."
                 :: Printed "Try again." :: snd r)
              else if re_match_word "Y" "y" "es" input_val then
                let r := challenge inputs' in
                (fst r, Prompt q :: snd r)
              else if re_match_word "N" "n" "o" input_val then
                (Raises (SystemExit 1),
                 [Prompt q; Printed "Ok, see you next time..."])
              else
                let r := math_func frames' type inputs' in
                (fst r,
                 Prompt q
                 :: Printed (input_val ++ " is not a valid answer!")%string
                 :: snd r)
          end
      end
  end.

End MathFunc.

(** An answer that asks again: a request for help, or anything that is
    neither a yes nor a no (an empty line counts as "N"). *)
Definition asks_again (line : string) : bool :=
  let input_val := if String.eqb line EmptyString then "N" else line in
  re_match_word "H" "h" "elp" input_val
  || negb (re_match_word "Y" "y" "es" input_val
           || re_match_word "N" "n" "o" input_val).

(** An environment and an [int] to run [math_func] on. *)
Definition environ_web1 (key : string) : option string :=
  if String.eqb key "SERVER" then Some "web1"
  else if String.eqb key "DATACENTER" then Some "fra"
  else None.

Definition int_digit (answer : string) : option Z :=
  if String.eqb answer "6" then Some 6%Z
  else if String.eqb answer "7" then Some 7%Z
  else None.

(** Draws that make the problem "two * 3". *)
Definition draws_two_times_3 (i : nat) : nat := nth i [2; 3; 0; 1; 0] 0.

(** * Deleting firewall rules

    [fwrules_delete_single] announces each deletion with a line that is not
    among the messages of the engine above.  Its runs are traced with the
    events of the engine and that announcement; the calls into the engine are
    the computations defined above, lifted. *)

Inductive fw_event : Type :=
| Engine (e : event)
| DeletingRule (name nic_name server_name : string).

(** The events of the engine in a trace of the deletion. *)
Fixpoint engine_events (tr : list fw_event) : list event :=
  match tr with
  | [] => []
  | Engine e :: tr' => e :: engine_events tr'
  | DeletingRule _ _ _ :: tr' => engine_events tr'
  end.

Section FirewallDeletion.

Context {World : Type}.
Variable remote : Remote World.

Record fw_run (A : Type) : Type := mkFwRun {
  fw_value : result A;
  fw_final : state World;
  fw_trace : list fw_event
}.

Definition F (A : Type) : Type := state World -> fw_run A.

Definition fw_ret {A} (a : A) : F A := fun s => mkFwRun (Ok a) s [].

Definition fw_bind {A B} (m : F A) (f : A -> F B) : F B :=
  fun s =>
    let r := m s in
    match fw_value r with
    | Ok a => let r' := f a (fw_final r) in
              mkFwRun (fw_value r') (fw_final r') (fw_trace r ++ fw_trace r')
    | Fail e => mkFwRun (Fail e) (fw_final r) (fw_trace r)
    end.

Definition fw_exit {A} (e : error) : F A := fun s => mkFwRun (Fail e) s [].

(** A computation of the engine, run as it is. *)
Definition lift {A} (m : M World A) : F A :=
  fun s =>
    let r := m s in
    mkFwRun (value r) (final r) (map Engine (trace r)).

(** [print(f"--- Deleting firewallrules.{name} from nics.{nic_name} of
    server.{server_name}.")] *)
Definition print_deleting (name nic_name server_name : string) : F unit :=
  fun s => mkFwRun (Ok tt) s [DeletingRule name nic_name server_name].

Declare Scope deletion_scope.
Local Notation "x <- m ;; k" := (fw_bind m (fun x => k))
  (at level 61, m at next level, right associativity) : deletion_scope.
Local Notation "m ;; k" := (fw_bind m (fun _ => k))
  (at level 61, right associativity) : deletion_scope.
Local Open Scope deletion_scope.

(** [for item in fw_rules["items"]: ...] *)
Fixpoint fwrules_delete_items (server_name nic_name name : string)
  (items : list string) : F unit :=
  match items with
  | [] => fw_ret tt
  | item :: items' =>
      fw_rule <- lift (requests_get remote item) ;;
      (if String.eqb (r_name fw_rule) name
       then print_deleting name nic_name server_name ;;
            lift (requests_delete remote item)
       else fw_ret tt) ;;
      fwrules_delete_items server_name nic_name name items'
  end.

Definition fwrules_delete_single (api_url server_name nic_name name : string)
  : F unit :=
  found <- lift (server_exists remote server_name api_url) ;;
  if negb found then fw_exit NotFound else
  server_href <- lift (name_to_href remote server_name api_url) ;;
  let nic_href := (server_href ++ "/nics")%string in
  nic <- lift (name_to_href remote nic_name nic_href) ;;
  let fw_href := (nic ++ "/firewallrules")%string in
  fw_rules <- lift (requests_get remote fw_href) ;;
  fwrules_delete_items server_name nic_name name (r_items fw_rules) ;;
  server_href <- lift (name_to_href remote server_name api_url) ;;
  lift (all_available remote [server_href]).

(** [for firewallrule in nic["firewallrules"]: fwrules_delete_single(...)] *)
Fixpoint fwrule_delete_each (api_url server_name nic_name : string)
  (rules : list rule) : F unit :=
  match rules with
  | [] => fw_ret tt
  | firewallrule :: rules' =>
      fwrules_delete_single api_url server_name nic_name
                            (rule_name firewallrule) ;;
      fwrule_delete_each api_url server_name nic_name rules'
  end.

(** [for nic in nics: for firewallrule in nic["firewallrules"]: ...];
    [nic["firewallrules"]] of a NIC without that key raises [KeyError]. *)
Fixpoint fwrule_delete_all (api_url server_name : string)
  (nics : list component) : F unit :=
  match nics with
  | [] => fw_ret tt
  | nic :: nics' =>
      match firewallrules nic with
      | Some rules => fwrule_delete_each api_url server_name (c_name nic) rules
      | None => fw_exit KeyError
      end ;;
      fwrule_delete_all api_url server_name nics'
  end.

Definition fwrule_delete (api_url server_name : string) : F unit :=
  json_file <- lift (json_files_get (server_name ++ ".json")%string) ;;
  let nics := nics json_file ++ entities_nics (server json_file) in
  fwrule_delete_all api_url server_name nics.

(** Every event of every run satisfies [P]. *)
Definition fw_emits {A} (P : fw_event -> Prop) (m : F A) : Prop :=
  forall s, Forall P (fw_trace (m s)).

End FirewallDeletion.

Arguments fw_run World A : clear implicits.
Arguments F World A : clear implicits.

(** An announcement, or an event of the engine that is neither a POST nor a
    PATCH. *)
Definition fw_no_post_no_patch (e : fw_event) : Prop :=
  match e with
  | Engine e => no_post_no_patch e
  | DeletingRule _ _ _ => True
  end.

(** The same cloud with three firewall rules on the NIC "lan", two of them
    called "ssh". *)
Definition cloud_with_rules : list (string * response) :=
  [ ("dc1/servers/s1/nics/n1/firewallrules",
     collection "dc1/servers/s1/nics/n1/firewallrules"
                ["fw/1"; "fw/2"; "fw/3"]);
    ("fw/1", resource "fw/1" "1" "ssh");
    ("fw/2", resource "fw/2" "2" "http");
    ("fw/3", resource "fw/3" "3" "ssh") ] ++ cloud.

(** web1.json with the NIC "lan" declared once, without the key
    "firewallrules". *)
Definition web1_lan_bare : json_file :=
  mkJsonFile
    (mkServer "web1" [("cores", "2")]
       [mkComponent (mkProperties "web1-boot" PwNull None []) None]
       [])
    []
    [mkComponent (plain "lan") None].

(** ** Where the rules are posted *)

(** The POST requests of a run: the URL and the body of each, in order. *)
Fixpoint posts (tr : list event) : list (string * body) :=
  match tr with
  | [] => []
  | EvPost url b :: tr' => (url, b) :: posts tr'
  | _ :: tr' => posts tr'
  end.

(** The same, each URL as a URL that was found. *)
Definition post_targets (tr : list event) : list (option string * body) :=
  map (fun p => (Some (fst p), snd p)) (posts tr).

(** The member of the collection [api_url] called [name], on a remote side
    that answers every GET by the document [doc url]: the href in the
    document of the first member whose document carries the name. *)
Definition resolve (doc : string -> response) (name api_url : string)
  : option string :=
  match find (fun item => String.eqb (r_name (doc item)) name)
             (r_items (doc api_url)) with
  | Some item => Some (r_href (doc item))
  | None => None
  end.

(** The collection of the firewall rules of the NIC [nic_name] of the server
    [server_name] listed under [URL_SERVERS]:
    <server>/nics -> <nic>/firewallrules. *)
Definition rules_url (doc : string -> response)
  (URL_SERVERS server_name nic_name : string) : option string :=
  match resolve doc server_name URL_SERVERS with
  | Some server_href =>
      match resolve doc nic_name (server_href ++ "/nics")%string with
      | Some nic => Some (nic ++ "/firewallrules")%string
      | None => None
      end
  | None => None
  end.

(** The same, from the name of the datacenter. *)
Definition firewallrules_url (doc : string -> response)
  (DATACENTER server_name nic_name : string) : option string :=
  match resolve doc DATACENTER URL_DATACENTERS with
  | Some dc_href =>
      rules_url doc (dc_href ++ "/servers")%string server_name nic_name
  | None => None
  end.

(** * Properties *)

Section MonadFacts.

Context {World : Type}.
Variable remote : Remote World.

Local Abbreviation M := (M World).

Lemma bind_run {A B} (m : M A) (f : A -> M B) (s : state World) :
  bind m f s =
  match value (m s) with
  | Ok a => mkRun (value (f a (final (m s)))) (final (f a (final (m s))))
                  (trace (m s) ++ trace (f a (final (m s))))
  | Fail e => mkRun (Fail e) (final (m s)) (trace (m s))
  end.
Proof. reflexivity. Qed.

Lemma trace_bind {A B} (m : M A) (f : A -> M B) (s : state World) :
  trace (bind m f s) =
  trace (m s) ++ match value (m s) with
                 | Ok a => trace (f a (final (m s)))
                 | Fail _ => []
                 end.
Proof.
  rewrite bind_run. destruct (value (m s)); cbn [trace];
    rewrite ?app_nil_r; reflexivity.
Qed.

Lemma value_bind {A B} (m : M A) (f : A -> M B) (s : state World) :
  value (bind m f s) =
  match value (m s) with
  | Ok a => value (f a (final (m s)))
  | Fail e => Fail e
  end.
Proof. rewrite bind_run. destruct (value (m s)); reflexivity. Qed.

Lemma final_bind {A B} (m : M A) (f : A -> M B) (s : state World) :
  final (bind m f s) =
  match value (m s) with
  | Ok a => final (f a (final (m s)))
  | Fail e => final (m s)
  end.
Proof. rewrite bind_run. destruct (value (m s)); reflexivity. Qed.

Lemma json_files_get_run key (s : state World) jf :
  lookup key (json_files s) = Some jf ->
  json_files_get key s = mkRun (Ok jf) s [].
Proof. unfold json_files_get. now intros ->. Qed.

Lemma json_files_get_missing key (s : state World) :
  lookup key (json_files s) = None ->
  json_files_get key s = mkRun (Fail KeyError) s [].
Proof. unfold json_files_get. now intros ->. Qed.

Lemma requests_get_value url (s : state World) :
  exists r, value (requests_get remote url s) = Ok r.
Proof. unfold requests_get. simpl. eauto. Qed.

Lemma requests_get_trace url (s : state World) :
  trace (requests_get remote url s) = [EvGet url].
Proof. reflexivity. Qed.

(** *** The polling loop *)

Lemma poll_cons h hrefs (s : state World) :
  poll remote (h :: hrefs) s =
  let g := requests_get remote h s in
  match value g with
  | Ok r =>
      if String.eqb (status_of r) "AVAILABLE"
      then let p := poll remote hrefs (final g) in
           mkRun (value p) (final p) (EvGet h :: trace p)
      else mkRun (Ok false) (final g) [EvGet h]
  | Fail e => mkRun (Fail e) (final g) [EvGet h]
  end.
Proof.
  cbn [poll]. rewrite bind_run. cbv zeta. cbn [value requests_get].
  destruct (String.eqb _ "AVAILABLE"); reflexivity.
Qed.

Lemma poll_value hrefs : forall s : state World,
  exists b, value (poll remote hrefs s) = Ok b.
Proof.
  induction hrefs as [|h hrefs IH]; intros s.
  - simpl. eauto.
  - rewrite poll_cons. cbv zeta. cbn [value requests_get].
    destruct (String.eqb _ "AVAILABLE"); cbn [value]; [apply IH | eauto].
Qed.

Lemma poll_true_trace hrefs : forall s : state World,
  value (poll remote hrefs s) = Ok true ->
  trace (poll remote hrefs s) = map EvGet hrefs.
Proof.
  induction hrefs as [|h hrefs IH]; intros s.
  - reflexivity.
  - rewrite poll_cons. cbv zeta. cbn [value requests_get].
    destruct (String.eqb _ "AVAILABLE"); cbn [value trace].
    + intros H. now rewrite (IH _ H).
    + discriminate.
Qed.

Lemma poll_trace_gets hrefs : forall s : state World,
  exists l, trace (poll remote hrefs s) = map EvGet l /\
            (hrefs <> [] -> l <> []).
Proof.
  induction hrefs as [|h hrefs IH]; intros s.
  - exists []. split; [reflexivity | congruence].
  - rewrite poll_cons. cbv zeta. cbn [value requests_get].
    destruct (String.eqb _ "AVAILABLE"); cbn [trace].
    + destruct (IH (final (requests_get remote h s))) as [l [Hl _]].
      exists (h :: l). rewrite Hl.
      split; [reflexivity | discriminate].
    + exists [h]. split; [reflexivity | discriminate].
Qed.

Lemma polling_round_run hrefs (s : state World) :
  polling_round remote hrefs s =
  let r := poll remote hrefs
             (with_world (time_passes remote 5 (world s)) s) in
  mkRun (value r) (final r)
        (EvPrint MsgServerBusy :: EvSleep 5 :: trace r).
Proof. reflexivity. Qed.

Lemma polling_round_value hrefs (s : state World) :
  exists b, value (polling_round remote hrefs s) = Ok b.
Proof. rewrite polling_round_run. simpl. apply poll_value. Qed.

Lemma all_available_from_S limit hrefs (s : state World) :
  all_available_from remote (S limit) hrefs s =
  let r := polling_round remote hrefs s in
  match value r with
  | Ok true => mkRun (Ok tt) (final r) (trace r ++ [])
  | Ok false =>
      let r' := all_available_from remote limit hrefs (final r) in
      mkRun (value r') (final r') (trace r ++ trace r')
  | Fail e => mkRun (Fail e) (final r) (trace r)
  end.
Proof.
  cbn [all_available_from]. rewrite bind_run. cbv zeta.
  destruct (value (polling_round remote hrefs s)) as [[|]|]; reflexivity.
Qed.

Lemma round_ok_0 hrefs (s : state World) b :
  value (polling_round remote hrefs s) = Ok b -> round_ok remote 0 hrefs s = b.
Proof. unfold round_ok. simpl. now intros ->. Qed.

Lemma round_ok_S k hrefs (s : state World) :
  round_ok remote (S k) hrefs s =
  round_ok remote k hrefs (final (polling_round remote hrefs s)).
Proof. reflexivity. Qed.

Lemma count_sleeps_app tr1 tr2 :
  count_sleeps (tr1 ++ tr2) = count_sleeps tr1 + count_sleeps tr2.
Proof. unfold count_sleeps. now rewrite filter_app, length_app. Qed.

Lemma count_sleeps_gets l : count_sleeps (map EvGet l) = 0.
Proof. induction l; simpl; auto. Qed.

Lemma polling_round_sleeps hrefs (s : state World) :
  count_sleeps (trace (polling_round remote hrefs s)) = 1.
Proof.
  rewrite polling_round_run. simpl.
  destruct (poll_trace_gets hrefs
              (with_world (time_passes remote 5 (world s)) s)) as [l [Hl _]].
  rewrite Hl. unfold count_sleeps. simpl. f_equal. apply count_sleeps_gets.
Qed.

(** The loop started with [limit] attempts left: it times out exactly when
    all [limit] rounds fail, after [limit] sleeps; otherwise it returns in the
    first round [k] that succeeds, after [k + 1] sleeps. *)
Lemma all_available_from_outcome hrefs : forall limit (s : state World),
  let r := all_available_from remote limit hrefs s in
  (value r = Fail Timeout /\
   (forall k, k < limit -> round_ok remote k hrefs s = false) /\
   count_sleeps (trace r) = limit)
  \/
  (value r = Ok tt /\
   exists k, k < limit /\ round_ok remote k hrefs s = true /\
             (forall j, j < k -> round_ok remote j hrefs s = false) /\
             count_sleeps (trace r) = S k).
Proof.
  induction limit as [|limit IH]; intros s.
  - left. simpl. repeat split. intros k Hk. lia.
  - cbv zeta. rewrite all_available_from_S. cbv zeta.
    destruct (polling_round_value hrefs s) as [b Hb]. rewrite Hb.
    pose proof (polling_round_sleeps hrefs s) as Hs.
    destruct b; cbn [value trace final].
    + right. split; [reflexivity|]. exists 0.
      repeat split; try lia.
      * now apply round_ok_0.
      * rewrite count_sleeps_app, Hs. reflexivity.
    + specialize (IH (final (polling_round remote hrefs s))). cbv zeta in IH.
      destruct IH as [[Hv [Hall Hc]] | [Hv [k [Hk [Hok [Hbefore Hc]]]]]].
      * left. split; [assumption|]. split.
        -- intros [|k] Hk; [now apply round_ok_0|].
           rewrite round_ok_S. apply Hall. lia.
        -- rewrite count_sleeps_app, Hs, Hc. reflexivity.
      * right. split; [assumption|]. exists (S k).
        repeat split; try lia.
        -- now rewrite round_ok_S.
        -- intros [|j] Hj; [now apply round_ok_0|].
           rewrite round_ok_S. apply Hbefore. lia.
        -- rewrite count_sleeps_app, Hs, Hc. reflexivity.
Qed.

Lemma poll_rounds_from_gets b l tr :
  l <> [] ->
  poll_rounds_from b (map EvGet l ++ tr) =
  (if b then 0 else 1) + poll_rounds_from true tr.
Proof.
  revert b. induction l as [|h l IH]; intros b Hl; [congruence|].
  destruct l as [|h' l].
  - reflexivity.
  - change (map EvGet (h :: h' :: l) ++ tr)
      with (EvGet h :: (map EvGet (h' :: l) ++ tr)).
    cbn [poll_rounds_from]. rewrite IH by discriminate. reflexivity.
Qed.

Lemma all_available_from_head limit hrefs (s : state World) :
  exists m tr,
    trace (all_available_from remote limit hrefs s) = EvPrint m :: tr.
Proof.
  destruct limit as [|limit].
  - simpl. eauto.
  - rewrite all_available_from_S. cbv zeta. rewrite polling_round_run.
    cbv zeta. cbn [value trace final].
    destruct (value (poll remote hrefs _)) as [[|]|]; cbn [trace];
      eexists; eexists; reflexivity.
Qed.

(** With a non-empty set every round fetches at least one state, so there are
    as many polling rounds as sleeps. *)
Lemma all_available_from_rounds hrefs : hrefs <> [] ->
  forall limit (s : state World),
    poll_rounds (trace (all_available_from remote limit hrefs s)) =
    count_sleeps (trace (all_available_from remote limit hrefs s)).
Proof.
  intros Hne. induction limit as [|limit IH]; intros s.
  - reflexivity.
  - rewrite all_available_from_S. cbv zeta.
    pose proof (polling_round_sleeps hrefs s) as Hs.
    assert (Hp : forall tr, (tr = [] \/ exists m tr', tr = EvPrint m :: tr') ->
              poll_rounds (trace (polling_round remote hrefs s) ++ tr) =
              1 + poll_rounds tr).
    { intros tr Htr. rewrite polling_round_run. cbv zeta. cbn [trace].
      destruct (poll_trace_gets hrefs
                  (with_world (time_passes remote 5 (world s)) s))
        as [l [Hl Hnl]].
      rewrite Hl. unfold poll_rounds. cbn [app poll_rounds_from].
      rewrite poll_rounds_from_gets by auto.
      destruct Htr as [-> | [m [tr' ->]]]; reflexivity. }
    destruct (value (polling_round remote hrefs s)) as [[|]|]; cbn [trace].
    + rewrite Hp by auto. rewrite count_sleeps_app, Hs. reflexivity.
    + rewrite Hp by (right; apply all_available_from_head).
      rewrite count_sleeps_app, Hs, IH. reflexivity.
    + destruct (polling_round_value hrefs s) as [b Hb].
      rewrite <- (app_nil_r (trace (polling_round remote hrefs s))).
      rewrite Hp by auto. rewrite count_sleeps_app, Hs. reflexivity.
Qed.

Lemma round_fails_nonempty k hrefs (s : state World) :
  round_ok remote k hrefs s = false -> hrefs <> [].
Proof. intros H ->. discriminate H. Qed.

Lemma poll_asked hrefs : forall s : state World,
  value (poll remote hrefs s) = Ok (fst (asked remote hrefs (world s))) /\
  world (final (poll remote hrefs s)) = snd (asked remote hrefs (world s)).
Proof.
  induction hrefs as [|h hrefs IH]; intros s.
  - split; reflexivity.
  - rewrite poll_cons. cbv zeta. cbn [value requests_get final asked].
    unfold status_of, reports_available.
    destruct (r_state (fst (http_get remote h (world s)))) as [st|].
    + destruct (String.eqb st "AVAILABLE"); cbn [value final].
      * apply (IH (with_world (snd (http_get remote h (world s))) s)).
      * split; reflexivity.
    + split; reflexivity.
Qed.

Lemma before_round_world k hrefs : forall s : state World,
  time_passes remote 5 (world (before_round remote k hrefs s)) =
  world_of_round remote k hrefs (world s).
Proof.
  induction k as [|k IH]; intros s; cbn [before_round world_of_round].
  - reflexivity.
  - rewrite IH. rewrite polling_round_run. cbv zeta. cbn [final].
    now rewrite (proj2 (poll_asked hrefs _)).
Qed.

(** The verdict of the code on round [k] is what the members report in it. *)
Lemma round_ok_reports k hrefs (s : state World) :
  round_ok remote k hrefs s = all_report_available remote k hrefs (world s).
Proof.
  unfold round_ok, all_report_available. rewrite polling_round_run.
  cbv zeta. cbn [value]. rewrite (proj1 (poll_asked hrefs _)).
  cbn [world with_world]. now rewrite before_round_world.
Qed.

Lemma asked_stateless doc hrefs :
  stateless remote doc ->
  forall w, fst (asked remote hrefs w) =
            forallb (fun h => reports_available (doc h)) hrefs.
Proof.
  intros Hdoc. induction hrefs as [|h hrefs IH]; intros w;
    cbn [asked forallb]; [reflexivity|].
  rewrite Hdoc. destruct (reports_available (doc h)); [apply IH | reflexivity].
Qed.

Lemma some_member_not_available (doc : string -> response) hrefs :
  forallb (fun h => reports_available (doc h)) hrefs = false <->
  exists h, In h hrefs /\ r_state (doc h) <> Some "AVAILABLE".
Proof.
  split.
  - intros Hf. induction hrefs as [|h hrefs' IH]; [discriminate|].
    cbn [forallb] in Hf. destruct (reports_available (doc h)) eqn:E.
    + destruct (IH Hf) as [h' [Hin Hne]]. exists h'. split; [now right|].
      exact Hne.
    + exists h. split; [now left|]. unfold reports_available in E.
      intros Hst. rewrite Hst in E. discriminate.
  - intros [h [Hin Hne]]. destruct (forallb _ hrefs) eqn:E; [|reflexivity].
    exfalso. apply Hne. rewrite forallb_forall in E. specialize (E h Hin).
    unfold reports_available in E.
    destruct (r_state (doc h)) as [st|]; [|discriminate].
    apply String.eqb_eq in E. now subst st.
Qed.

(** C2. [all_available] ends in [Timeout] exactly when in each of its 120
    rounds some member of the set did not report available (no state, or a
    state other than "AVAILABLE", in the document the remote side returned
    for it in that round), and then it has slept 120 times, never fewer; it
    has no other failure; it always performs a first round, and when every
    member reports available in that round it returns after this one sleep
    and one state fetch per href.  Against a remote side that answers by
    fixed documents this is: [Timeout] exactly when the document of some
    member does not report available. *)
Theorem all_available_timeout_after_120_rounds
  (hrefs : list string) (s : state World) :
  let r := all_available remote hrefs s in
  (value r = Fail Timeout <->
   (forall k, k < 120 ->
      all_report_available remote k hrefs (world s) = false))
  /\ (value r = Fail Timeout -> count_sleeps (trace r) = 120)
  /\ (value r = Ok tt \/ value r = Fail Timeout)
  /\ 1 <= count_sleeps (trace r) <= 120
  /\ (all_report_available remote 0 hrefs (world s) = true ->
      value r = Ok tt /\
      trace r = EvPrint MsgServerBusy :: EvSleep 5 :: map EvGet hrefs)
  /\ (forall doc, stateless remote doc ->
      (value r = Fail Timeout <->
       exists h, In h hrefs /\ r_state (doc h) <> Some "AVAILABLE")).
Proof.
  cbv zeta. unfold all_available.
  assert (Hfirst : round_ok remote 0 hrefs s = true ->
            value (all_available_from remote 120 hrefs s) = Ok tt /\
            trace (all_available_from remote 120 hrefs s) =
            EvPrint MsgServerBusy :: EvSleep 5 :: map EvGet hrefs).
  { intros H0. change 120 with (S 119).
    rewrite all_available_from_S. cbv zeta.
    destruct (polling_round_value hrefs s) as [b Hb].
    rewrite (round_ok_0 _ _ Hb) in H0. subst b. rewrite Hb. cbn [value trace].
    split; [reflexivity|].
    rewrite polling_round_run in *. cbv zeta in *. cbn [value trace] in *.
    rewrite (poll_true_trace _ _ Hb). now rewrite app_nil_r. }
  rewrite round_ok_reports in Hfirst.
  assert (Hiff : value (all_available_from remote 120 hrefs s) = Fail Timeout
                 <-> (forall k, k < 120 ->
                        all_report_available remote k hrefs (world s) = false)).
  { destruct (all_available_from_outcome hrefs 120 s)
      as [[Hv [Hall Hc]] | [Hv [k [Hk [Hok [Hbefore Hc]]]]]].
    - split; [|auto]. intros _ k Hk. rewrite <- round_ok_reports. now apply Hall.
    - split.
      + intros Ht. rewrite Hv in Ht. discriminate.
      + intros Hall. rewrite round_ok_reports, Hall in Hok by lia.
        discriminate. }
  assert (Hfixed : forall doc, stateless remote doc ->
            (value (all_available_from remote 120 hrefs s) = Fail Timeout <->
             exists h, In h hrefs /\ r_state (doc h) <> Some "AVAILABLE")).
  { intros doc Hdoc. rewrite Hiff.
    assert (Hone : forall k,
              all_report_available remote k hrefs (world s) =
              forallb (fun h => reports_available (doc h)) hrefs).
    { intros k. unfold all_report_available. now apply asked_stateless. }
    pose proof (some_member_not_available doc hrefs) as Hmember.
    rewrite <- Hmember. split.
    - intros Hall. rewrite <- (Hone 0). apply Hall. lia.
    - intros Hf k _. now rewrite Hone. }
  destruct (all_available_from_outcome hrefs 120 s)
    as [[Hv [Hall Hc]] | [Hv [k [Hk [Hok [Hbefore Hc]]]]]].
  - split; [exact Hiff|]. split; [auto|]. split; [auto|]. split; [lia|].
    split; [exact Hfirst | exact Hfixed].
  - split; [exact Hiff|]. split.
    + intros Ht. rewrite Hv in Ht. discriminate.
    + split; [auto|]. split; [lia|]. split; [exact Hfirst | exact Hfixed].
Qed.

(** C3 (amended). When the set is found busy in the first and the second
    round and AVAILABLE in the third, [all_available] returns after exactly
    three polling rounds and exactly three sleeps: each round starts with its
    own sleep. *)
Theorem all_available_busy_busy_available
  (hrefs : list string) (s : state World) :
  round_ok remote 0 hrefs s = false ->
  round_ok remote 1 hrefs s = false ->
  round_ok remote 2 hrefs s = true ->
  let r := all_available remote hrefs s in
  value r = Ok tt /\ poll_rounds (trace r) = 3 /\ count_sleeps (trace r) = 3.
Proof.
  intros H0 H1 H2. cbv zeta. unfold all_available.
  rewrite (all_available_from_rounds (@round_fails_nonempty 0 hrefs s H0)).
  destruct (all_available_from_outcome hrefs 120 s)
    as [[Hv [Hall Hc]] | [Hv [k [Hk [Hok [Hbefore Hc]]]]]].
  - rewrite Hall in H2 by lia. discriminate.
  - assert (k = 2).
    { destruct k as [|[|[|k]]]; try congruence.
      rewrite Hbefore in H2 by lia. discriminate. }
    subst k. auto.
Qed.

End MonadFacts.

(** C3, as stated, fails: against a remote side that reports BUSY, BUSY,
    AVAILABLE the call returns after three polling rounds, but it has slept
    three times, not two. *)
Lemma all_available_not_two_sleeps :
  let remote := scripted busy_busy_available no_reply in
  let r := all_available remote ["server-1"] empty_state in
  round_ok remote 0 ["server-1"] empty_state = false /\
  round_ok remote 1 ["server-1"] empty_state = false /\
  round_ok remote 2 ["server-1"] empty_state = true /\
  ~ (value r = Ok tt /\ poll_rounds (trace r) = 3 /\ count_sleeps (trace r) = 2).
Proof.
  cbv zeta. repeat split; try (vm_compute; reflexivity).
  intros [_ [_ H]]. vm_compute in H. discriminate.
Qed.

Lemma all_available_busy_busy_available_witness :
  let remote := scripted busy_busy_available no_reply in
  let r := all_available remote ["server-1"] empty_state in
  value r = Ok tt /\ poll_rounds (trace r) = 3 /\ count_sleeps (trace r) = 3.
Proof.
  apply (all_available_busy_busy_available
           (scripted busy_busy_available no_reply) ["server-1"] empty_state);
    vm_compute; reflexivity.
Defined.

Lemma all_available_timeout_after_120_rounds_witness :
  value (all_available (scripted materializing no_reply)
                       ["dc1/servers/s1"] empty_state) = Fail Timeout /\
  value (all_available (static cloud) ["dc1/servers/s1"] (start [])) = Ok tt.
Proof.
  split.
  - destruct (@all_available_timeout_after_120_rounds
                nat (scripted materializing no_reply)
                ["dc1/servers/s1"] empty_state)
      as [_ [_ [_ [_ [_ Hfixed]]]]].
    assert (Hdoc : stateless (scripted materializing no_reply)
                             (materializing 0))
      by (intros url w; reflexivity).
    apply (proj2 (Hfixed (materializing 0) Hdoc)).
    exists "dc1/servers/s1". split; [now left | discriminate].
  - destruct (@all_available_timeout_after_120_rounds
                nat (static cloud) ["dc1/servers/s1"] (start []))
      as [_ [_ [_ [_ [Hfirst _]]]]].
    apply Hfirst. vm_compute. reflexivity.
Defined.

(** ** Reading and reporting steps *)

Section ReadOnly.

Context {World : Type}.
Variable remote : Remote World.

Local Abbreviation M := (M World).

Lemma emits_weaken {A} (P Q : event -> Prop) (m : M A) :
  (forall e, P e -> Q e) -> emits P m -> emits Q m.
Proof. intros HPQ Hm s. eapply Forall_impl; [exact HPQ | apply Hm]. Qed.

Lemma emits_ret {A} P (a : A) : emits P (ret a : M A).
Proof. intros s. constructor. Qed.

Lemma emits_exit {A} P e : emits P (exit e : M A).
Proof. intros s. constructor. Qed.

Lemma emits_bind {A B} P (m : M A) (f : A -> M B) :
  emits P m -> (forall a, emits P (f a)) -> emits P (bind m f).
Proof.
  intros Hm Hf s. rewrite bind_run.
  destruct (value (m s)) as [a|e]; cbn [trace]; [|apply Hm].
  apply Forall_app. split; [apply Hm | apply Hf].
Qed.

Lemma emits_emit (P : event -> Prop) e : P e -> emits P (emit e : M unit).
Proof. intros H s. repeat constructor. exact H. Qed.

Lemma emits_print (P : event -> Prop) m :
  P (EvPrint m) -> emits P (print m : M unit).
Proof. apply emits_emit. Qed.

Lemma emits_get (P : event -> Prop) url :
  P (EvGet url) -> emits P (requests_get remote url).
Proof. intros H s. repeat constructor. exact H. Qed.

Lemma emits_post (P : event -> Prop) url b :
  P (EvPost url b) -> emits P (requests_post remote url b).
Proof. intros H s. repeat constructor. exact H. Qed.

Lemma emits_patch (P : event -> Prop) url b :
  P (EvPatch url b) -> emits P (requests_patch remote url b).
Proof. intros H s. repeat constructor. exact H. Qed.

Lemma emits_delete (P : event -> Prop) url :
  P (EvDelete url) -> emits P (requests_delete remote url).
Proof. intros H s. repeat constructor. exact H. Qed.

Lemma emits_sleep (P : event -> Prop) n :
  P (EvSleep n) -> emits P (time_sleep remote n).
Proof. intros H s. repeat constructor. exact H. Qed.

Lemma emits_json_files_get P key : emits P (json_files_get key : M json_file).
Proof.
  intros s. unfold json_files_get.
  destruct (lookup key (json_files s)); constructor.
Qed.

Lemma emits_json_files_assign P key type idx f :
  emits P (json_files_assign key type idx f : M unit).
Proof. intros s. constructor. Qed.

Lemma emits_random_password P : emits P (random_password : M string).
Proof. intros s. constructor. Qed.

Lemma emits_json_files_item P key type idx :
  emits P (json_files_item key type idx : M component).
Proof.
  apply emits_bind; [apply emits_json_files_get|]. intros jf.
  destruct (nth_error (standalone type jf) idx);
    [apply emits_ret | apply emits_exit].
Qed.

Lemma keeps_ret {A} (a : A) : keeps (ret a : M A).
Proof. intros s. reflexivity. Qed.

Lemma keeps_exit {A} e : keeps (exit e : M A).
Proof. intros s. reflexivity. Qed.

Lemma keeps_bind {A B} (m : M A) (f : A -> M B) :
  keeps m -> (forall a, keeps (f a)) -> keeps (bind m f).
Proof.
  intros Hm Hf s. rewrite bind_run.
  destruct (value (m s)) as [a|e]; cbn [final]; [|apply Hm].
  rewrite Hf. apply Hm.
Qed.

Lemma keeps_print m : keeps (print m : M unit).
Proof. intros s. reflexivity. Qed.

Lemma keeps_get url : keeps (requests_get remote url).
Proof. intros s. reflexivity. Qed.

Lemma keeps_post url b : keeps (requests_post remote url b).
Proof. intros s. reflexivity. Qed.

Lemma keeps_patch url b : keeps (requests_patch remote url b).
Proof. intros s. reflexivity. Qed.

Lemma keeps_delete url : keeps (requests_delete remote url).
Proof. intros s. reflexivity. Qed.

Lemma keeps_sleep n : keeps (time_sleep remote n).
Proof. intros s. reflexivity. Qed.

Lemma keeps_json_files_get key : keeps (json_files_get key : M json_file).
Proof.
  intros s. unfold json_files_get.
  destruct (lookup key (json_files s)); reflexivity.
Qed.

Lemma keeps_random_password : keeps (random_password : M string).
Proof. intros s. reflexivity. Qed.

(** *** name_to_href, server_exists and all_available only read and report *)

Lemma name_to_href_items_harmless name items :
  emits harmless (name_to_href_items remote name items).
Proof.
  induction items as [|item items IH]; cbn [name_to_href_items].
  - apply emits_bind; [now apply emits_print | intros; apply emits_exit].
  - apply emits_bind; [now apply emits_get|]. intros r.
    destruct (String.eqb (r_name r) name); [apply emits_ret | exact IH].
Qed.

Lemma name_to_href_harmless name api_url :
  emits harmless (name_to_href remote name api_url).
Proof.
  apply emits_bind; [now apply emits_get|]. intros l.
  apply name_to_href_items_harmless.
Qed.

Lemma server_exists_items_harmless server_name items :
  emits harmless (server_exists_items remote server_name items).
Proof.
  induction items as [|item items IH]; cbn [server_exists_items].
  - apply emits_bind; [now apply emits_print | intros; apply emits_ret].
  - apply emits_bind; [now apply emits_get|]. intros r.
    destruct (String.eqb (r_name r) server_name); [|exact IH].
    apply emits_bind; [now apply emits_print | intros; apply emits_ret].
Qed.

Lemma server_exists_harmless server_name api_url :
  emits harmless (server_exists remote server_name api_url).
Proof.
  apply emits_bind; [now apply emits_get|]. intros l.
  apply server_exists_items_harmless.
Qed.

Lemma poll_harmless hrefs : emits harmless (poll remote hrefs).
Proof.
  induction hrefs as [|h hrefs IH]; cbn [poll].
  - apply emits_ret.
  - apply emits_bind; [now apply emits_get|]. intros r.
    destruct (String.eqb (status_of r) "AVAILABLE"); [exact IH | apply emits_ret].
Qed.

Lemma all_available_from_harmless hrefs limit :
  emits harmless (all_available_from remote limit hrefs).
Proof.
  induction limit as [|limit IH]; cbn [all_available_from].
  - apply emits_bind; [now apply emits_print | intros; apply emits_exit].
  - apply emits_bind.
    + apply emits_bind; [now apply emits_print | intros _].
      apply emits_bind; [now apply emits_sleep | intros _].
      apply poll_harmless.
    + intros [|]; [apply emits_ret | exact IH].
Qed.

Lemma all_available_harmless hrefs :
  emits harmless (all_available remote hrefs).
Proof. apply all_available_from_harmless. Qed.

Lemma name_to_href_keeps name api_url :
  keeps (name_to_href remote name api_url).
Proof.
  apply keeps_bind; [apply keeps_get|]. intros l.
  induction (r_items l) as [|item items IH]; cbn [name_to_href_items].
  - apply keeps_bind; [apply keeps_print | intros; apply keeps_exit].
  - apply keeps_bind; [apply keeps_get|]. intros r.
    destruct (String.eqb (r_name r) name); [apply keeps_ret | exact IH].
Qed.

Lemma server_exists_keeps server_name api_url :
  keeps (server_exists remote server_name api_url).
Proof.
  apply keeps_bind; [apply keeps_get|]. intros l.
  induction (r_items l) as [|item items IH]; cbn [server_exists_items].
  - apply keeps_bind; [apply keeps_print | intros; apply keeps_ret].
  - apply keeps_bind; [apply keeps_get|]. intros r.
    destruct (String.eqb (r_name r) server_name); [|exact IH].
    apply keeps_bind; [apply keeps_print | intros; apply keeps_ret].
Qed.

Lemma poll_keeps hrefs : keeps (poll remote hrefs).
Proof.
  induction hrefs as [|h hrefs IH]; cbn [poll].
  - apply keeps_ret.
  - apply keeps_bind; [apply keeps_get|]. intros r.
    destruct (String.eqb (status_of r) "AVAILABLE");
      [exact IH | apply keeps_ret].
Qed.

Lemma all_available_keeps hrefs : keeps (all_available remote hrefs).
Proof.
  unfold all_available. generalize 120. intros limit.
  induction limit as [|limit IH]; cbn [all_available_from].
  - apply keeps_bind; [apply keeps_print | intros; apply keeps_exit].
  - apply keeps_bind.
    + apply keeps_bind; [apply keeps_print | intros _].
      apply keeps_bind; [apply keeps_sleep | intros _].
      apply poll_keeps.
    + intros [|]; [apply keeps_ret | exact IH].
Qed.

Lemma harmless_not_mutating e : harmless e -> mutating e = false.
Proof. destruct e; simpl; tauto. Qed.

Lemma harmless_not_announcing e : harmless e -> announces_rule e = false.
Proof. destruct e as [| | | | |[]]; simpl; tauto. Qed.

(** C9. [create] for a server name that [server_exists] finds remotely stops
    with [AlreadyExists]; all it has done is the existence check, which only
    fetches and prints: no POST, PATCH or DELETE is issued, and [json_files]
    is untouched. *)
Theorem create_existing_server_issues_no_mutation
  (DATACENTER : string) (listdir : string -> list string)
  (user_data : string -> string -> string)
  (server_name api_url : string) (s : state World) :
  value (server_exists remote server_name api_url s) = Ok true ->
  let r := create remote DATACENTER listdir user_data server_name api_url s in
  value r = Fail AlreadyExists /\
  trace r = trace (server_exists remote server_name api_url s) /\
  Forall (fun e => mutating e = false) (trace r) /\
  json_files (final r) = json_files s.
Proof.
  intros Hex. cbv zeta. unfold create. rewrite bind_run, Hex.
  cbn [value trace final exit]. rewrite app_nil_r.
  split; [reflexivity|]. split; [reflexivity|]. split.
  - eapply Forall_impl; [exact harmless_not_mutating|].
    apply server_exists_harmless.
  - apply server_exists_keeps.
Qed.

End ReadOnly.

Lemma create_existing_server_witness :
  let r := create (static cloud) "fra" (fun _ => []) (fun _ _ => "")
                  "web1" "dc1/servers" (start [("web1.json", web1 [ssh])]) in
  value r = Fail AlreadyExists /\
  trace r = trace (server_exists (static cloud) "web1" "dc1/servers"
                                 (start [("web1.json", web1 [ssh])])) /\
  Forall (fun e => mutating e = false) (trace r) /\
  json_files (final r) = [("web1.json", web1 [ssh])].
Proof.
  apply (create_existing_server_issues_no_mutation
           (static cloud) "fra" (fun _ => []) (fun _ _ => "")
           "web1" "dc1/servers" (start [("web1.json", web1 [ssh])])).
  vm_compute. reflexivity.
Defined.

(** ** The creation payload *)

Lemma posted_app tr1 tr2 : posted (tr1 ++ tr2) = posted tr1 ++ posted tr2.
Proof.
  induction tr1 as [|e tr1 IH]; [reflexivity|].
  destruct e; simpl; rewrite ?IH; reflexivity.
Qed.

Lemma posted_harmless tr : Forall harmless tr -> posted tr = [].
Proof.
  induction 1 as [|e tr He _ IH]; [reflexivity|].
  destruct e; simpl in *; tauto.
Qed.

Lemma deleted_app tr1 tr2 : deleted (tr1 ++ tr2) = deleted tr1 ++ deleted tr2.
Proof.
  induction tr1 as [|e tr1 IH]; [reflexivity|].
  destruct e; simpl; rewrite ?IH; reflexivity.
Qed.

Lemma deleted_harmless tr : Forall harmless tr -> deleted tr = [].
Proof.
  induction 1 as [|e tr He _ IH]; [reflexivity|].
  destruct e; simpl in *; tauto.
Qed.

Lemma draw_alphanumeric i : alphanumeric (draw i) = true.
Proof.
  unfold draw. assert (H : i mod 62 < 62) by (apply Nat.mod_upper_bound; lia).
  revert H. generalize (i mod 62). intros k Hk.
  do 62 (destruct k as [|k]; [reflexivity|]). lia.
Qed.

Lemma string_of_list_ascii_length l :
  String.length (string_of_list_ascii l) = length l.
Proof. induction l; simpl; congruence. Qed.

Section Payload.

Context {World : Type}.
Variable remote : Remote World.
Variable DATACENTER : string.
Variable listdir : string -> list string.
Variable user_data : string -> string -> string.

(** A generated password has 32 characters, all of them letters or digits. *)
Lemma random_password_alphanumeric (s : state World) :
  exists pw, value (random_password s) = Ok pw /\
             String.length pw = 32 /\
             Forall (fun c => alphanumeric c = true) (list_ascii_of_string pw).
Proof.
  eexists. split; [reflexivity|]. split.
  - rewrite string_of_list_ascii_length, length_map, length_seq. reflexivity.
  - rewrite list_ascii_of_string_of_list_ascii.
    apply Forall_forall. intros c Hc. apply in_map_iff in Hc.
    destruct Hc as [i [<- _]]. apply draw_alphanumeric.
Qed.

Lemma generate_passwords_silent items : forall s : state World,
  exists items', value (generate_passwords items s) = Ok items' /\
                 trace (generate_passwords items s) = [] /\
                 json_files (final (generate_passwords items s)) = json_files s
                 /\ world (final (generate_passwords items s)) = world s.
Proof.
  induction items as [|item items IH]; intros s; cbn [generate_passwords].
  - eexists. repeat split.
  - destruct (prop_imagePassword (c_properties item)).
    + eexists. repeat split.
    + rewrite bind_run. cbn [value random_password trace final]. rewrite bind_run.
      destruct (IH (mkState (world s) (json_files s) (fun i => rng s (32 + i))))
        as [items' [Hv [Ht [Hj Hw]]]].
      rewrite Hv, Ht. cbn [value trace final ret]. eexists. repeat split; auto.
    + rewrite bind_run.
      destruct (IH s) as [items' [Hv [Ht [Hj Hw]]]].
      rewrite Hv, Ht. cbn [value trace final ret]. eexists. repeat split; auto.
Qed.

(** What [create_single] posts: the server document with the firewall rules
    deleted from the NICs and the two volume loops applied. *)
Lemma create_single_posts server_name api_url (s : state World) jf vols :
  lookup (server_name ++ ".json") (json_files s) = Some jf ->
  value (generate_passwords (entities_volumes (server jf)) s) = Ok vols ->
  posted (trace (create_single remote DATACENTER listdir user_data
                               server_name api_url s)) =
  [BodyServer
     (mkServer (srv_name (server jf)) (srv_rest (server jf))
               (map (attach_user_data DATACENTER listdir user_data) vols)
               (map del_firewallrules (entities_nics (server jf))))].
Proof.
  intros Hjf Hvols. unfold create_single.
  destruct (generate_passwords_silent (entities_volumes (server jf)) s)
    as [vols' [_ [Ht _]]].
  rewrite trace_bind. cbn [value print emit trace final].
  rewrite trace_bind, (json_files_get_run _ _ Hjf). cbn [value trace final].
  rewrite trace_bind, Hvols, Ht. cbn [value trace final].
  rewrite trace_bind. cbn [value requests_post trace final].
  rewrite trace_bind. cbn [value print emit trace final].
  rewrite trace_bind.
  match goal with
  | |- context [all_available remote ?h ?st] =>
      pose proof (all_available_harmless remote h st) as Hq;
      destruct (value (all_available remote h st))
  end; cbn [trace ret app]; simpl posted;
    rewrite ?posted_app, (posted_harmless Hq); reflexivity.
Qed.

(** [create_single] works on a deep copy: [json_files] is left as it was. *)
Lemma create_single_keeps server_name api_url :
  keeps (create_single remote DATACENTER listdir user_data server_name api_url).
Proof.
  unfold create_single.
  apply keeps_bind; [apply keeps_print | intros _].
  apply keeps_bind; [apply keeps_json_files_get | intros jf].
  apply keeps_bind.
  { intros s.
    destruct (generate_passwords_silent (entities_volumes (server jf)) s)
      as [? [_ [_ [H _]]]]. exact H. }
  intros vols.
  apply keeps_bind; [apply keeps_post | intros res].
  apply keeps_bind; [apply keeps_print | intros _].
  apply keeps_bind; [apply all_available_keeps | intros _].
  apply keeps_ret.
Qed.

End Payload.

Section Passwords.

Context {World : Type}.
Variable remote : Remote World.
Variable DATACENTER : string.
Variable listdir : string -> list string.
Variable user_data : string -> string -> string.

(** When every embedded volume has the key, the loop treats each of them as
    it should. *)
Lemma generate_passwords_complete items : forall s : state World,
  Forall (fun item => prop_imagePassword (c_properties item) <> PwAbsent)
         items ->
  exists items', value (generate_passwords items s) = Ok items' /\
                 Forall2 password_filled items items'.
Proof.
  induction items as [|item items IH]; intros s Hall; cbn [generate_passwords].
  - eexists. split; [reflexivity | constructor].
  - inversion Hall as [|? ? Hitem Hitems]; subst.
    destruct (prop_imagePassword (c_properties item)) eqn:Hpw;
      [congruence | |].
    + rewrite value_bind.
      destruct (random_password_alphanumeric s) as [pw [Hv [Hlen Hchars]]].
      rewrite Hv. rewrite value_bind.
      destruct (IH (final (random_password s)) Hitems) as [items' [Hv' HF]].
      rewrite Hv'. eexists. split; [reflexivity|].
      constructor; [|exact HF]. unfold password_filled. rewrite Hpw. eauto.
    + rewrite value_bind.
      destruct (IH s Hitems) as [items' [Hv' HF]].
      rewrite Hv'. eexists. split; [reflexivity|].
      constructor; [|exact HF]. unfold password_filled. now rewrite Hpw.
Qed.

(** C6 (code at the failing input).  For db1.json, whose first embedded
    volume has no "imagePassword" key and whose second one has a null
    password, [create_single] posts the second volume with its password
    still null: the [KeyError] of the first volume ended the loop. *)
Theorem create_single_leaves_null_password
  (api_url : string) (w : World) (random : nat -> nat) :
  posted (trace (create_single remote DATACENTER listdir user_data
                   "db1" api_url (mkState w [("db1.json", db1)] random))) =
  [BodyServer
     (mkServer "db1" []
        [mkComponent (plain "db1-data") None;
         mkComponent (mkProperties "db1-logs" PwNull None []) None]
        [])].
Proof.
  erewrite create_single_posts; [|reflexivity|reflexivity].
  cbn [map db1 server srv_name srv_rest entities_nics].
  unfold attach_user_data. cbn [c_name c_properties prop_name plain].
  replace (contains "-boot" "db1-data") with false by reflexivity.
  replace (contains "-boot" "db1-logs") with false by reflexivity.
  rewrite !andb_false_r. reflexivity.
Qed.

End Passwords.

(** C4 (code at the failing input).  Attaching the volume "web1-boot", declared
    with a null password, to the server "web1": [attach_single] succeeds, and
    afterwards the entry of this volume in the shared [json_files] holds the
    generated password and the userData, where it held [null] and nothing
    before; the payload posted is that very entry. *)
Theorem attach_single_assigns_into_json_files :
  let s := start [("web1.json", web1_late_boot)] in
  let r := attach_single (static cloud) "fra"
             (fun _ => ["web1-boot.yaml"]) (fun _ _ => "I2Nsb3VkLWNvbmZpZwo=")
             "dc1/servers/s1" "web1" "web1-boot" Volumes s in
  let entry :=
    mkProperties "web1-boot" (PwValue "ABCDEFGHIJKLMNOPQRSTUVWXYZabcdef")
                 (Some "I2Nsb3VkLWNvbmZpZwo=") [] in
  value r = Ok tt /\
  json_files (final r) <> json_files s /\
  json_files (final r) =
  [("web1.json",
    mkJsonFile (server web1_late_boot)
      [mkComponent (mkProperties "web1-data" PwNull None []) None;
       mkComponent entry None]
      [])] /\
  posted (trace r) = [BodyProperties entry].
Proof.
  cbv zeta. split; [vm_compute; reflexivity|]. split.
  - intros H. vm_compute in H. discriminate H.
  - split; vm_compute; reflexivity.
Qed.

(** ** Guards of attach_single and detach_single *)

Ltac step := rewrite ?value_bind, ?trace_bind, ?final_bind; cbv beta zeta.

Section Components.

Context {World : Type}.
Variable remote : Remote World.
Variable DATACENTER : string.
Variable listdir : string -> list string.
Variable user_data : string -> string -> string.

Lemma name_to_href_items_value name items : forall s : state World,
  (exists href, value (name_to_href_items remote name items s) = Ok href) \/
  value (name_to_href_items remote name items s) = Fail NotFound.
Proof.
  induction items as [|item items IH]; intros s; cbn [name_to_href_items].
  - right. reflexivity.
  - step. cbn [value requests_get final].
    destruct (String.eqb _ name); [left; eexists; reflexivity | apply IH].
Qed.

Lemma name_to_href_value name api_url (s : state World) :
  (exists href, value (name_to_href remote name api_url s) = Ok href) \/
  value (name_to_href remote name api_url s) = Fail NotFound.
Proof.
  unfold name_to_href. step. cbn [value requests_get final].
  apply name_to_href_items_value.
Qed.

Lemma server_exists_items_value server_name items : forall s : state World,
  exists found, value (server_exists_items remote server_name items s) = Ok found.
Proof.
  induction items as [|item items IH]; intros s; cbn [server_exists_items].
  - eexists. reflexivity.
  - step. cbn [value requests_get final].
    destruct (String.eqb _ server_name); [eexists; reflexivity | apply IH].
Qed.

Lemma server_exists_value server_name api_url (s : state World) :
  exists found, value (server_exists remote server_name api_url s) = Ok found.
Proof.
  unfold server_exists. step. cbn [value requests_get final].
  apply server_exists_items_value.
Qed.

Lemma all_available_value hrefs (s : state World) :
  value (all_available remote hrefs s) = Ok tt \/
  value (all_available remote hrefs s) = Fail Timeout.
Proof.
  unfold all_available.
  destruct (all_available_from_outcome remote hrefs 120 s) as [[H _]|[H _]];
    auto.
Qed.

(** What [detach_single] does is decided by the remote guard and by the
    membership test on the declared names: it either issues its one DELETE,
    on the href it was given, or stops with [NotFound] before it. *)
Lemma detach_single_decided href server_name name type (s : state World) jf :
  lookup (server_name ++ ".json") (json_files s) = Some jf ->
  let r := detach_single remote DATACENTER href server_name name type s in
  if guard_passes remote DATACENTER server_name s
     && mem name (detachable type jf)
  then deleted (trace r) = [href]
  else value r = Fail NotFound /\ deleted (trace r) = [].
Proof.
  intros Hjf. cbv zeta. unfold detach_single, guard_passes.
  pose proof (name_to_href_harmless remote DATACENTER URL_DATACENTERS s) as Hq1.
  step.
  destruct (name_to_href_value DATACENTER URL_DATACENTERS s) as [[dc Hdc]|Hdc];
    rewrite Hdc; cbn [andb];
    [|split; [reflexivity|];
      now rewrite app_nil_r, (deleted_harmless Hq1)].
  set (s1 := final (name_to_href remote DATACENTER URL_DATACENTERS s)) in *.
  pose proof (server_exists_harmless remote server_name (dc ++ "/servers") s1)
    as Hq2.
  step.
  destruct (server_exists_value server_name (dc ++ "/servers") s1)
    as [found Hfound].
  rewrite Hfound. destruct found; cbn [negb andb];
    [|split; [reflexivity|]; cbn [trace exit];
      now rewrite !deleted_app, (deleted_harmless Hq1), (deleted_harmless Hq2)].
  set (s2 := final (server_exists remote server_name (dc ++ "/servers") s1))
    in *.
  assert (Hjf2 : lookup (server_name ++ ".json") (json_files s2) = Some jf).
  { unfold s2, s1. now rewrite server_exists_keeps, name_to_href_keeps. }
  step. rewrite (json_files_get_run _ _ Hjf2). cbn [value trace final].
  rewrite !deleted_app, (deleted_harmless Hq1), (deleted_harmless Hq2).
  destruct (mem name (detachable type jf)); cbn [negb app].
  - step. cbn [value print emit trace final]. step.
    cbn [value requests_delete trace final]. step.
    match goal with
    | |- context [name_to_href remote server_name ?u ?st] =>
        pose proof (name_to_href_harmless remote server_name u st) as Hq3;
        destruct (value (name_to_href remote server_name u st)) as [h|e]
    end.
    + match goal with
      | |- context [all_available remote ?hs ?st] =>
          pose proof (all_available_harmless remote hs st) as Hq4
      end.
      cbn [app deleted]. rewrite !deleted_app, (deleted_harmless Hq3),
        (deleted_harmless Hq4). reflexivity.
    + cbn [app deleted]. rewrite !deleted_app, (deleted_harmless Hq3).
      reflexivity.
  - step. cbn [value print emit trace final exit]. split; reflexivity.
Qed.

Lemma index_of_mem name (l : list component) :
  mem name (map c_name l) = true ->
  exists item, nth_error l (index_of name (map c_name l)) = Some item /\
               c_name item = name.
Proof.
  induction l as [|c l IH]; cbn [map mem existsb index_of]; [discriminate|].
  rewrite (String.eqb_sym name (c_name c)).
  destruct (String.eqb (c_name c) name) eqn:E.
  - intros _. exists c. split; [reflexivity|]. now apply String.eqb_eq.
  - cbn [orb]. intros H. exact (IH H).
Qed.

Lemma lookup_update_file key f files jf :
  lookup key files = Some jf ->
  lookup key (update_file key f files) = Some (f jf).
Proof.
  induction files as [|[k j] files IH]; cbn [lookup update_file];
    [discriminate|].
  destruct (String.eqb k key) eqn:E; cbn [lookup]; rewrite E.
  - now intros [= ->].
  - exact IH.
Qed.

Lemma nth_error_update_nth {A} (f : A -> A) l : forall idx x,
  nth_error l idx = Some x ->
  nth_error (update_nth idx f l) idx = Some (f x).
Proof.
  induction l as [|y l IH]; intros [|idx] x; cbn; try discriminate.
  - now intros [= ->].
  - apply IH.
Qed.

Lemma standalone_update_standalone type idx f jf :
  standalone type (update_standalone type idx f jf) =
  update_nth idx f (standalone type jf).
Proof. destruct type; reflexivity. Qed.

Lemma json_files_item_run key type idx (s : state World) jf item :
  lookup key (json_files s) = Some jf ->
  nth_error (standalone type jf) idx = Some item ->
  json_files_item key type idx s = mkRun (Ok item) s [].
Proof.
  intros Hjf Hitem. unfold json_files_item. rewrite bind_run.
  rewrite (json_files_get_run _ _ Hjf). cbn [value final trace].
  rewrite Hitem. reflexivity.
Qed.

Lemma json_files_assign_entry key type idx name f (s : state World) :
  (forall c, c_name (f c) = c_name c) ->
  has_entry key type idx name s ->
  has_entry key type idx name (final (json_files_assign key type idx f s)).
Proof.
  intros Hf [jf [item [Hjf [Hitem Hname]]]].
  exists (update_standalone type idx f jf), (f item).
  cbn [final json_files_assign json_files with_json_files].
  split; [now apply lookup_update_file|]. split.
  - rewrite standalone_update_standalone. now apply nth_error_update_nth.
  - now rewrite Hf.
Qed.

(** The two blocks that write into the entry: they cannot fail, they issue no
    request, and the entry is still there under the same name. *)
Lemma attach_password_entry key type idx name (s : state World) :
  has_entry key type idx name s ->
  let r := attach_password key type idx s in
  value r = Ok tt /\ trace r = [] /\ world (final r) = world s /\
  has_entry key type idx name (final r).
Proof.
  intros Hentry. cbv zeta. unfold attach_password.
  destruct (is_volumes type); [|repeat split; exact Hentry].
  destruct Hentry as [jf [item [Hjf [Hitem Hname]]]].
  step. rewrite (json_files_item_run _ _ _ _ Hjf Hitem). cbn [value trace final].
  destruct (prop_imagePassword (c_properties item)).
  - repeat split. exists jf, item. auto.
  - step. cbn [value trace final random_password json_files_assign].
    repeat split.
    apply (@json_files_assign_entry key type idx name (set_imagePassword _)
             (mkState (world s) (json_files s) _)); [reflexivity|].
    exists jf, item. auto.
  - repeat split. exists jf, item. auto.
Qed.

Lemma attach_boot_script_entry key server_name name type idx (s : state World) :
  has_entry key type idx name s ->
  let r := attach_boot_script DATACENTER listdir user_data
             key server_name name type idx s in
  value r = Ok tt /\ trace r = [] /\ world (final r) = world s /\
  has_entry key type idx name (final r).
Proof.
  intros Hentry. cbv zeta. unfold attach_boot_script.
  destruct (_ && _ && _); [|repeat split; exact Hentry].
  repeat split. now apply json_files_assign_entry.
Qed.

Lemma patched_app tr1 tr2 : patched (tr1 ++ tr2) = patched tr1 ++ patched tr2.
Proof.
  induction tr1 as [|e tr1 IH]; [reflexivity|].
  destruct e; simpl; rewrite ?IH; reflexivity.
Qed.

Lemma patched_harmless tr : Forall harmless tr -> patched tr = [].
Proof.
  induction 1 as [|e tr He _ IH]; [reflexivity|].
  destruct e; simpl in *; tauto.
Qed.

(** The end of [attach_single], from the first barrier on: no POST, and in a
    run that completes exactly the PATCH of [attach_boot_device], if any. *)
Lemma attach_tail_patched href type component (s : state World) :
  let r := (all_available remote [href] ;;
            attach_boot_device remote href type component ;;
            all_available remote [href]) s in
  posted (trace r) = [] /\
  (value r = Ok tt ->
   patched (trace r) =
   if is_volumes type && endswith (r_name component) "-boot"
   then [EvPatch href (BodyBootVolume (r_id component))]
   else []).
Proof.
  cbv zeta. step.
  pose proof (all_available_harmless remote [href] s) as Hq1.
  destruct (value (all_available remote [href] s)) as [[]|e];
    [|rewrite app_nil_r, (posted_harmless Hq1); split; [reflexivity|discriminate]].
  set (s1 := final (all_available remote [href] s)). step.
  unfold attach_boot_device.
  destruct (is_volumes type && endswith (r_name component) "-boot").
  - cbn [value requests_patch trace final].
    match goal with
    | |- context [all_available remote [href] (with_world ?w ?st)] =>
        pose proof (all_available_harmless remote [href] (with_world w st))
          as Hq2
    end.
    rewrite !posted_app, !patched_app, (posted_harmless Hq1),
      (posted_harmless Hq2), (patched_harmless Hq1), (patched_harmless Hq2).
    split; reflexivity.
  - cbn [value ret trace final].
    pose proof (all_available_harmless remote [href] s1) as Hq2.
    rewrite !posted_app, !patched_app, (posted_harmless Hq1),
      (posted_harmless Hq2), (patched_harmless Hq1), (patched_harmless Hq2).
    split; reflexivity.
Qed.

(** A call of [attach_single] that passes its guard: the two blocks write into
    the entry, then the entry is posted under the name that was asked for. *)
Lemma attach_single_run href server_name name type (s : state World) jf :
  lookup (server_name ++ ".json") (json_files s) = Some jf ->
  guard_passes remote DATACENTER server_name s = true ->
  mem name (attachable type jf) = true ->
  exists tg p st,
    Forall harmless tg /\ prop_name p = name /\
    let url_type := (href ++ "/" ++ type_str type)%string in
    let answer := http_post remote url_type (BodyProperties p) (world st) in
    let tail :=
      (all_available remote [href] ;;
       attach_boot_device remote href type (fst answer) ;;
       all_available remote [href]) (with_world (snd answer) st) in
    let r := attach_single remote DATACENTER listdir user_data
               href server_name name type s in
    trace r = tg ++ [EvPrint (MsgAttaching type name server_name);
                     EvPost url_type (BodyProperties p)] ++ trace tail /\
    value r = value tail.
Proof.
  intros Hjf Hguard Hmem. unfold guard_passes in Hguard.
  unfold attach_single. cbv zeta.
  pose proof (name_to_href_harmless remote DATACENTER URL_DATACENTERS s) as Hq1.
  step.
  destruct (value (name_to_href remote DATACENTER URL_DATACENTERS s))
    as [dc|e]; [|discriminate].
  set (s1 := final (name_to_href remote DATACENTER URL_DATACENTERS s)) in *.
  pose proof (server_exists_harmless remote server_name (dc ++ "/servers") s1)
    as Hq2.
  step.
  destruct (value (server_exists remote server_name (dc ++ "/servers") s1))
    as [[|]|e]; try discriminate. cbn [negb].
  set (s2 := final (server_exists remote server_name (dc ++ "/servers") s1))
    in *.
  assert (Hjf2 : lookup (server_name ++ ".json") (json_files s2) = Some jf).
  { unfold s2, s1. now rewrite server_exists_keeps, name_to_href_keeps. }
  step. rewrite (json_files_get_run _ _ Hjf2). cbn [value trace final].
  rewrite Hmem. cbn [negb].
  destruct (index_of_mem name (standalone type jf) Hmem) as [item [Hitem Hname]].
  fold (attachable type jf) in Hitem.
  assert (He2 : has_entry (server_name ++ ".json") type
                  (index_of name (attachable type jf)) name s2)
    by (exists jf, item; auto).
  destruct (attach_password_entry He2) as [Hv3 [Ht3 [_ He3]]].
  step. rewrite Hv3, Ht3.
  match type of He3 with has_entry _ _ _ _ ?st => set (s3 := st) in * end.
  destruct (attach_boot_script_entry server_name He3) as [Hv4 [Ht4 [_ He4]]].
  step. rewrite Hv4, Ht4.
  match type of He4 with has_entry _ _ _ _ ?st => set (s4 := st) in * end.
  step. cbn [value print emit trace final].
  destruct He4 as [jf4 [item4 [Hjf4 [Hitem4 Hname4]]]].
  step. rewrite (json_files_item_run _ _ _ _ Hjf4 Hitem4).
  cbn [value trace final].
  exists (trace (name_to_href remote DATACENTER URL_DATACENTERS s) ++
          trace (server_exists remote server_name (dc ++ "/servers") s1)),
         (c_properties item4), s4.
  split; [apply Forall_app; split; assumption|].
  split; [exact Hname4|].
  rewrite bind_run. cbn [value requests_post trace final].
  cbn [app]. rewrite <- !app_assoc. cbn [app]. split; reflexivity.
Qed.

(** What [attach_single] does is decided by the same remote guard as for
    [detach_single] and by the membership test on the standalone list only. *)
Lemma attach_single_decided href server_name name type (s : state World) jf :
  lookup (server_name ++ ".json") (json_files s) = Some jf ->
  let r := attach_single remote DATACENTER listdir user_data
             href server_name name type s in
  if guard_passes remote DATACENTER server_name s
     && mem name (attachable type jf)
  then exists p, posted (trace r) = [BodyProperties p] /\ prop_name p = name
  else value r = Fail NotFound /\ posted (trace r) = [].
Proof.
  intros Hjf. cbv zeta.
  destruct (guard_passes remote DATACENTER server_name s) eqn:Hguard;
    [destruct (mem name (attachable type jf)) eqn:Hmem|]; cbn [andb].
  - destruct (attach_single_run href server_name name type s Hjf Hguard Hmem)
      as [tg [p [st [Hq [Hname [Htrace _]]]]]].
    exists p. split; [|exact Hname]. rewrite Htrace.
    rewrite !posted_app, (posted_harmless Hq).
    cbn [posted app]. now rewrite (proj1 (attach_tail_patched _ _ _ _)).
  - unfold guard_passes in Hguard. unfold attach_single. cbv zeta.
    pose proof (name_to_href_harmless remote DATACENTER URL_DATACENTERS s)
      as Hq1.
    step.
    destruct (value (name_to_href remote DATACENTER URL_DATACENTERS s))
      as [dc|e]; [|discriminate].
    set (s1 := final (name_to_href remote DATACENTER URL_DATACENTERS s)) in *.
    pose proof (server_exists_harmless remote server_name (dc ++ "/servers")
                  s1) as Hq2.
    step.
    destruct (value (server_exists remote server_name (dc ++ "/servers") s1))
      as [[|]|e]; try discriminate. cbn [negb].
    set (s2 := final (server_exists remote server_name (dc ++ "/servers") s1))
      in *.
    assert (Hjf2 : lookup (server_name ++ ".json") (json_files s2) = Some jf).
    { unfold s2, s1. now rewrite server_exists_keeps, name_to_href_keeps. }
    step. rewrite (json_files_get_run _ _ Hjf2). cbn [value trace final].
    rewrite Hmem. cbn [negb]. step. cbn [value print emit trace final exit].
    rewrite !posted_app, (posted_harmless Hq1), (posted_harmless Hq2).
    split; reflexivity.
  - unfold guard_passes in Hguard. unfold attach_single. cbv zeta.
    pose proof (name_to_href_harmless remote DATACENTER URL_DATACENTERS s)
      as Hq1.
    step.
    destruct (name_to_href_value DATACENTER URL_DATACENTERS s)
      as [[dc Hdc]|Hdc]; rewrite Hdc in *;
      [|split; [reflexivity|];
        now rewrite app_nil_r, (posted_harmless Hq1)].
    set (s1 := final (name_to_href remote DATACENTER URL_DATACENTERS s)) in *.
    pose proof (server_exists_harmless remote server_name (dc ++ "/servers")
                  s1) as Hq2.
    step.
    destruct (server_exists_value server_name (dc ++ "/servers") s1)
      as [found Hfound].
    rewrite Hfound in *. subst found. cbn [negb trace exit].
    rewrite !posted_app, (posted_harmless Hq1), (posted_harmless Hq2).
    split; reflexivity.
Qed.

Lemma detachable_mem name type jf :
  mem name (detachable type jf) =
  mem name (attachable type jf) || mem name (map c_name (embedded type jf)).
Proof.
  unfold detachable, attachable, mem. now rewrite map_app, existsb_app.
Qed.

(** C5 (amended).  For a server that has its <server>.json, [attach_single]
    stops with [NotFound] before its POST exactly when the remote guard fails
    or the name is not in the standalone list, and [detach_single] stops with
    [NotFound] before its DELETE exactly when the remote guard fails or the
    name is in neither the standalone nor the embedded list.  So whenever
    detach rejects, attach rejects too; the converse holds for names that are
    not embedded entities of the server. *)
Theorem attach_guard_stricter_than_detach_guard
  (href_a href_d server_name name : string) (type : ctype)
  (s : state World) (jf : json_file) :
  lookup (server_name ++ ".json") (json_files s) = Some jf ->
  let a := attach_single remote DATACENTER listdir user_data
             href_a server_name name type s in
  let d := detach_single remote DATACENTER href_d server_name name type s in
  let attach_rejects := value a = Fail NotFound /\ posted (trace a) = [] in
  let detach_rejects := value d = Fail NotFound /\ deleted (trace d) = [] in
  (attach_rejects <->
   guard_passes remote DATACENTER server_name s = false \/
   mem name (attachable type jf) = false) /\
  (detach_rejects <->
   guard_passes remote DATACENTER server_name s = false \/
   mem name (attachable type jf) = false /\
   mem name (map c_name (embedded type jf)) = false) /\
  (detach_rejects -> attach_rejects) /\
  (mem name (map c_name (embedded type jf)) = false ->
   attach_rejects -> detach_rejects).
Proof.
  intros Hjf. cbv zeta.
  pose proof (attach_single_decided href_a server_name name type s Hjf) as Ha.
  pose proof (detach_single_decided href_d server_name name type s Hjf) as Hd.
  cbv zeta in Ha, Hd. rewrite detachable_mem in Hd.
  destruct (guard_passes remote DATACENTER server_name s);
    destruct (mem name (attachable type jf));
    destruct (mem name (map c_name (embedded type jf)));
    cbn [andb orb] in Ha, Hd;
    try destruct Ha as [p [Ha _]]; try rewrite Ha; try rewrite Hd;
    repeat split; intros; auto;
    repeat match goal with
           | H : _ /\ _ |- _ => destruct H
           | H : _ \/ _ |- _ => destruct H
           end;
    try discriminate; try congruence; try tauto.
Qed.

Lemma generate_passwords_names items : forall (s : state World) items',
  value (generate_passwords items s) = Ok items' ->
  Forall2 (fun v v' => c_name v' = c_name v /\
                       prop_userData (c_properties v') =
                       prop_userData (c_properties v)) items items'.
Proof.
  induction items as [|item items IH]; intros s items';
    cbn [generate_passwords].
  - intros [= <-]. constructor.
  - destruct (prop_imagePassword (c_properties item)).
    + intros [= <-]. clear IH.
      induction (item :: items); constructor; auto.
    + step. cbn [value random_password final]. step.
      match goal with
      | |- context [generate_passwords items ?st] =>
          specialize (IH st); destruct (value (generate_passwords items st))
      end; [|discriminate].
      intros [= <-]. constructor; [split; reflexivity | now apply IH].
    + step.
      specialize (IH s). destruct (value (generate_passwords items s));
        [|discriminate].
      intros [= <-]. constructor; [split; reflexivity | now apply IH].
Qed.

(** C8 (amended).  In a server document that [create_single] posts (the
    directory listing and [user_data] having returned), userData is set on an
    embedded volume exactly when the volume's name contains "-boot"
    (anywhere) and the template <name>.yaml is in the listing of the
    cloud-configs directory; [attach_single], in a run that completes
    against a remote side that returns the created component under the name
    that was posted, issues the boot-device PATCH exactly when the component
    is a volume whose name ends with "-boot". *)
Theorem boot_script_by_substring_boot_device_by_suffix
  (server_name api_url href name : string) (type : ctype)
  (s : state World) (jf : json_file) :
  lookup (server_name ++ ".json") (json_files s) = Some jf ->
  (forall url p w,
     r_name (fst (http_post remote url (BodyProperties p) w)) = prop_name p) ->
  let dir := cloud_configs_dir DATACENTER in
  let c := create_single remote DATACENTER listdir user_data
             server_name api_url s in
  let a := attach_single remote DATACENTER listdir user_data
             href server_name name type s in
  (forall payload,
     In (BodyServer payload) (posted (trace c)) ->
     Forall2
       (fun v v' =>
          c_name v' = c_name v /\
          prop_userData (c_properties v') =
          if mem (c_name v ++ ".yaml")%string (listdir dir)
             && contains "-boot" (c_name v)
          then Some (user_data dir (c_name v ++ ".yaml")%string)
          else prop_userData (c_properties v))
       (entities_volumes (server jf)) (entities_volumes payload)) /\
  (value a = Ok tt ->
   (patched (trace a) <> [] <->
    type = Volumes /\ endswith name "-boot" = true) /\
   (patched (trace a) = [] \/
    exists id, patched (trace a) = [EvPatch href (BodyBootVolume id)])).
Proof.
  intros Hjf Hecho. cbv zeta. split.
  - destruct (generate_passwords_silent (entities_volumes (server jf)) s)
      as [vols [Hvols _]].
    intros payload Hin.
    rewrite (create_single_posts remote DATACENTER listdir user_data
               server_name api_url s Hjf Hvols) in Hin.
    destruct Hin as [Hin|[]]. injection Hin as <-.
    cbn [entities_volumes].
    pose proof (generate_passwords_names _ _ Hvols) as HF. clear Hvols.
    induction HF as [|v v' l l' [Hn Hu] _ IH]; cbn [map]; constructor; auto.
    unfold attach_user_data. rewrite Hn.
    destruct (_ && _); cbn [c_name set_userData c_properties prop_name
                             prop_userData]; auto.
  - intros Hok.
    pose proof (attach_single_decided href server_name name type s Hjf) as Hd.
    cbv zeta in Hd.
    destruct (guard_passes remote DATACENTER server_name s) eqn:Hguard;
      [destruct (mem name (attachable type jf)) eqn:Hmem|];
      cbn [andb] in Hd; try (destruct Hd as [Hd _]; congruence).
    destruct (attach_single_run href server_name name type s Hjf Hguard Hmem)
      as [tg [p [st [Hq [Hname [Htrace Hvalue]]]]]].
    rewrite Hvalue in Hok.
    destruct (attach_tail_patched href type
                (fst (http_post remote (href ++ "/" ++ type_str type)
                        (BodyProperties p) (world st)))
                (with_world (snd (http_post remote
                        (href ++ "/" ++ type_str type)
                        (BodyProperties p) (world st))) st))
      as [_ Hpatched].
    specialize (Hpatched Hok).
    rewrite Htrace, !patched_app, (patched_harmless Hq), Hpatched.
    rewrite Hecho, Hname. cbn [patched app].
    destruct type; cbn [is_volumes andb].
    + destruct (endswith name "-boot"); split.
      * split; [auto | discriminate].
      * right. eexists. reflexivity.
      * split; [congruence | intros [_ H]; discriminate].
      * left. reflexivity.
    + split.
      * split; [congruence | intros [H _]; discriminate].
      * left. reflexivity.
Qed.

End Components.

(** C5, as stated, fails: "web1-boot" is an embedded volume of web1.json and
    not in its standalone list; [attach_single] rejects it with [NotFound]
    and posts nothing, [detach_single] accepts it and issues its DELETE. *)
Lemma attach_rejects_detach_accepts :
  let s := start [("web1.json", web1 [ssh])] in
  let a := attach_single (static cloud) "fra" (fun _ => []) (fun _ _ => "")
             "dc1/servers/s1" "web1" "web1-boot" Volumes s in
  let d := detach_single (static cloud) "fra"
             "dc1/servers/s1/volumes/v1" "web1" "web1-boot" Volumes s in
  let attach_rejects := value a = Fail NotFound /\ posted (trace a) = [] in
  let detach_rejects := value d = Fail NotFound /\ deleted (trace d) = [] in
  ~ (attach_rejects <-> detach_rejects) /\
  attach_rejects /\
  value d = Ok tt /\ deleted (trace d) = ["dc1/servers/s1/volumes/v1"].
Proof.
  cbv zeta.
  assert (Ha : value (attach_single (static cloud) "fra" (fun _ => [])
                        (fun _ _ => "") "dc1/servers/s1" "web1" "web1-boot"
                        Volumes (start [("web1.json", web1 [ssh])])) =
               Fail NotFound /\
               posted (trace (attach_single (static cloud) "fra" (fun _ => [])
                        (fun _ _ => "") "dc1/servers/s1" "web1" "web1-boot"
                        Volumes (start [("web1.json", web1 [ssh])]))) = [])
    by (split; vm_compute; reflexivity).
  split; [|split; [exact Ha | split; vm_compute; reflexivity]].
  intros [H _]. destruct (H Ha) as [Hd _]. vm_compute in Hd. discriminate Hd.
Qed.

Lemma attach_guard_stricter_than_detach_guard_witness :
  let s := start [("web1.json", web1 [ssh])] in
  let jf := web1 [ssh] in
  let a := attach_single (static cloud) "fra" (fun _ => []) (fun _ _ => "")
             "dc1/servers/s1" "web1" "web1-data" Volumes s in
  let d := detach_single (static cloud) "fra"
             "dc1/servers/s1/volumes/v1" "web1" "web1-data" Volumes s in
  let attach_rejects := value a = Fail NotFound /\ posted (trace a) = [] in
  let detach_rejects := value d = Fail NotFound /\ deleted (trace d) = [] in
  (attach_rejects <->
   guard_passes (static cloud) "fra" "web1" s = false \/
   mem "web1-data" (attachable Volumes jf) = false) /\
  (detach_rejects <->
   guard_passes (static cloud) "fra" "web1" s = false \/
   mem "web1-data" (attachable Volumes jf) = false /\
   mem "web1-data" (map c_name (embedded Volumes jf)) = false) /\
  (detach_rejects -> attach_rejects) /\
  (mem "web1-data" (map c_name (embedded Volumes jf)) = false ->
   attach_rejects -> detach_rejects).
Proof.
  apply (attach_guard_stricter_than_detach_guard
           (static cloud) "fra" (fun _ => []) (fun _ _ => "")
           "dc1/servers/s1" "dc1/servers/s1/volumes/v1" "web1" "web1-data"
           Volumes (start [("web1.json", web1 [ssh])])).
  reflexivity.
Defined.

(** C8, as stated, fails: the embedded volume "old1-boot-2019" does not end
    with "-boot", yet with a template old1-boot-2019.yaml in the directory
    [create_single] posts it with the userData attached. *)
Lemma create_single_user_data_without_suffix :
  let r := create_single (static cloud) "fra"
             (fun _ => ["old1-boot-2019.yaml"])
             (fun _ _ => "I2Nsb3VkLWNvbmZpZwo=")
             "old1" "dc1/servers" (start [("old1.json", old1)]) in
  endswith "old1-boot-2019" "-boot" = false /\
  posted (trace r) =
  [BodyServer
     (mkServer "old1" []
        [mkComponent
           (mkProperties "old1-boot-2019" (PwValue "secret")
                         (Some "I2Nsb3VkLWNvbmZpZwo=") [])
           None]
        [])].
Proof. split; vm_compute; reflexivity. Qed.

Lemma boot_script_by_substring_boot_device_by_suffix_witness :
  let remote := static cloud in
  let listdir := fun _ : string => ["web1-boot.yaml"] in
  let user_data := fun _ _ : string => "I2Nsb3VkLWNvbmZpZwo=" in
  let s := start [("web1.json", web1_boot_twice)] in
  let c := create_single remote "fra" listdir user_data
             "web1" "dc1/servers" s in
  let a := attach_single remote "fra" listdir user_data
             "dc1/servers/s1" "web1" "web1-boot" Volumes s in
  (exists payload,
     posted (trace c) = [BodyServer payload] /\
     Forall2
       (fun v v' =>
          c_name v' = c_name v /\
          prop_userData (c_properties v') =
          if mem (c_name v ++ ".yaml")%string ["web1-boot.yaml"]
             && contains "-boot" (c_name v)
          then Some "I2Nsb3VkLWNvbmZpZwo="
          else prop_userData (c_properties v))
       (entities_volumes (server web1_boot_twice))
       (entities_volumes payload)) /\
  value a = Ok tt /\
  (patched (trace a) <> [] <->
   Volumes = Volumes /\ endswith "web1-boot" "-boot" = true) /\
  (patched (trace a) = [] \/
   exists id, patched (trace a) = [EvPatch "dc1/servers/s1" (BodyBootVolume id)]).
Proof.
  cbv zeta.
  destruct (@boot_script_by_substring_boot_device_by_suffix
              nat (static cloud) "fra" (fun _ => ["web1-boot.yaml"])
              (fun _ _ => "I2Nsb3VkLWNvbmZpZwo=")
              "web1" "dc1/servers" "dc1/servers/s1" "web1-boot" Volumes
              (start [("web1.json", web1_boot_twice)]) web1_boot_twice)
    as [Hcreate Hattach].
  - reflexivity.
  - intros url p w. reflexivity.
  - split.
    + eexists. split; [vm_compute; reflexivity|].
      apply Hcreate. left. vm_compute. reflexivity.
    + split; [vm_compute; reflexivity|].
      apply Hattach. vm_compute. reflexivity.
Defined.

(** ** Deleting a server *)

Section Deleting.

Context {World : Type}.
Variable remote : Remote World.
Variable DATACENTER : string.

(** A call of [detach_single] that completes has issued exactly one DELETE,
    on the href it was given. *)
Lemma detach_single_ok href server_name name type (s : state World) :
  value (detach_single remote DATACENTER href server_name name type s) = Ok tt ->
  deleted (trace (detach_single remote DATACENTER href server_name name type s))
  = [href].
Proof.
  unfold detach_single. cbv zeta.
  pose proof (name_to_href_harmless remote DATACENTER URL_DATACENTERS s) as Hq1.
  step.
  destruct (value (name_to_href remote DATACENTER URL_DATACENTERS s))
    as [dc|e]; [|discriminate].
  set (s1 := final (name_to_href remote DATACENTER URL_DATACENTERS s)) in *.
  pose proof (server_exists_harmless remote server_name (dc ++ "/servers") s1)
    as Hq2.
  step.
  destruct (value (server_exists remote server_name (dc ++ "/servers") s1))
    as [[|]|e]; try discriminate. cbn [negb].
  set (s2 := final (server_exists remote server_name (dc ++ "/servers") s1))
    in *.
  step.
  destruct (lookup (server_name ++ ".json") (json_files s2)) as [jf|] eqn:Hjf;
    [rewrite (json_files_get_run _ _ Hjf)
    |rewrite (json_files_get_missing _ _ Hjf); discriminate].
  cbn [value trace final].
  destruct (mem name (detachable type jf)); cbn [negb];
    [|step; cbn [value print emit trace final exit]; discriminate].
  step. cbn [value print emit trace final]. step.
  cbn [value requests_delete trace final]. step.
  match goal with
  | |- context [name_to_href remote server_name ?u ?st] =>
      pose proof (name_to_href_harmless remote server_name u st) as Hq3;
      destruct (value (name_to_href remote server_name u st)) as [h|e]
  end; [|discriminate].
  match goal with
  | |- context [all_available remote ?hs ?st] =>
      pose proof (all_available_harmless remote hs st) as Hq4
  end.
  intros _. rewrite !deleted_app, (deleted_harmless Hq1),
    (deleted_harmless Hq2), (deleted_harmless Hq3), (deleted_harmless Hq4).
  reflexivity.
Qed.

(** A walk of [detach] that completes has deleted every href of the listing,
    in the order of the listing. *)
Lemma detach_items_ok server_name type items : forall s : state World,
  value (detach_items remote DATACENTER server_name type items s) = Ok tt ->
  deleted (trace (detach_items remote DATACENTER server_name type items s))
  = items.
Proof.
  induction items as [|item items IH]; intros s; cbn [detach_items].
  - reflexivity.
  - step. cbn [value requests_get trace final]. step.
    match goal with
    | |- context [detach_single remote DATACENTER item ?sn ?n type ?st] =>
        pose proof (@detach_single_ok item sn n type st) as Hone;
        destruct (value (detach_single remote DATACENTER item sn n type st))
          as [[]|e]
    end; [|discriminate].
    intros Hrest. cbn [app deleted].
    rewrite deleted_app, (Hone eq_refl), (IH _ Hrest). reflexivity.
Qed.

Lemma detach_ok type api_url (s : state World) :
  value (detach remote DATACENTER type api_url s) = Ok tt ->
  deleted (trace (detach remote DATACENTER type api_url s)) =
  listing_seen remote type api_url s.
Proof.
  unfold detach, listing_seen. cbv zeta.
  step. cbn [value requests_get trace final]. step.
  cbn [value requests_get trace final]. intros H.
  cbn [app deleted]. now apply detach_items_ok.
Qed.


End Deleting.



(** ** Firewall-rule synchronization *)

Lemma fw_creations_harmless e tr :
  harmless e -> fw_creations (e :: tr) = fw_creations tr.
Proof. destruct e as [| | | | |[]]; simpl; tauto. Qed.

Lemma creations_of_nil : creations_of [] [].
Proof. intros tl. reflexivity. Qed.

Lemma creations_of_app tr1 tr2 cs1 cs2 :
  creations_of tr1 cs1 -> creations_of tr2 cs2 ->
  creations_of (tr1 ++ tr2) (cs1 ++ cs2).
Proof.
  intros H1 H2 tl. now rewrite <- !app_assoc, H1, H2.
Qed.

Lemma creations_of_harmless tr : Forall harmless tr -> creations_of tr [].
Proof.
  induction 1 as [|e tr He _ IH]; intros tl; [reflexivity|].
  cbn [app]. rewrite (@fw_creations_harmless e (tr ++ tl) He). apply IH.
Qed.

Lemma creations_of_announced name nic_name server_name url r tr cs :
  creations_of tr cs ->
  creations_of (EvPrint (MsgCreatingRule name nic_name server_name)
                  :: EvPost url (BodyRule r) :: tr)
               ((nic_name, r) :: cs).
Proof. intros H tl. cbn. f_equal. apply H. Qed.

Lemma creations_of_eq tr cs : creations_of tr cs -> fw_creations tr = cs.
Proof. intros H. specialize (H []). now rewrite !app_nil_r in H. Qed.

Lemma has_duplicates_nonempty (rules : list rule) :
  has_duplicates (map rule_name rules) = true -> rules <> [].
Proof. intros H ->. discriminate H. Qed.

Section Firewall.

Context {World : Type}.
Variable remote : Remote World.
Variable DATACENTER : string.

Lemma fwrules_post_rule_keeps name server_name nic_name URL_SERVERS rule :
  keeps (fwrules_post_rule remote name server_name nic_name URL_SERVERS rule).
Proof.
  unfold fwrules_post_rule.
  apply keeps_bind; [apply name_to_href_keeps | intros ?].
  apply keeps_bind; [apply name_to_href_keeps | intros ?].
  apply keeps_bind; [apply keeps_print | intros ?].
  apply keeps_bind; [apply keeps_post | intros ?].
  apply keeps_bind; [apply name_to_href_keeps | intros ?].
  apply all_available_keeps.
Qed.

Lemma fwrules_create_rules_keeps name server_name nic_name URL_SERVERS rules :
  keeps (fwrules_create_rules remote name server_name nic_name URL_SERVERS
                              rules).
Proof.
  induction rules as [|rule rules IH]; cbn [fwrules_create_rules].
  - apply keeps_ret.
  - apply keeps_bind; [|intros ?; exact IH].
    destruct (String.eqb (rule_name rule) name);
      [apply fwrules_post_rule_keeps | apply keeps_ret].
Qed.

Lemma fwrules_create_nics_keeps name server_name nic_name URL_SERVERS nics :
  keeps (fwrules_create_nics remote name server_name nic_name URL_SERVERS nics).
Proof.
  induction nics as [|nic nics IH]; cbn [fwrules_create_nics].
  - apply keeps_ret.
  - apply keeps_bind; [|intros ?; exact IH].
    destruct (String.eqb nic_name (c_name nic)); [|apply keeps_ret].
    destruct (firewallrules nic) as [rules|]; [|apply keeps_exit].
    destruct (has_duplicates (map rule_name rules)).
    + apply keeps_bind; [apply keeps_print | intros ?; apply keeps_exit].
    + apply fwrules_create_rules_keeps.
Qed.

Lemma fwrules_create_single_keeps name server_name nic_name :
  keeps (fwrules_create_single remote DATACENTER name server_name nic_name).
Proof.
  unfold fwrules_create_single.
  apply keeps_bind; [apply name_to_href_keeps | intros ?].
  apply keeps_bind; [apply server_exists_keeps | intros found].
  destruct found; cbn [negb]; [|apply keeps_exit].
  apply keeps_bind; [apply keeps_json_files_get | intros ?].
  apply fwrules_create_nics_keeps.
Qed.

(** Posting one rule: at most the one creation call, on [nic_name]. *)
Lemma fwrules_post_rule_creations name server_name nic_name URL_SERVERS rule
  (s : state World) :
  let r := fwrules_post_rule remote name server_name nic_name URL_SERVERS
             rule s in
  exists cs, creations_of (trace r) cs /\
             Forall (fun c => fst c = nic_name) cs /\
             (value r = Ok tt -> cs = [(nic_name, rule)]).
Proof.
  cbv zeta. unfold fwrules_post_rule. cbv zeta.
  pose proof (name_to_href_harmless remote server_name URL_SERVERS s) as Hq1.
  step.
  destruct (value (name_to_href remote server_name URL_SERVERS s))
    as [server_href|e].
  2: { exists []. rewrite app_nil_r. split; [|split].
       - now apply creations_of_harmless.
       - constructor.
       - discriminate. }
  set (s1 := final (name_to_href remote server_name URL_SERVERS s)) in *.
  pose proof (name_to_href_harmless remote nic_name (server_href ++ "/nics") s1)
    as Hq2.
  step.
  destruct (value (name_to_href remote nic_name (server_href ++ "/nics") s1))
    as [nic|e].
  2: { exists []. rewrite app_nil_r. split; [|split].
       - apply (creations_of_app (cs1:=[]) (cs2:=[]));
           now apply creations_of_harmless.
       - constructor.
       - discriminate. }
  set (s2 := final (name_to_href remote nic_name (server_href ++ "/nics") s1))
    in *.
  step. cbn [value print emit trace final]. step.
  cbn [value requests_post trace final]. step.
  match goal with
  | |- context [name_to_href remote server_name URL_SERVERS ?st] =>
      lazymatch st with
      | with_world _ _ =>
          pose proof (name_to_href_harmless remote server_name URL_SERVERS st)
            as Hq3;
          set (s3 := st) in *
      end
  end.
  exists [(nic_name, rule)]. split; [|split; [repeat constructor | reflexivity]].
  apply (creations_of_app (cs1:=[]) (cs2:=[(nic_name, rule)]));
    [now apply creations_of_harmless|].
  apply (creations_of_app (cs1:=[]) (cs2:=[(nic_name, rule)]));
    [now apply creations_of_harmless|].
  cbn [app]. apply creations_of_announced.
  destruct (value (name_to_href remote server_name URL_SERVERS s3)) as [h|e].
  - apply (creations_of_app (cs1:=[]) (cs2:=[]));
      apply creations_of_harmless; [exact Hq3 | apply all_available_harmless].
  - rewrite app_nil_r. now apply creations_of_harmless.
Qed.

(** The rules loop: one creation call per rule of the list called [name]. *)
Lemma fwrules_create_rules_creations name server_name nic_name URL_SERVERS
  rules : forall s : state World,
  let r := fwrules_create_rules remote name server_name nic_name URL_SERVERS
             rules s in
  exists cs, creations_of (trace r) cs /\
             Forall (fun c => fst c = nic_name) cs /\
             (value r = Ok tt ->
              cs = map (pair nic_name)
                       (filter (fun x => String.eqb (rule_name x) name) rules)).
Proof.
  induction rules as [|rule rules IH]; intros s; cbv zeta;
    cbn [fwrules_create_rules filter].
  - exists []. split; [apply creations_of_nil|].
    split; [constructor | intros _; reflexivity].
  - step. destruct (String.eqb (rule_name rule) name).
    + destruct (fwrules_post_rule_creations name server_name nic_name
                  URL_SERVERS rule s) as [c1 [H1 [F1 O1]]].
      cbv zeta in H1, O1.
      destruct (value (fwrules_post_rule remote name server_name nic_name
                         URL_SERVERS rule s)) as [[]|e].
      * destruct (IH (final (fwrules_post_rule remote name server_name nic_name
                               URL_SERVERS rule s))) as [c2 [H2 [F2 O2]]].
        cbv zeta in H2, O2. exists (c1 ++ c2).
        split; [now apply creations_of_app|].
        split; [apply Forall_app; now split|].
        intros Hok. now rewrite (O1 eq_refl), (O2 Hok).
      * exists c1. rewrite app_nil_r.
        split; [assumption|]. split; [assumption | discriminate].
    + cbn [value ret trace final app].
      destruct (IH s) as [c2 [H2 [F2 O2]]]. exists c2. auto.
Qed.

(** The scan of the declarations: the calls of [rule_posts]. *)
Lemma fwrules_create_nics_creations name server_name nic_name URL_SERVERS
  nics : forall s : state World,
  let r := fwrules_create_nics remote name server_name nic_name URL_SERVERS
             nics s in
  exists cs, creations_of (trace r) cs /\
             Forall (fun c => fst c = nic_name) cs /\
             (value r = Ok tt -> cs = rule_posts name nic_name nics).
Proof.
  induction nics as [|nic nics IH]; intros s; cbv zeta;
    cbn [fwrules_create_nics rule_posts flat_map].
  - exists []. split; [apply creations_of_nil|].
    split; [constructor | intros _; reflexivity].
  - step. destruct (String.eqb nic_name (c_name nic)).
    + destruct (firewallrules nic) as [rules|].
      * destruct (has_duplicates (map rule_name rules)).
        -- step. cbn [value print emit trace final exit].
           exists []. split; [|split; [constructor | discriminate]].
           apply creations_of_harmless. repeat constructor.
        -- destruct (fwrules_create_rules_creations name server_name nic_name
                       URL_SERVERS rules s) as [c1 [H1 [F1 O1]]].
           cbv zeta in H1, O1.
           destruct (value (fwrules_create_rules remote name server_name
                              nic_name URL_SERVERS rules s)) as [[]|e].
           ++ destruct (IH (final (fwrules_create_rules remote name server_name
                               nic_name URL_SERVERS rules s)))
                as [c2 [H2 [F2 O2]]].
              cbv zeta in H2, O2. exists (c1 ++ c2).
              split; [now apply creations_of_app|].
              split; [apply Forall_app; now split|].
              intros Hok. fold (rule_posts name nic_name nics).
              now rewrite (O1 eq_refl), (O2 Hok).
           ++ exists c1. rewrite app_nil_r.
              split; [assumption|]. split; [assumption | discriminate].
      * cbn [value exit trace]. exists [].
        split; [apply creations_of_nil|]. split; [constructor | discriminate].
    + cbn [value ret trace final app].
      destruct (IH s) as [c2 [H2 [F2 O2]]]. exists c2.
      fold (rule_posts name nic_name nics). auto.
Qed.

Lemma fwrules_create_single_creations name server_name nic_name
  (s : state World) jf :
  lookup (server_name ++ ".json") (json_files s) = Some jf ->
  let r := fwrules_create_single remote DATACENTER name server_name nic_name
             s in
  exists cs, creations_of (trace r) cs /\
             Forall (fun c => fst c = nic_name) cs /\
             (value r = Ok tt ->
              cs = rule_posts name nic_name (declared_nics jf)).
Proof.
  intros Hjf. cbv zeta. unfold fwrules_create_single. cbv zeta.
  pose proof (name_to_href_harmless remote DATACENTER URL_DATACENTERS s) as Hq1.
  step.
  destruct (value (name_to_href remote DATACENTER URL_DATACENTERS s))
    as [dc|e].
  2: { exists []. rewrite app_nil_r.
       split; [now apply creations_of_harmless|].
       split; [constructor | discriminate]. }
  set (s1 := final (name_to_href remote DATACENTER URL_DATACENTERS s)) in *.
  pose proof (server_exists_harmless remote server_name (dc ++ "/servers") s1)
    as Hq2.
  step.
  destruct (value (server_exists remote server_name (dc ++ "/servers") s1))
    as [[|]|e]; cbn [negb].
  2,3: exists []; cbn [trace exit]; rewrite ?app_nil_r;
       (split; [apply (creations_of_app (cs1:=[]) (cs2:=[]));
                now apply creations_of_harmless
               |split; [constructor | discriminate]]).
  set (s2 := final (server_exists remote server_name (dc ++ "/servers") s1))
    in *.
  assert (Hjf2 : lookup (server_name ++ ".json") (json_files s2) = Some jf).
  { unfold s2, s1. now rewrite server_exists_keeps, name_to_href_keeps. }
  step. rewrite (json_files_get_run _ _ Hjf2). cbn [value trace final app].
  destruct (fwrules_create_nics_creations name server_name nic_name
              (dc ++ "/servers") (nics jf ++ entities_nics (server jf)) s2)
    as [cs [H [F O]]].
  exists cs. split; [|split; [exact F | exact O]].
  apply (creations_of_app (cs1:=[]) (cs2:=cs));
    [now apply creations_of_harmless|].
  apply (creations_of_app (cs1:=[]) (cs2:=cs));
    [now apply creations_of_harmless | exact H].
Qed.

Lemma fwrules_create_each_keeps server_name nic_name rules :
  keeps (fwrules_create_each remote DATACENTER server_name nic_name rules).
Proof.
  induction rules as [|fr rules IH]; cbn [fwrules_create_each].
  - apply keeps_ret.
  - apply keeps_bind; [apply fwrules_create_single_keeps | intros ?; exact IH].
Qed.

Lemma fwrules_create_each_creations server_name nic_name jf rules :
  forall s : state World,
  lookup (server_name ++ ".json") (json_files s) = Some jf ->
  let r := fwrules_create_each remote DATACENTER server_name nic_name rules s in
  exists cs, creations_of (trace r) cs /\
             Forall (fun c => fst c = nic_name) cs /\
             (value r = Ok tt ->
              cs = flat_map (fun fr => rule_posts (rule_name fr) nic_name
                                                  (declared_nics jf)) rules).
Proof.
  induction rules as [|fr rules IH]; intros s Hjf; cbv zeta;
    cbn [fwrules_create_each flat_map].
  - exists []. split; [apply creations_of_nil|].
    split; [constructor | intros _; reflexivity].
  - step.
    destruct (fwrules_create_single_creations (rule_name fr) server_name
                nic_name s Hjf) as [c1 [H1 [F1 O1]]].
    cbv zeta in H1, O1.
    pose proof (fwrules_create_single_keeps (rule_name fr) server_name
                  nic_name s) as Hk.
    destruct (value (fwrules_create_single remote DATACENTER (rule_name fr)
                       server_name nic_name s)) as [[]|e].
    + rewrite <- Hk in Hjf.
      destruct (IH _ Hjf) as [c2 [H2 [F2 O2]]]. cbv zeta in H2, O2.
      exists (c1 ++ c2).
      split; [now apply creations_of_app|].
      split; [apply Forall_app; now split|].
      intros Hok. now rewrite (O1 eq_refl), (O2 Hok).
    + exists c1. rewrite app_nil_r.
      split; [assumption|]. split; [assumption | discriminate].
Qed.

Lemma fwrules_create_all_keeps server_name nics :
  keeps (fwrules_create_all remote DATACENTER server_name nics).
Proof.
  induction nics as [|nic nics IH]; cbn [fwrules_create_all].
  - apply keeps_ret.
  - apply keeps_bind; [|intros ?; exact IH].
    destruct (firewallrules nic);
      [apply fwrules_create_each_keeps | apply keeps_ret].
Qed.

(** The whole synchronization, when it completes: one [fwrules_create_single]
    for every rule of every declaration of the outer list. *)
Lemma fwrules_create_all_creations server_name jf outer :
  forall s : state World,
  lookup (server_name ++ ".json") (json_files s) = Some jf ->
  let r := fwrules_create_all remote DATACENTER server_name outer s in
  value r = Ok tt ->
  fw_creations (trace r) =
  flat_map
    (fun nic =>
       match firewallrules nic with
       | Some rules =>
           flat_map (fun fr => rule_posts (rule_name fr) (c_name nic)
                                          (declared_nics jf)) rules
       | None => []
       end) outer.
Proof.
  intros s Hjf. cbv zeta. intros Hok. apply creations_of_eq.
  revert s Hjf Hok.
  induction outer as [|nic outer IH]; intros s Hjf;
    cbn [fwrules_create_all flat_map].
  - intros _. apply creations_of_nil.
  - step. destruct (firewallrules nic) as [rules|].
    + destruct (fwrules_create_each_creations server_name (c_name nic) rules
                  s Hjf) as [c1 [H1 [_ O1]]].
      cbv zeta in H1, O1.
      pose proof (fwrules_create_each_keeps server_name (c_name nic) rules s)
        as Hk.
      destruct (value (fwrules_create_each remote DATACENTER server_name
                         (c_name nic) rules s)) as [[]|e]; [|discriminate].
      intros Hok. rewrite <- Hk in Hjf. rewrite <- (O1 eq_refl).
      apply creations_of_app; [exact H1 | now apply IH].
    + cbn [value ret trace final app]. intros Hok. now apply IH.
Qed.

(** *** A NIC declared with duplicate rule names *)

(** When every declaration called [n] has duplicate rule names, the scan stops
    at the first of them, before any creation. *)
Lemma fwrules_create_nics_duplicate name server_name n URL_SERVERS nics :
  (exists nic, In nic nics /\ c_name nic = n) ->
  (forall nic, In nic nics -> c_name nic = n -> duplicate_rules nic) ->
  forall s : state World,
    let r := fwrules_create_nics remote name server_name n URL_SERVERS nics s in
    value r = Fail DuplicateName /\ Forall harmless (trace r).
Proof.
  induction nics as [|nic nics IH]; intros Hex Hall s; cbv zeta.
  - destruct Hex as [? [[] _]].
  - cbn [fwrules_create_nics]. step.
    destruct (String.eqb n (c_name nic)) eqn:E.
    + apply String.eqb_eq in E.
      destruct (Hall nic (or_introl eq_refl) (eq_sym E)) as [rules [Hr Hd]].
      rewrite Hr, Hd. step. cbn [value print emit trace final exit].
      split; [reflexivity | repeat constructor].
    + cbn [value ret trace final app]. apply IH.
      * destruct Hex as [nic' [[->|Hin] Hn]]; [|eauto].
        rewrite Hn, String.eqb_refl in E. discriminate.
      * intros nic' Hin. apply Hall. now right.
Qed.

Section Duplicate.

Variable server_name : string.
Variable jf : json_file.
Variable nic : component.
Hypothesis Hdeclared : In nic (declared_nics jf).
Hypothesis Hduplicates :
  forall nic', In nic' (declared_nics jf) -> c_name nic' = c_name nic ->
               duplicate_rules nic'.

Lemma fwrules_create_single_duplicate name (s : state World) :
  lookup (server_name ++ ".json") (json_files s) = Some jf ->
  let r := fwrules_create_single remote DATACENTER name server_name
             (c_name nic) s in
  Forall harmless (trace r) /\
  (value r = Fail DuplicateName \/ value r = Fail NotFound) /\
  (guard_passes remote DATACENTER server_name s = true ->
   value r = Fail DuplicateName).
Proof.
  intros Hjf. cbv zeta. unfold fwrules_create_single, guard_passes. cbv zeta.
  pose proof (name_to_href_harmless remote DATACENTER URL_DATACENTERS s) as Hq1.
  step.
  destruct (name_to_href_value remote DATACENTER URL_DATACENTERS s)
    as [[dc Hdc]|Hdc]; rewrite Hdc.
  2: { rewrite app_nil_r. split; [assumption|].
       split; [now right | discriminate]. }
  set (s1 := final (name_to_href remote DATACENTER URL_DATACENTERS s)) in *.
  pose proof (server_exists_harmless remote server_name (dc ++ "/servers") s1)
    as Hq2.
  step.
  destruct (server_exists_value remote server_name (dc ++ "/servers") s1)
    as [found Hfound].
  rewrite Hfound. destruct found; cbn [negb].
  2: { cbn [trace exit]. rewrite app_nil_r.
       split; [apply Forall_app; now split|].
       split; [now right | discriminate]. }
  set (s2 := final (server_exists remote server_name (dc ++ "/servers") s1))
    in *.
  assert (Hjf2 : lookup (server_name ++ ".json") (json_files s2) = Some jf).
  { unfold s2, s1. now rewrite server_exists_keeps, name_to_href_keeps. }
  step. rewrite (json_files_get_run _ _ Hjf2). cbn [value trace final app].
  destruct (@fwrules_create_nics_duplicate name server_name (c_name nic)
              (dc ++ "/servers") (nics jf ++ entities_nics (server jf)))
    with (s := s2) as [Hv Hq3].
  { exists nic. split; [exact Hdeclared | reflexivity]. }
  { exact Hduplicates. }
  cbv zeta in Hv, Hq3. rewrite Hv.
  split; [apply Forall_app; split; [assumption|];
          apply Forall_app; split; assumption|].
  split; [now left | reflexivity].
Qed.

Lemma fwrules_create_each_duplicate rules (s : state World) :
  lookup (server_name ++ ".json") (json_files s) = Some jf ->
  let r := fwrules_create_each remote DATACENTER server_name (c_name nic)
             rules s in
  Forall harmless (trace r) /\ (rules <> [] -> exists e, value r = Fail e).
Proof.
  intros Hjf. cbv zeta. destruct rules as [|fr rules];
    cbn [fwrules_create_each].
  - split; [constructor | congruence].
  - step.
    destruct (fwrules_create_single_duplicate (rule_name fr) s Hjf)
      as [Hq [[Hv|Hv] _]]; cbv zeta in Hv, Hq; rewrite Hv, app_nil_r;
      (split; [assumption | intros _; eexists; reflexivity]).
Qed.

Lemma fwrules_create_all_duplicate outer : forall s : state World,
  lookup (server_name ++ ".json") (json_files s) = Some jf ->
  let r := fwrules_create_all remote DATACENTER server_name outer s in
  (exists cs, creations_of (trace r) cs /\
              Forall (fun c => fst c <> c_name nic) cs) /\
  (In nic outer -> exists e, value r = Fail e).
Proof.
  assert (Hnic : duplicate_rules nic) by (now apply Hduplicates).
  induction outer as [|nic0 outer IH]; intros s Hjf; cbv zeta;
    cbn [fwrules_create_all].
  - split; [|intros []]. exists []. split; [apply creations_of_nil|constructor].
  - step. destruct (firewallrules nic0) as [rules0|] eqn:Hrules0.
    + destruct (string_dec (c_name nic0) (c_name nic)) as [Hname|Hname].
      * rewrite Hname.
        destruct (fwrules_create_each_duplicate rules0 s Hjf) as [Hq Hfail].
        cbv zeta in Hq, Hfail.
        pose proof (fwrules_create_each_keeps server_name (c_name nic) rules0 s)
          as Hk.
        destruct (value (fwrules_create_each remote DATACENTER server_name
                           (c_name nic) rules0 s)) as [[]|e].
        -- rewrite <- Hk in Hjf.
           destruct (IH _ Hjf) as [[cs [Hcs HF]] Hin]. cbv zeta in Hcs, Hin.
           split.
           ++ exists cs. split; [|exact HF].
              apply (creations_of_app (cs1:=[]) (cs2:=cs));
                [now apply creations_of_harmless | exact Hcs].
           ++ intros [->|Hin']; [|now apply Hin].
              destruct Hnic as [rules [Hr Hd]].
              rewrite Hrules0 in Hr. injection Hr as ->.
              destruct (Hfail (@has_duplicates_nonempty rules Hd)) as [e He].
              discriminate He.
        -- rewrite app_nil_r. split; [|intros _; eexists; reflexivity].
           exists []. split; [now apply creations_of_harmless | constructor].
      * destruct (fwrules_create_each_creations server_name (c_name nic0)
                    rules0 s Hjf) as [c1 [H1 [F1 _]]].
        cbv zeta in H1.
        pose proof (fwrules_create_each_keeps server_name (c_name nic0) rules0
                      s) as Hk.
        assert (F1' : Forall (fun c => fst c <> c_name nic) c1).
        { eapply Forall_impl; [|exact F1]. cbn. intros c ->. exact Hname. }
        destruct (value (fwrules_create_each remote DATACENTER server_name
                           (c_name nic0) rules0 s)) as [[]|e].
        -- rewrite <- Hk in Hjf.
           destruct (IH _ Hjf) as [[cs [Hcs HF]] Hin]. cbv zeta in Hcs, Hin.
           split.
           ++ exists (c1 ++ cs). split; [now apply creations_of_app|].
              apply Forall_app. now split.
           ++ intros [->|Hin']; [congruence | now apply Hin].
        -- rewrite app_nil_r. split; [|intros _; eexists; reflexivity].
           exists c1. now split.
    + cbn [value ret trace final app].
      destruct (IH _ Hjf) as [Hcs Hin]. split; [exact Hcs|].
      intros [->|Hin']; [|now apply Hin].
      destruct Hnic as [rules [Hr _]]. congruence.
Qed.

End Duplicate.

(** A synchronization fails only with the failure of one of its calls of
    [fwrules_create_single]. *)
Lemma fwrules_create_each_failure server_name nic_name files rules :
  forall s : state World,
  json_files s = files ->
  let r := fwrules_create_each remote DATACENTER server_name nic_name rules s in
  value r = Ok tt \/
  exists e name s',
    json_files s' = files /\ value r = Fail e /\
    value (fwrules_create_single remote DATACENTER name server_name nic_name s')
    = Fail e.
Proof.
  induction rules as [|fr rules IH]; intros s Hs; cbv zeta;
    cbn [fwrules_create_each].
  - now left.
  - step.
    pose proof (fwrules_create_single_keeps (rule_name fr) server_name
                  nic_name s) as Hk.
    destruct (value (fwrules_create_single remote DATACENTER (rule_name fr)
                       server_name nic_name s)) as [[]|e] eqn:Hv.
    + apply IH. now rewrite Hk.
    + right. exists e, (rule_name fr), s. auto.
Qed.

Lemma fwrules_create_all_failure server_name files outer :
  forall s : state World,
  json_files s = files ->
  let r := fwrules_create_all remote DATACENTER server_name outer s in
  value r = Ok tt \/
  exists e name nic_name s',
    json_files s' = files /\ value r = Fail e /\
    value (fwrules_create_single remote DATACENTER name server_name nic_name s')
    = Fail e.
Proof.
  induction outer as [|nic outer IH]; intros s Hs; cbv zeta;
    cbn [fwrules_create_all].
  - now left.
  - step. destruct (firewallrules nic) as [rules|].
    + pose proof (fwrules_create_each_keeps server_name (c_name nic) rules s)
        as Hk.
      destruct (fwrules_create_each_failure server_name (c_name nic) rules s Hs)
        as [Hv|[e [name [s' [Hs' [Hv Hcall]]]]]]; cbv zeta in Hv; rewrite Hv.
      * apply IH. now rewrite Hk.
      * right. exists e, name, (c_name nic), s'. auto.
    + cbn [value ret final]. now apply IH.
Qed.


End Firewall.



(** ** A NIC declared in both lists *)

Lemma filter_flat_map {A B} (p : B -> bool) (f : A -> list B) l :
  filter p (flat_map f l) = flat_map (fun x => filter p (f x)) l.
Proof.
  induction l as [|x l IH]; [reflexivity|].
  cbn [flat_map]. now rewrite filter_app, IH.
Qed.

Lemma flat_map_support {A B} (q : A -> bool) (g : A -> list B) l :
  (forall x, q x = false -> g x = []) ->
  flat_map g l = flat_map g (filter q l).
Proof.
  intros Hg. induction l as [|x l IH]; [reflexivity|].
  cbn [flat_map filter]. destruct (q x) eqn:E.
  - cbn [flat_map]. now rewrite IH.
  - now rewrite (Hg x E), IH.
Qed.

Lemma filter_constant {A} (p : A -> bool) (b : bool) l :
  (forall x, In x l -> p x = b) -> filter p l = if b then l else [].
Proof.
  induction l as [|x l IH]; intros H; [now destruct b|].
  cbn [filter]. rewrite (H x (or_introl eq_refl)), IH.
  - now destruct b.
  - intros y Hy. apply H. now right.
Qed.

Lemma rule_posts_in name nic_name nics c :
  In c (rule_posts name nic_name nics) ->
  fst c = nic_name /\ rule_name (snd c) = name.
Proof.
  unfold rule_posts. intros H. apply in_flat_map in H.
  destruct H as [nic [_ H]].
  destruct (String.eqb nic_name (c_name nic)); [|destruct H].
  destruct (firewallrules nic) as [rules|]; [|destruct H].
  apply in_map_iff in H. destruct H as [x [<- Hx]].
  apply filter_In in Hx. destruct Hx as [_ Hx].
  apply String.eqb_eq in Hx. now split.
Qed.

Lemma creations_for_flat_map {A} n r (f : A -> list (string * rule)) l :
  creations_for n r (flat_map f l) =
  flat_map (fun x => creations_for n r (f x)) l.
Proof. unfold creations_for. apply filter_flat_map. Qed.

Section DoubleDeclaration.

Variable n : string.
Variable r : rule.
Variables standalone_nics embedded_nics declared : list component.
Variables nic_a nic_e : component.
Variable rules : list rule.

Hypothesis Hdeclared : declared = standalone_nics ++ embedded_nics.
Hypothesis Hstandalone :
  filter (fun nic => String.eqb n (c_name nic)) standalone_nics = [nic_a].
Hypothesis Hembedded :
  filter (fun nic => String.eqb n (c_name nic)) embedded_nics = [nic_e].
Hypothesis Hrules_a : firewallrules nic_a = Some rules.
Hypothesis Hrules_e : firewallrules nic_e = Some rules.
Hypothesis Hrule :
  filter (fun x => String.eqb (rule_name x) (rule_name r)) rules = [r].

Lemma declared_called_n :
  filter (fun nic => String.eqb n (c_name nic)) declared = [nic_a; nic_e].
Proof. rewrite Hdeclared. now rewrite filter_app, Hstandalone, Hembedded. Qed.

Lemma nic_a_called_n : String.eqb n (c_name nic_a) = true.
Proof.
  assert (H : In nic_a (filter (fun nic => String.eqb n (c_name nic))
                               standalone_nics))
    by (rewrite Hstandalone; now left).
  apply filter_In in H. apply H.
Qed.

Lemma nic_e_called_n : String.eqb n (c_name nic_e) = true.
Proof.
  assert (H : In nic_e (filter (fun nic => String.eqb n (c_name nic))
                               embedded_nics))
    by (rewrite Hembedded; now left).
  apply filter_In in H. apply H.
Qed.

(** One completed [fwrules_create_single] for the rule on the NIC posts the
    rule twice, once for each declaration of the NIC. *)
Lemma rule_posts_twice :
  rule_posts (rule_name r) n declared = [(n, r); (n, r)].
Proof.
  unfold rule_posts.
  rewrite (flat_map_support (fun nic => String.eqb n (c_name nic)));
    [|intros nic ->; reflexivity].
  rewrite declared_called_n. cbn [flat_map].
  now rewrite nic_a_called_n, nic_e_called_n, Hrules_a, Hrules_e, Hrule.
Qed.

Lemma creations_for_rule_posts name nic_name :
  creations_for n r (rule_posts name nic_name declared) =
  if String.eqb nic_name n && String.eqb name (rule_name r)
  then rule_posts name nic_name declared
  else [].
Proof.
  unfold creations_for. apply filter_constant.
  intros c Hc. apply rule_posts_in in Hc. destruct Hc as [-> ->]. reflexivity.
Qed.

Lemma creations_for_other_nic nic :
  String.eqb n (c_name nic) = false ->
  creations_for n r (calls_for declared nic) = [].
Proof.
  intros E. unfold calls_for.
  destruct (firewallrules nic) as [rules'|]; [|reflexivity].
  rewrite creations_for_flat_map.
  induction rules' as [|fr rules' IH]; [reflexivity|].
  cbn [flat_map]. rewrite creations_for_rule_posts, IH.
  rewrite String.eqb_sym, E. reflexivity.
Qed.

Lemma creations_for_this_nic nic :
  String.eqb n (c_name nic) = true -> firewallrules nic = Some rules ->
  creations_for n r (calls_for declared nic) = [(n, r); (n, r)].
Proof.
  intros E Hr. apply String.eqb_eq in E. unfold calls_for.
  rewrite Hr, <- E. rewrite creations_for_flat_map.
  rewrite (flat_map_support
             (fun x => String.eqb (rule_name x) (rule_name r))).
  - rewrite Hrule. cbn [flat_map]. rewrite app_nil_r.
    rewrite creations_for_rule_posts, !String.eqb_refl. cbn [andb].
    apply rule_posts_twice.
  - intros fr Hfr. rewrite creations_for_rule_posts, Hfr, andb_false_r.
    reflexivity.
Qed.

(** A completed synchronization posts the rule four times on the NIC. *)
Lemma sync_posts_four_times :
  creations_for n r (sync_posts declared) =
  [(n, r); (n, r); (n, r); (n, r)].
Proof.
  unfold sync_posts. rewrite creations_for_flat_map.
  rewrite (flat_map_support (fun nic => String.eqb n (c_name nic)));
    [|exact creations_for_other_nic].
  rewrite declared_called_n. cbn [flat_map].
  rewrite (creations_for_this_nic nic_a nic_a_called_n Hrules_a).
  rewrite (creations_for_this_nic nic_e nic_e_called_n Hrules_e).
  reflexivity.
Qed.

End DoubleDeclaration.

Section Synchronization.

Context {World : Type}.
Variable remote : Remote World.
Variable DATACENTER : string.

(** A synchronization that completes has made exactly the creation calls of
    [sync_posts], in that order. *)
Lemma fwrules_create_creations server_name (s : state World) jf :
  lookup (server_name ++ ".json") (json_files s) = Some jf ->
  value (fwrules_create remote DATACENTER server_name s) = Ok tt ->
  fw_creations (trace (fwrules_create remote DATACENTER server_name s)) =
  sync_posts (declared_nics jf).
Proof.
  intros Hjf. unfold fwrules_create. step.
  rewrite (json_files_get_run _ _ Hjf). cbn [value trace final app].
  intros Hok.
  apply (fwrules_create_all_creations remote DATACENTER server_name
           (nics jf ++ entities_nics (server jf)) s Hjf Hok).
Qed.

(** C10.  When the NIC name [n] is declared once in the standalone list and
    once in the embedded list, both declarations with the same firewall
    rules, among them the rule [r] (the only one of that name), a
    synchronization that completes has posted [r] on that NIC four times: the
    outer loop calls [fwrules_create_single] for the rule once per
    declaration, and each call posts the rule once per declaration again. *)
Theorem fwrules_create_posts_each_rule_four_times
  (server_name n : string) (s : state World) (jf : json_file)
  (nic_a nic_e : component) (rules : list rule) (r : rule) :
  lookup (server_name ++ ".json") (json_files s) = Some jf ->
  filter (fun nic => String.eqb n (c_name nic)) (nics jf) = [nic_a] ->
  filter (fun nic => String.eqb n (c_name nic)) (entities_nics (server jf))
  = [nic_e] ->
  firewallrules nic_a = Some rules ->
  firewallrules nic_e = Some rules ->
  filter (fun x => String.eqb (rule_name x) (rule_name r)) rules = [r] ->
  let run := fwrules_create remote DATACENTER server_name s in
  value run = Ok tt ->
  fw_creations (trace run) = sync_posts (declared_nics jf) /\
  rule_posts (rule_name r) n (declared_nics jf) = [(n, r); (n, r)] /\
  creations_for n r (fw_creations (trace run)) =
  [(n, r); (n, r); (n, r); (n, r)].
Proof.
  intros Hjf Ha He Hra Hre Hr. cbv zeta. intros Hok.
  rewrite (fwrules_create_creations server_name s Hjf Hok).
  split; [reflexivity|]. split.
  - exact (@rule_posts_twice n r (nics jf) (entities_nics (server jf))
             (declared_nics jf) nic_a nic_e rules eq_refl Ha He Hra Hre Hr).
  - exact (@sync_posts_four_times n r (nics jf) (entities_nics (server jf))
             (declared_nics jf) nic_a nic_e rules eq_refl Ha He Hra Hre Hr).
Qed.

End Synchronization.

Lemma fwrules_create_posts_each_rule_four_times_witness :
  let remote := static cloud in
  let jf := web1 [ssh; http] in
  let run := fwrules_create remote "fra" "web1" (start [("web1.json", jf)]) in
  fw_creations (trace run) = sync_posts (declared_nics jf) /\
  rule_posts "ssh" "lan" (declared_nics jf) = [("lan", ssh); ("lan", ssh)] /\
  creations_for "lan" ssh (fw_creations (trace run)) =
  [("lan", ssh); ("lan", ssh); ("lan", ssh); ("lan", ssh)].
Proof.
  apply (@fwrules_create_posts_each_rule_four_times
           nat (static cloud) "fra" "web1" "lan"
           (start [("web1.json", web1 [ssh; http])])
           (web1 [ssh; http])
           (mkComponent (plain "lan") (Some [ssh; http]))
           (mkComponent (plain "lan") (Some [ssh; http]))
           [ssh; http] ssh);
    [reflexivity .. | vm_compute; reflexivity].
Defined.

(** * Further properties of the engine *)

(** ** name_to_href and server_exists *)

Section Resolver.

Context {World : Type}.
Variable remote : Remote World.

Lemma name_to_href_items_first_match doc name items :
  stateless remote doc ->
  forall s : state World,
    value (name_to_href_items remote name items s) =
    match find (fun item => String.eqb (r_name (doc item)) name) items with
    | Some item => Ok (r_href (doc item))
    | None => Fail NotFound
    end.
Proof.
  intros Hdoc. induction items as [|item items IH]; intros s;
    cbn [name_to_href_items find].
  - reflexivity.
  - step. cbn [value requests_get final]. rewrite Hdoc.
    destruct (String.eqb (r_name (doc item)) name); [reflexivity | apply IH].
Qed.

(** X1.  Against a remote side that answers every GET by a fixed document,
    [name_to_href] returns the href of the first member of the collection
    whose document carries the name, and stops with [NotFound] when no member
    does. *)
Theorem name_to_href_first_match
  (doc : string -> response) (name api_url : string) (s : state World) :
  stateless remote doc ->
  value (name_to_href remote name api_url s) =
  match find (fun item => String.eqb (r_name (doc item)) name)
             (r_items (doc api_url)) with
  | Some item => Ok (r_href (doc item))
  | None => Fail NotFound
  end.
Proof.
  intros Hdoc. unfold name_to_href. step. cbn [value requests_get final].
  rewrite Hdoc. now apply name_to_href_items_first_match.
Qed.

Lemma name_to_href_items_fetches name items : forall s : state World,
  let r := name_to_href_items remote name items s in
  let docs := fetched remote items (world s) in
  (exists k d,
     nth_error docs k = Some d /\ r_name d = name /\
     (forall j d', j < k -> nth_error docs j = Some d' -> r_name d' <> name) /\
     value r = Ok (r_href d) /\
     trace r = map EvGet (firstn (S k) items)) \/
  (Forall (fun d => r_name d <> name) docs /\
   value r = Fail NotFound /\
   trace r = map EvGet items ++ [EvPrint (MsgNoSuchName name)]).
Proof.
  induction items as [|item items IH]; intros s; cbv zeta;
    cbn [name_to_href_items fetched].
  - right. split; [constructor | split; reflexivity].
  - step. cbn [value requests_get trace final].
    destruct (String.eqb (r_name (fst (http_get remote item (world s)))) name)
      eqn:E.
    + left. exists 0, (fst (http_get remote item (world s))).
      apply String.eqb_eq in E.
      split; [reflexivity|]. split; [exact E|].
      split; [intros j d' Hj; lia|]. split; reflexivity.
    + apply String.eqb_neq in E.
      destruct (IH (with_world (snd (http_get remote item (world s))) s))
        as [[k [d [Hd [Hn [Hfirst [Hv Ht]]]]]]|[Hall [Hv Ht]]];
        cbv zeta in *; cbn [world with_world] in *.
      * left. exists (S k), d. rewrite Hv, Ht.
        split; [exact Hd|]. split; [exact Hn|]. split; [|split; reflexivity].
        intros [|j] d' Hj Hd'; cbn [nth_error] in Hd'.
        -- injection Hd' as <-. exact E.
        -- apply (Hfirst j d'); [lia | exact Hd'].
      * right. rewrite Hv, Ht.
        split; [constructor; assumption | split; reflexivity].
Qed.

(** X2.  [name_to_href] costs one GET for the listing and one GET per member
    up to and including the first match, the first member whose document, as
    the remote side returned it in this run, carries the name: it returns the
    href of that document, and its trace is the listing fetch followed by the
    fetches of the members up to that one and nothing else.  When no
    document carries the name it has fetched every member, printed the
    diagnostic and stopped with [NotFound].  It never issues anything but
    GETs. *)
Theorem name_to_href_round_trips (name api_url : string) (s : state World) :
  let listing := http_get remote api_url (world s) in
  let items := r_items (fst listing) in
  let docs := fetched remote items (snd listing) in
  let r := name_to_href remote name api_url s in
  (exists k d,
     nth_error docs k = Some d /\ r_name d = name /\
     (forall j d', j < k -> nth_error docs j = Some d' -> r_name d' <> name) /\
     value r = Ok (r_href d) /\
     trace r = EvGet api_url :: map EvGet (firstn (S k) items)) \/
  (Forall (fun d => r_name d <> name) docs /\
   value r = Fail NotFound /\
   trace r = EvGet api_url :: map EvGet items
             ++ [EvPrint (MsgNoSuchName name)]).
Proof.
  cbv zeta. unfold name_to_href. step. cbn [value requests_get trace final].
  destruct (name_to_href_items_fetches name
              (r_items (fst (http_get remote api_url (world s))))
              (with_world (snd (http_get remote api_url (world s))) s))
    as [[k [d [Hd [Hn [Hfirst [Hv Ht]]]]]]|[Hall [Hv Ht]]];
    cbv zeta in *; cbn [world with_world] in *; rewrite Hv, Ht.
  - left. exists k, d. repeat split; assumption.
  - right. repeat split; assumption.
Qed.

Lemma server_exists_items_agrees server_name items : forall s : state World,
  let e := server_exists_items remote server_name items s in
  let h := name_to_href_items remote server_name items s in
  final e = final h /\
  match value e with
  | Ok true => exists href, value h = Ok href
  | Ok false => value h = Fail NotFound
  | Fail _ => False
  end.
Proof.
  induction items as [|item items IH]; intros s; cbv zeta;
    cbn [server_exists_items name_to_href_items].
  - split; reflexivity.
  - step. cbn [value requests_get trace final].
    destruct (String.eqb _ server_name).
    + split; [reflexivity | eexists; reflexivity].
    + apply IH.
Qed.

(** X3.  [server_exists] and [name_to_href] agree: started in the same state
    on the same collection they end in the same state, [server_exists]
    answers [True] exactly when [name_to_href] finds an href, [False] exactly
    when it stops with [NotFound], and neither issues a mutating request. *)
Theorem server_exists_agrees_with_name_to_href
  (server_name api_url : string) (s : state World) :
  let e := server_exists remote server_name api_url s in
  let h := name_to_href remote server_name api_url s in
  final e = final h /\
  (value e = Ok true <-> exists href, value h = Ok href) /\
  (value e = Ok false <-> value h = Fail NotFound) /\
  Forall (fun ev => mutating ev = false) (trace e ++ trace h).
Proof.
  cbv zeta. unfold server_exists, name_to_href. step.
  cbn [value requests_get trace final].
  match goal with
  | |- context [server_exists_items remote server_name ?its ?st] =>
      destruct (server_exists_items_agrees server_name its st) as [Hf Hv];
      pose proof (server_exists_items_harmless remote server_name its st)
        as Hq1;
      pose proof (name_to_href_items_harmless remote server_name its st)
        as Hq2
  end.
  cbv zeta in Hf, Hv. split; [exact Hf|].
  match type of Hv with
  | match ?v with _ => _ end => destruct v as [[|]|e]
  end; [| |destruct Hv].
  - destruct Hv as [href Hv]. rewrite Hv.
    split; [split; eauto|]. split; [split; discriminate|].
    constructor; [reflexivity|]. apply Forall_app. split.
    + eapply Forall_impl; [exact harmless_not_mutating | exact Hq1].
    + constructor; [reflexivity|].
      eapply Forall_impl; [exact harmless_not_mutating | exact Hq2].
  - rewrite Hv.
    split; [split; [discriminate | intros [? ?]; discriminate]|].
    split; [split; reflexivity|].
    constructor; [reflexivity|]. apply Forall_app. split.
    + eapply Forall_impl; [exact harmless_not_mutating | exact Hq1].
    + constructor; [reflexivity|].
      eapply Forall_impl; [exact harmless_not_mutating | exact Hq2].
Qed.

(** *** A member that never becomes available *)

Lemma poll_never_available h hrefs :
  In h hrefs ->
  (forall w, String.eqb (status_of (fst (http_get remote h w))) "AVAILABLE"
             = false) ->
  forall s : state World, value (poll remote hrefs s) = Ok false.
Proof.
  intros Hin Hbusy. induction hrefs as [|h' hrefs IH]; intros s;
    [destruct Hin|].
  rewrite poll_cons. cbv zeta. cbn [value requests_get final].
  destruct (String.eqb (status_of (fst (http_get remote h' (world s))))
                       "AVAILABLE") eqn:E; [|reflexivity].
  cbn [value]. apply IH. destruct Hin as [->|Hin]; [|exact Hin].
  rewrite Hbusy in E. discriminate.
Qed.

(** X4.  When some member of the set never reports AVAILABLE -- in
    particular when its document has no state at all, which the loop reads
    as BUSY -- [all_available] does not crash and does not return: it stops
    with [Timeout] after exactly 120 sleeps. *)
Theorem all_available_times_out_on_member_never_available
  (h : string) (hrefs : list string) (s : state World) :
  In h hrefs ->
  (forall w, String.eqb (status_of (fst (http_get remote h w))) "AVAILABLE"
             = false) ->
  let r := all_available remote hrefs s in
  value r = Fail Timeout /\ count_sleeps (trace r) = 120.
Proof.
  intros Hin Hbusy. cbv zeta. unfold all_available.
  destruct (all_available_from_outcome remote hrefs 120 s)
    as [[Hv [_ Hc]] | [_ [k [_ [Hok _]]]]]; [now split|].
  unfold round_ok in Hok. rewrite polling_round_run in Hok.
  cbv zeta in Hok. cbn [value] in Hok.
  rewrite (poll_never_available h hrefs Hin Hbusy) in Hok. discriminate.
Qed.

End Resolver.

Lemma static_stateless table : stateless (static table) (document table).
Proof. intros url w. reflexivity. Qed.

Lemma name_to_href_first_match_witness :
  value (name_to_href (static cloud) "web1" "dc1/servers" (start [])) =
  Ok "dc1/servers/s1".
Proof.
  exact (@name_to_href_first_match nat (static cloud) (document cloud)
           "web1" "dc1/servers" (start []) (static_stateless cloud)).
Defined.

Lemma all_available_times_out_witness :
  let r := all_available (scripted materializing no_reply)
                         ["dc1/servers/s1"] empty_state in
  value r = Fail Timeout /\ count_sleeps (trace r) = 120.
Proof.
  apply (@all_available_times_out_on_member_never_available
           nat (scripted materializing no_reply) "dc1/servers/s1"
           ["dc1/servers/s1"] empty_state).
  - left. reflexivity.
  - intros w. reflexivity.
Defined.

(** ** Creating a server *)

Section Creating.

Context {World : Type}.
Variable remote : Remote World.
Variable DATACENTER : string.
Variable listdir : string -> list string.
Variable user_data : string -> string -> string.

Lemma create_single_trace server_name api_url (s : state World) :
  let r := create_single remote DATACENTER listdir user_data
             server_name api_url s in
  match lookup (server_name ++ ".json") (json_files s) with
  | Some jf =>
      exists payload rest,
        trace r = EvPrint (MsgCreatingServer server_name)
                  :: EvPost api_url (BodyServer payload) :: rest /\
        srv_name payload = srv_name (server jf)
  | None =>
      value r = Fail KeyError /\
      trace r = [EvPrint (MsgCreatingServer server_name)]
  end.
Proof.
  cbv zeta. unfold create_single.
  destruct (lookup (server_name ++ ".json") (json_files s)) as [jf|] eqn:Hjf.
  - destruct (generate_passwords_silent (entities_volumes (server jf)) s)
      as [vols [Hv [Ht _]]].
    step. cbn [value print emit trace final].
    step. rewrite (json_files_get_run _ _ Hjf). cbn [value trace final].
    step. rewrite Hv, Ht. cbn [value trace final].
    step. cbn [value requests_post trace final app].
    eexists. eexists. split; reflexivity.
  - step. cbn [value print emit trace final].
    step. rewrite (json_files_get_missing _ _ Hjf). cbn [value trace final].
    split; reflexivity.
Qed.

(** X5.  [create] for a server that [server_exists] does not find: when
    <server>.json is missing it stops with [KeyError] before any mutating
    request; otherwise its first mutating request is the POST of the server
    document to the servers collection, before any attach or firewall call
    (the directory listing and [user_data] being functions that return). *)
Theorem create_posts_server_first
  (server_name api_url : string) (s : state World) :
  value (server_exists remote server_name api_url s) = Ok false ->
  let r := create remote DATACENTER listdir user_data server_name api_url s in
  match lookup (server_name ++ ".json") (json_files s) with
  | Some jf =>
      exists before payload rest,
        trace r = before ++ EvPost api_url (BodyServer payload) :: rest /\
        Forall (fun e => mutating e = false) before /\
        srv_name payload = srv_name (server jf)
  | None =>
      value r = Fail KeyError /\ Forall (fun e => mutating e = false) (trace r)
  end.
Proof.
  intros Hex. cbv zeta. unfold create.
  pose proof (server_exists_harmless remote server_name api_url s) as Hq.
  pose proof (server_exists_keeps remote server_name api_url s) as Hk.
  apply (Forall_impl _ harmless_not_mutating) in Hq.
  step. rewrite Hex.
  set (s1 := final (server_exists remote server_name api_url s)) in *.
  pose proof (create_single_trace server_name api_url s1) as Hc.
  cbv zeta in Hc. rewrite Hk in Hc.
  destruct (lookup (server_name ++ ".json") (json_files s)) as [jf|].
  - destruct Hc as [payload [rest [Ht Hn]]]. step. rewrite Ht.
    exists (trace (server_exists remote server_name api_url s)
            ++ [EvPrint (MsgCreatingServer server_name)]), payload.
    eexists. split; [|split; [|exact Hn]].
    + rewrite <- !app_assoc. cbn [app]. reflexivity.
    + apply Forall_app. split; [exact Hq | repeat constructor].
  - destruct Hc as [Hv Ht]. step. rewrite Hv, Ht. split; [reflexivity|].
    apply Forall_app. split; [exact Hq | repeat constructor].
Qed.



End Creating.

Lemma create_posts_server_first_witness :
  let r := create (static cloud) "fra" (fun _ => []) (fun _ _ => "")
                  "db1" "dc1/servers" (start [("db1.json", db1)]) in
  exists before payload rest,
    trace r = before ++ EvPost "dc1/servers" (BodyServer payload) :: rest /\
    Forall (fun e => mutating e = false) before /\
    srv_name payload = "db1".
Proof.
  apply (@create_posts_server_first nat (static cloud) "fra" (fun _ => [])
           (fun _ _ => "") "db1" "dc1/servers" (start [("db1.json", db1)])).
  vm_compute. reflexivity.
Defined.



(** ** Attaching the declared components *)

Section Attaching.

Context {World : Type}.
Variable remote : Remote World.
Variable DATACENTER : string.
Variable listdir : string -> list string.
Variable user_data : string -> string -> string.

Local Abbreviation M := (M World).

Lemma keeps_keeps_declared {A} (m : M A) : keeps m -> keeps_declared m.
Proof. intros H s key type. now rewrite H. Qed.

Lemma keeps_declared_bind {A B} (m : M A) (f : A -> M B) :
  keeps_declared m -> (forall a, keeps_declared (f a)) ->
  keeps_declared (bind m f).
Proof.
  intros Hm Hf s key type. rewrite final_bind.
  destruct (value (m s)) as [a|e]; [|apply Hm].
  rewrite Hf. apply Hm.
Qed.

Lemma update_nth_names (f : component -> component) l :
  (forall c, c_name (f c) = c_name c) ->
  forall idx, map c_name (update_nth idx f l) = map c_name l.
Proof.
  intros Hf. induction l as [|c l IH]; intros [|idx]; cbn; try reflexivity.
  - now rewrite Hf.
  - now rewrite IH.
Qed.

Lemma update_standalone_names type idx f jf type' :
  (forall c, c_name (f c) = c_name c) ->
  attachable type' (update_standalone type idx f jf) = attachable type' jf.
Proof.
  intros Hf. unfold attachable.
  destruct type, type'; cbn [standalone update_standalone volumes nics];
    try reflexivity; now apply update_nth_names.
Qed.

Lemma lookup_update_file_map {B} (h : json_file -> B) key g files key' :
  (forall jf, h (g jf) = h jf) ->
  option_map h (lookup key' (update_file key g files)) =
  option_map h (lookup key' files).
Proof.
  intros Hg. induction files as [|[k jf] files IH]; [reflexivity|].
  cbn [update_file lookup]. destruct (String.eqb k key) eqn:E.
  - cbn [lookup]. destruct (String.eqb k key'); [|reflexivity].
    cbn [option_map]. now rewrite Hg.
  - cbn [lookup]. destruct (String.eqb k key'); [reflexivity | exact IH].
Qed.

Lemma json_files_assign_keeps_declared key type idx f :
  (forall c, c_name (f c) = c_name c) ->
  keeps_declared (json_files_assign key type idx f : M unit).
Proof.
  intros Hf s key' type'.
  cbn [final json_files_assign json_files with_json_files].
  apply lookup_update_file_map. intros jf.
  now apply update_standalone_names.
Qed.

Lemma json_files_item_keeps key type idx :
  keeps (json_files_item key type idx : M component).
Proof.
  apply keeps_bind; [apply keeps_json_files_get | intros jf].
  destruct (nth_error (standalone type jf) idx);
    [apply keeps_ret | apply keeps_exit].
Qed.

Lemma attach_single_keeps_declared href server_name name type :
  keeps_declared (attach_single remote DATACENTER listdir user_data
                                href server_name name type).
Proof.
  unfold attach_single.
  apply keeps_declared_bind;
    [apply keeps_keeps_declared, name_to_href_keeps | intros dc].
  apply keeps_declared_bind;
    [apply keeps_keeps_declared, server_exists_keeps | intros found].
  destruct found; cbn [negb]; [|apply keeps_keeps_declared, keeps_exit].
  apply keeps_declared_bind;
    [apply keeps_keeps_declared, keeps_json_files_get | intros jf].
  destruct (mem name (attachable type jf)); cbn [negb].
  2: { apply keeps_keeps_declared.
       apply keeps_bind; [apply keeps_print | intros; apply keeps_exit]. }
  apply keeps_declared_bind.
  { unfold attach_password.
    destruct (is_volumes type); [|apply keeps_keeps_declared, keeps_ret].
    apply keeps_declared_bind;
      [apply keeps_keeps_declared, json_files_item_keeps | intros item].
    destruct (prop_imagePassword (c_properties item));
      try apply keeps_keeps_declared, keeps_ret.
    apply keeps_declared_bind;
      [apply keeps_keeps_declared, keeps_random_password | intros pw].
    now apply json_files_assign_keeps_declared. }
  intros _. apply keeps_declared_bind.
  { unfold attach_boot_script.
    destruct (_ && _ && _); [|apply keeps_keeps_declared, keeps_ret].
    now apply json_files_assign_keeps_declared. }
  intros _. apply keeps_keeps_declared.
  apply keeps_bind; [apply keeps_print | intros _].
  apply keeps_bind; [apply json_files_item_keeps | intros item].
  apply keeps_bind; [apply keeps_post | intros component].
  apply keeps_bind; [apply all_available_keeps | intros _].
  apply keeps_bind; [|intros _; apply all_available_keeps].
  unfold attach_boot_device.
  destruct (_ && _); [apply keeps_patch | apply keeps_ret].
Qed.

(** X8.  [attach_single] writes into [json_files] (a password, userData),
    but whatever its outcome it never adds, removes, renames or reorders a
    declared standalone component, in any file: the names [attach] iterates
    over are the names the list had on entry. *)
Theorem attach_single_never_renames_declared_components
  (href server_name name : string) (type : ctype) (s : state World)
  (key : string) (type' : ctype) :
  option_map (fun jf => map c_name (standalone type' jf))
    (lookup key
       (json_files (final (attach_single remote DATACENTER listdir user_data
                                         href server_name name type s)))) =
  option_map (fun jf => map c_name (standalone type' jf))
    (lookup key (json_files s)).
Proof.
  exact (attach_single_keeps_declared href server_name name type s key type').
Qed.

(** A call of [attach_single] that completes has posted exactly one body, the
    properties of an entry called [name]. *)
Lemma attach_single_ok href server_name name type (s : state World) :
  value (attach_single remote DATACENTER listdir user_data
                       href server_name name type s) = Ok tt ->
  exists p,
    posted (trace (attach_single remote DATACENTER listdir user_data
                                 href server_name name type s))
    = [BodyProperties p] /\ prop_name p = name.
Proof.
  intros Hok.
  destruct (lookup (server_name ++ ".json") (json_files s)) as [jf|] eqn:Hjf.
  - pose proof (attach_single_decided remote DATACENTER listdir user_data
                  href server_name name type s Hjf) as Hd.
    cbv zeta in Hd. destruct (_ && _); [exact Hd|].
    destruct Hd as [Hd _]. congruence.
  - exfalso. revert Hok. unfold attach_single. cbv zeta. step.
    destruct (value (name_to_href remote DATACENTER URL_DATACENTERS s))
      as [dc|e]; [|discriminate].
    step.
    match goal with
    | |- context [server_exists remote server_name ?u ?st] =>
        pose proof (server_exists_keeps remote server_name u st) as Hk;
        destruct (value (server_exists remote server_name u st))
          as [[|]|e]; try discriminate
    end.
    cbn [negb]. step.
    rewrite json_files_get_missing; [discriminate|].
    now rewrite Hk, name_to_href_keeps.
Qed.

Lemma attach_items_ok api_url server_name type items :
  forall s : state World,
  value (attach_items remote DATACENTER listdir user_data
                      api_url server_name type items s) = Ok tt ->
  exists ps,
    posted (trace (attach_items remote DATACENTER listdir user_data
                                api_url server_name type items s))
    = map BodyProperties ps /\
    map prop_name ps = map c_name items.
Proof.
  induction items as [|t items IH]; intros s; cbn [attach_items].
  - intros _. exists []. split; reflexivity.
  - step.
    pose proof (@attach_single_ok api_url server_name (c_name t) type s)
      as Hone.
    destruct (value (attach_single remote DATACENTER listdir user_data
                       api_url server_name (c_name t) type s)) as [[]|e];
      [|discriminate].
    intros Hrest. destruct (Hone eq_refl) as [p [Hp Hn]].
    destruct (IH _ Hrest) as [ps [Hps Hns]].
    exists (p :: ps). rewrite posted_app, Hp, Hps. cbn [map app].
    split; [reflexivity|]. now rewrite Hn, Hns.
Qed.

(** X9.  An [attach] that completes has posted exactly one component per
    entry of the standalone list of that type in the JSON file of the server
    (the server the remote side names for the href), under the declared
    names and in the declared order; it posts nothing else. *)
Theorem attach_posts_declared_components_in_order
  (type : ctype) (api_url : string) (s : state World) (jf : json_file) :
  lookup (r_name (fst (http_get remote api_url (world s))) ++ ".json")
         (json_files s) = Some jf ->
  let r := attach remote DATACENTER listdir user_data type api_url s in
  value r = Ok tt ->
  exists ps,
    posted (trace r) = map BodyProperties ps /\
    map prop_name ps = map c_name (standalone type jf).
Proof.
  intros Hjf. cbv zeta. unfold attach. step.
  cbn [value requests_get trace final]. step.
  rewrite json_files_get_run with (jf := jf) by exact Hjf.
  cbn [value trace final app posted]. apply attach_items_ok.
Qed.

Lemma no_patch_no_delete_trace tr :
  Forall no_patch_no_delete tr -> patched tr = [] /\ deleted tr = [].
Proof.
  induction 1 as [|e tr He _ [IHp IHd]]; [split; reflexivity|].
  destruct e; cbn in *; auto; destruct He.
Qed.

Lemma harmless_no_patch_no_delete e : harmless e -> no_patch_no_delete e.
Proof. destruct e; cbn; tauto. Qed.

(** X10.  Attaching a NIC never writes into [json_files] (no password, no
    userData) and never issues a PATCH or a DELETE: the boot-device follow-up
    is for volumes only. *)
Theorem attach_single_nic_leaves_json_files
  (href server_name name : string) (s : state World) :
  let r := attach_single remote DATACENTER listdir user_data
             href server_name name Nics s in
  json_files (final r) = json_files s /\
  patched (trace r) = [] /\ deleted (trace r) = [].
Proof.
  cbv zeta. split.
  - revert s. change (keeps (attach_single remote DATACENTER listdir user_data
                               href server_name name Nics)).
    unfold attach_single.
    apply keeps_bind; [apply name_to_href_keeps | intros dc].
    apply keeps_bind; [apply server_exists_keeps | intros found].
    destruct found; cbn [negb]; [|apply keeps_exit].
    apply keeps_bind; [apply keeps_json_files_get | intros jf].
    destruct (mem name (attachable Nics jf)); cbn [negb].
    2: { apply keeps_bind; [apply keeps_print | intros; apply keeps_exit]. }
    apply keeps_bind; [apply keeps_ret | intros _].
    apply keeps_bind; [apply keeps_ret | intros _].
    apply keeps_bind; [apply keeps_print | intros _].
    apply keeps_bind; [apply json_files_item_keeps | intros item].
    apply keeps_bind; [apply keeps_post | intros component].
    apply keeps_bind; [apply all_available_keeps | intros _].
    apply keeps_bind; [apply keeps_ret | intros _; apply all_available_keeps].
  - apply no_patch_no_delete_trace. revert s.
    change (emits no_patch_no_delete
              (attach_single remote DATACENTER listdir user_data
                             href server_name name Nics)).
    assert (Hh : forall A (m : M A), emits harmless m ->
                                     emits no_patch_no_delete m).
    { intros A m. apply emits_weaken. exact harmless_no_patch_no_delete. }
    unfold attach_single.
    apply emits_bind; [apply Hh, name_to_href_harmless | intros dc].
    apply emits_bind; [apply Hh, server_exists_harmless | intros found].
    destruct found; cbn [negb]; [|apply emits_exit].
    apply emits_bind; [apply emits_json_files_get | intros jf].
    destruct (mem name (attachable Nics jf)); cbn [negb].
    2: { apply emits_bind; [now apply emits_print | intros; apply emits_exit]. }
    apply emits_bind; [apply emits_ret | intros _].
    apply emits_bind; [apply emits_ret | intros _].
    apply emits_bind; [now apply emits_print | intros _].
    apply emits_bind; [apply emits_json_files_item | intros item].
    apply emits_bind; [now apply emits_post | intros component].
    apply emits_bind; [apply Hh, all_available_harmless | intros _].
    apply emits_bind; [apply emits_ret |
                       intros _; apply Hh, all_available_harmless].
Qed.

End Attaching.

Lemma attach_posts_declared_components_witness :
  let r := attach (static cloud) "fra" (fun _ => []) (fun _ _ => "")
                  Volumes "dc1/servers/s1"
                  (start [("web1.json", web1_late_boot)]) in
  exists ps,
    posted (trace r) = map BodyProperties ps /\
    map prop_name ps = ["web1-data"; "web1-boot"].
Proof.
  apply (@attach_posts_declared_components_in_order nat (static cloud) "fra"
           (fun _ => []) (fun _ _ => "") Volumes "dc1/servers/s1"
           (start [("web1.json", web1_late_boot)]) web1_late_boot).
  - reflexivity.
  - vm_compute. reflexivity.
Defined.

(** ** Detaching and deleting *)

Section Removing.

Context {World : Type}.
Variable remote : Remote World.
Variable DATACENTER : string.

Local Abbreviation M := (M World).

Lemma no_post_no_patch_trace tr :
  Forall no_post_no_patch tr -> posted tr = [] /\ patched tr = [].
Proof.
  induction 1 as [|e tr He _ [IHp IHd]]; [split; reflexivity|].
  destruct e; cbn in *; auto; destruct He.
Qed.

Lemma harmless_no_post_no_patch e : harmless e -> no_post_no_patch e.
Proof. destruct e; cbn; tauto. Qed.

Lemma reads_only {A} (m : M A) :
  emits harmless m -> emits no_post_no_patch m.
Proof. apply emits_weaken. exact harmless_no_post_no_patch. Qed.

Lemma detach_single_removes href server_name name type :
  emits no_post_no_patch
        (detach_single remote DATACENTER href server_name name type).
Proof.
  unfold detach_single.
  apply emits_bind; [apply reads_only, name_to_href_harmless | intros dc].
  apply emits_bind; [apply reads_only, server_exists_harmless | intros found].
  destruct found; cbn [negb]; [|apply emits_exit].
  apply emits_bind; [apply emits_json_files_get | intros jf].
  destruct (mem name (detachable type jf)); cbn [negb].
  2: { apply emits_bind; [now apply emits_print | intros; apply emits_exit]. }
  apply emits_bind; [now apply emits_print | intros _].
  apply emits_bind; [now apply emits_delete | intros _].
  apply emits_bind; [apply reads_only, name_to_href_harmless | intros h].
  apply reads_only, all_available_harmless.
Qed.

Lemma detach_single_keeps href server_name name type :
  keeps (detach_single remote DATACENTER href server_name name type).
Proof.
  unfold detach_single.
  apply keeps_bind; [apply name_to_href_keeps | intros dc].
  apply keeps_bind; [apply server_exists_keeps | intros found].
  destruct found; cbn [negb]; [|apply keeps_exit].
  apply keeps_bind; [apply keeps_json_files_get | intros jf].
  destruct (mem name (detachable type jf)); cbn [negb].
  2: { apply keeps_bind; [apply keeps_print | intros; apply keeps_exit]. }
  apply keeps_bind; [apply keeps_print | intros _].
  apply keeps_bind; [apply keeps_delete | intros _].
  apply keeps_bind; [apply name_to_href_keeps | intros h].
  apply all_available_keeps.
Qed.

Lemma detach_single_deleted href server_name name type (s : state World) :
  let r := detach_single remote DATACENTER href server_name name type s in
  (deleted (trace r) = [] /\ value r <> Ok tt) \/ deleted (trace r) = [href].
Proof.
  cbv zeta. unfold detach_single. cbv zeta.
  pose proof (name_to_href_harmless remote DATACENTER URL_DATACENTERS s) as Hq1.
  step.
  destruct (value (name_to_href remote DATACENTER URL_DATACENTERS s))
    as [dc|e].
  2: { left. rewrite app_nil_r, (deleted_harmless Hq1).
       split; [reflexivity | discriminate]. }
  set (s1 := final (name_to_href remote DATACENTER URL_DATACENTERS s)) in *.
  pose proof (server_exists_harmless remote server_name (dc ++ "/servers") s1)
    as Hq2.
  step.
  destruct (value (server_exists remote server_name (dc ++ "/servers") s1))
    as [[|]|e]; cbn [negb].
  2,3: left; cbn [trace exit value];
       rewrite ?app_nil_r, ?deleted_app, (deleted_harmless Hq1),
         (deleted_harmless Hq2); (split; [reflexivity | discriminate]).
  set (s2 := final (server_exists remote server_name (dc ++ "/servers") s1))
    in *.
  step.
  destruct (lookup (server_name ++ ".json") (json_files s2)) as [jf|] eqn:Hjf;
    [rewrite (json_files_get_run _ _ Hjf)
    |rewrite (json_files_get_missing _ _ Hjf)];
    cbn [value trace final].
  2: { left. rewrite ?app_nil_r, ?deleted_app, (deleted_harmless Hq1),
         (deleted_harmless Hq2). split; [reflexivity | discriminate]. }
  rewrite !deleted_app, (deleted_harmless Hq1), (deleted_harmless Hq2).
  destruct (mem name (detachable type jf)); cbn [negb app].
  2: { left. step. cbn [value print emit trace final exit].
       split; [reflexivity | discriminate]. }
  right. step. cbn [value print emit trace final]. step.
  cbn [value requests_delete trace final]. step.
  match goal with
  | |- context [name_to_href remote server_name ?u ?st] =>
      pose proof (name_to_href_harmless remote server_name u st) as Hq3;
      destruct (value (name_to_href remote server_name u st)) as [h|e]
  end.
  - match goal with
    | |- context [all_available remote ?hs ?st] =>
        pose proof (all_available_harmless remote hs st) as Hq4
    end.
    cbn [app deleted]. rewrite !deleted_app, (deleted_harmless Hq3),
      (deleted_harmless Hq4). reflexivity.
  - cbn [app deleted]. rewrite !deleted_app, (deleted_harmless Hq3).
    reflexivity.
Qed.

(** X11.  Whatever the remote side answers and whatever is declared,
    [detach_single] issues at most one DELETE, on the href it was given, and
    no POST or PATCH; it leaves [json_files] as it was; and it completes only
    after that DELETE. *)
Theorem detach_single_issues_at_most_one_delete
  (href server_name name : string) (type : ctype) (s : state World) :
  let r := detach_single remote DATACENTER href server_name name type s in
  (deleted (trace r) = [] \/ deleted (trace r) = [href]) /\
  (value r = Ok tt -> deleted (trace r) = [href]) /\
  posted (trace r) = [] /\ patched (trace r) = [] /\
  json_files (final r) = json_files s.
Proof.
  cbv zeta.
  pose proof (detach_single_deleted href server_name name type s) as Hd.
  cbv zeta in Hd.
  destruct (no_post_no_patch_trace
              (detach_single_removes href server_name name type s))
    as [Hpost Hpatch].
  split; [|split; [|split; [exact Hpost | split; [exact Hpatch|]]]].
  - destruct Hd as [[Hd _]|Hd]; [now left | now right].
  - intros Hok. destruct Hd as [[_ Hd]|Hd]; [contradiction | exact Hd].
  - apply detach_single_keeps.
Qed.

Lemma detach_items_removes server_name type items :
  emits no_post_no_patch
        (detach_items remote DATACENTER server_name type items).
Proof.
  induction items as [|item items IH]; cbn [detach_items].
  - apply emits_ret.
  - apply emits_bind; [now apply emits_get | intros r].
    apply emits_bind; [apply detach_single_removes | intros _; exact IH].
Qed.

Lemma detach_items_keeps server_name type items :
  keeps (detach_items remote DATACENTER server_name type items).
Proof.
  induction items as [|item items IH]; cbn [detach_items].
  - apply keeps_ret.
  - apply keeps_bind; [apply keeps_get | intros r].
    apply keeps_bind; [apply detach_single_keeps | intros _; exact IH].
Qed.

Lemma detach_removes type api_url :
  emits no_post_no_patch (detach remote DATACENTER type api_url).
Proof.
  unfold detach.
  apply emits_bind; [now apply emits_get | intros server].
  apply emits_bind; [now apply emits_get | intros listing].
  apply detach_items_removes.
Qed.

Lemma detach_keeps type api_url :
  keeps (detach remote DATACENTER type api_url).
Proof.
  unfold detach.
  apply keeps_bind; [apply keeps_get | intros server].
  apply keeps_bind; [apply keeps_get | intros listing].
  apply detach_items_keeps.
Qed.

(** X12.  [delete] only reads and removes: whatever the remote side answers
    and however far the run gets, it issues no POST and no PATCH, and it
    leaves [json_files] as it was. *)
Theorem delete_never_creates_or_changes
  (server_name api_url : string) (s : state World) :
  let r := delete remote DATACENTER server_name api_url s in
  posted (trace r) = [] /\ patched (trace r) = [] /\
  json_files (final r) = json_files s.
Proof.
  cbv zeta.
  assert (He : emits no_post_no_patch
                 (delete remote DATACENTER server_name api_url)).
  { unfold delete.
    apply emits_bind; [apply reads_only, server_exists_harmless | intros found].
    destruct found; cbn [negb]; [|apply emits_exit].
    apply emits_bind; [apply reads_only, name_to_href_harmless | intros h].
    apply emits_bind; [now apply emits_get | intros server_object].
    apply emits_bind; [apply reads_only, all_available_harmless | intros _].
    apply emits_bind; [apply detach_removes | intros _].
    apply emits_bind; [apply detach_removes | intros _].
    unfold delete_single.
    apply emits_bind; [now apply emits_print | intros _].
    now apply emits_delete. }
  assert (Hk : keeps (delete remote DATACENTER server_name api_url)).
  { unfold delete.
    apply keeps_bind; [apply server_exists_keeps | intros found].
    destruct found; cbn [negb]; [|apply keeps_exit].
    apply keeps_bind; [apply name_to_href_keeps | intros h].
    apply keeps_bind; [apply keeps_get | intros server_object].
    apply keeps_bind; [apply all_available_keeps | intros _].
    apply keeps_bind; [apply detach_keeps | intros _].
    apply keeps_bind; [apply detach_keeps | intros _].
    unfold delete_single.
    apply keeps_bind; [apply keeps_print | intros _].
    apply keeps_delete. }
  destruct (no_post_no_patch_trace (He s)) as [Hpost Hpatch].
  split; [exact Hpost | split; [exact Hpatch | apply Hk]].
Qed.

(** X13.  [delete] on a server name the listing does not have stops with
    [NotFound] before any mutating request: it has only read. *)
Theorem delete_missing_server_issues_no_mutation
  (server_name api_url : string) (s : state World) :
  value (server_exists remote server_name api_url s) = Ok false ->
  let r := delete remote DATACENTER server_name api_url s in
  value r = Fail NotFound /\
  Forall (fun ev => mutating ev = false) (trace r).
Proof.
  intros Hmissing. cbv zeta. unfold delete. step. rewrite Hmissing.
  cbn [negb value exit trace]. split; [reflexivity|].
  rewrite app_nil_r.
  eapply Forall_impl; [|apply server_exists_harmless].
  exact harmless_not_mutating.
Qed.

End Removing.

Lemma delete_missing_server_witness :
  let r := delete (static cloud) "fra" "web2" "dc1/servers"
                  (start [("web1.json", web1 [ssh])]) in
  value r = Fail NotFound /\
  Forall (fun ev => mutating ev = false) (trace r).
Proof.
  apply (@delete_missing_server_issues_no_mutation nat (static cloud) "fra"
           "web2" "dc1/servers" (start [("web1.json", web1 [ssh])])).
  vm_compute. reflexivity.
Defined.

(** ** Firewall rules *)

Lemma filter_same_name {A} (f : A -> string) l x :
  NoDup (map f l) -> In x l ->
  filter (fun y => String.eqb (f y) (f x)) l = [x].
Proof.
  induction l as [|a l IH]; intros Hnd Hin; [destruct Hin|].
  cbn [map] in Hnd. inversion Hnd as [|? ? Hnotin Hnd']; subst.
  cbn [filter]. destruct Hin as [->|Hin].
  - rewrite String.eqb_refl. f_equal.
    rewrite (@filter_constant _ _ false); [reflexivity|].
    intros y Hy. apply String.eqb_neq. intros E. apply Hnotin.
    rewrite <- E. now apply in_map.
  - destruct (String.eqb (f a) (f x)) eqn:E.
    + apply String.eqb_eq in E. exfalso. apply Hnotin. rewrite E.
      now apply in_map.
    + now apply IH.
Qed.

Lemma rule_posts_unique_nic name nics nic :
  NoDup (map c_name nics) -> In nic nics ->
  rule_posts name (c_name nic) nics =
  match firewallrules nic with
  | Some rules =>
      map (pair (c_name nic))
          (filter (fun x => String.eqb (rule_name x) name) rules)
  | None => []
  end.
Proof.
  intros Hnd Hin. unfold rule_posts.
  rewrite (@flat_map_support _ _
             (fun y => String.eqb (c_name y) (c_name nic))).
  - rewrite (@filter_same_name _ c_name nics nic Hnd Hin). cbn [flat_map].
    rewrite String.eqb_refl, app_nil_r. reflexivity.
  - intros y E. rewrite String.eqb_sym, E. reflexivity.
Qed.

Lemma calls_for_unique nics nic :
  NoDup (map c_name nics) -> In nic nics ->
  (forall rules, firewallrules nic = Some rules ->
                 NoDup (map rule_name rules)) ->
  calls_for nics nic =
  match firewallrules nic with
  | Some rules => map (pair (c_name nic)) rules
  | None => []
  end.
Proof.
  intros Hnd Hin Hrules. unfold calls_for.
  destruct (firewallrules nic) as [rules|] eqn:Hfw; [|reflexivity].
  specialize (Hrules rules eq_refl).
  assert (H : forall l, incl l rules ->
              flat_map (fun fr => rule_posts (rule_name fr) (c_name nic) nics) l
              = map (pair (c_name nic)) l).
  { induction l as [|fr l IH]; intros Hl; [reflexivity|].
    cbn [flat_map map].
    rewrite (@rule_posts_unique_nic (rule_name fr) nics nic Hnd Hin), Hfw.
    rewrite (@filter_same_name _ rule_name rules fr Hrules (Hl fr (or_introl eq_refl))).
    cbn [map app]. f_equal. apply IH.
    intros y Hy. apply Hl. now right. }
  apply H. apply incl_refl.
Qed.

Lemma sync_posts_unique nics :
  NoDup (map c_name nics) ->
  (forall nic rules, In nic nics -> firewallrules nic = Some rules ->
                     NoDup (map rule_name rules)) ->
  sync_posts nics = declared_rules nics.
Proof.
  intros Hnd Hrules. unfold sync_posts, declared_rules.
  assert (H : forall l, incl l nics ->
              flat_map (calls_for nics) l =
              flat_map (fun nic => match firewallrules nic with
                                   | Some rules => map (pair (c_name nic)) rules
                                   | None => []
                                   end) l).
  { induction l as [|nic l IH]; intros Hl; [reflexivity|].
    cbn [flat_map]. rewrite IH by (intros y Hy; apply Hl; now right).
    f_equal. apply calls_for_unique; [exact Hnd | apply Hl; now left|].
    intros rules. apply Hrules. apply Hl. now left. }
  apply H. apply incl_refl.
Qed.

Section Rules.

Context {World : Type}.
Variable remote : Remote World.
Variable DATACENTER : string.

Local Abbreviation M := (M World).

Lemma fwrules_create_each_nil server_name nic_name (s : state World) :
  fwrules_create_each remote DATACENTER server_name nic_name [] s
  = mkRun (Ok tt) s [].
Proof. reflexivity. Qed.

Lemma fwrules_create_all_silent server_name nics :
  (forall nic, In nic nics ->
     firewallrules nic = None \/ firewallrules nic = Some []) ->
  forall s : state World,
  let r := fwrules_create_all remote DATACENTER server_name nics s in
  value r = Ok tt /\ trace r = [] /\ final r = s.
Proof.
  induction nics as [|nic nics IH]; intros Hn s; cbv zeta;
    cbn [fwrules_create_all].
  - repeat split.
  - assert (Hrest : forall n, In n nics ->
              firewallrules n = None \/ firewallrules n = Some []).
    { intros n Hin. apply Hn. now right. }
    destruct (IH Hrest s) as [Hv [Ht Hf]]. cbv zeta in Hv, Ht, Hf.
    step. destruct (Hn nic (or_introl eq_refl)) as [-> | ->];
      cbn [fwrules_create_each value ret trace final app];
      rewrite Hv, Ht, Hf; repeat split.
Qed.

(** X15.  When no declared NIC of the server carries a firewall rule (the
    key is missing or its list is empty), the synchronization completes
    without a single request, print or sleep: it does not even look whether
    the server exists. *)
Theorem fwrules_create_without_rules_does_nothing
  (server_name : string) (s : state World) (jf : json_file) :
  lookup (server_name ++ ".json") (json_files s) = Some jf ->
  (forall nic, In nic (declared_nics jf) ->
     firewallrules nic = None \/ firewallrules nic = Some []) ->
  let r := fwrules_create remote DATACENTER server_name s in
  value r = Ok tt /\ trace r = [] /\ final r = s.
Proof.
  intros Hjf Hn. cbv zeta. unfold fwrules_create. step.
  rewrite (json_files_get_run _ _ Hjf). cbn [value trace final app].
  apply (fwrules_create_all_silent server_name
           (nics jf ++ entities_nics (server jf)) Hn s).
Qed.

Lemma fwrules_create_rules_no_match name server_name nic_name URL_SERVERS
  rules (s : state World) :
  ~ In name (map rule_name rules) ->
  let r := fwrules_create_rules remote name server_name nic_name URL_SERVERS
             rules s in
  value r = Ok tt /\ trace r = [] /\ final r = s.
Proof.
  induction rules as [|x rules IH]; intros Hno; cbv zeta;
    cbn [fwrules_create_rules].
  - repeat split.
  - cbn [map] in Hno.
    assert (E : String.eqb (rule_name x) name = false).
    { apply String.eqb_neq. intros E. apply Hno. now left. }
    assert (Hrest : ~ In name (map rule_name rules)).
    { intros Hin. apply Hno. now right. }
    destruct (IH Hrest) as [Hv [Ht Hf]]. cbv zeta in Hv, Ht, Hf.
    step. rewrite E. cbn [value ret trace final app].
    rewrite Hv, Ht, Hf. repeat split.
Qed.

Lemma fwrules_create_nics_no_match name server_name nic_name URL_SERVERS
  nics (s : state World) :
  (forall nic, In nic nics -> c_name nic = nic_name ->
     exists rules, firewallrules nic = Some rules /\
                   has_duplicates (map rule_name rules) = false /\
                   ~ In name (map rule_name rules)) ->
  let r := fwrules_create_nics remote name server_name nic_name URL_SERVERS
             nics s in
  value r = Ok tt /\ trace r = [] /\ final r = s.
Proof.
  induction nics as [|nic nics IH]; intros Hn; cbv zeta;
    cbn [fwrules_create_nics].
  - repeat split.
  - assert (Hrest : forall n, In n nics -> c_name n = nic_name ->
              exists rules, firewallrules n = Some rules /\
                            has_duplicates (map rule_name rules) = false /\
                            ~ In name (map rule_name rules)).
    { intros n Hin. apply Hn. now right. }
    destruct (IH Hrest) as [Hv [Ht Hf]]. cbv zeta in Hv, Ht, Hf.
    step. destruct (String.eqb nic_name (c_name nic)) eqn:E.
    + apply String.eqb_eq in E.
      destruct (Hn nic (or_introl eq_refl) (eq_sym E))
        as [rules [-> [-> Hno]]].
      destruct (@fwrules_create_rules_no_match name server_name nic_name
                  URL_SERVERS rules s Hno) as [Hv1 [Ht1 Hf1]].
      cbv zeta in Hv1, Ht1, Hf1.
      rewrite Hv1, Ht1, Hf1. cbn [app]. rewrite Hv, Ht, Hf. repeat split.
    + cbn [value ret trace final app]. rewrite Hv, Ht, Hf. repeat split.
Qed.

(** X16.  [fwrules_create_single] does not reject a rule name, or a NIC
    name, that is not declared: when the server guard passes and every
    declaration of [nic_name] has the key "firewallrules", with rule names
    that are distinct and none of them [name] (in particular when no NIC is
    called [nic_name]), the call completes, having only read: no POST, no
    creation announced. *)
Theorem fwrules_create_single_accepts_undeclared_names
  (name server_name nic_name : string) (s : state World) (jf : json_file) :
  lookup (server_name ++ ".json") (json_files s) = Some jf ->
  guard_passes remote DATACENTER server_name s = true ->
  (forall nic, In nic (declared_nics jf) -> c_name nic = nic_name ->
     exists rules, firewallrules nic = Some rules /\
                   has_duplicates (map rule_name rules) = false /\
                   ~ In name (map rule_name rules)) ->
  let r := fwrules_create_single remote DATACENTER name server_name nic_name
             s in
  value r = Ok tt /\ Forall harmless (trace r).
Proof.
  intros Hjf Hguard Hn. cbv zeta. revert Hguard.
  unfold fwrules_create_single, guard_passes. cbv zeta.
  pose proof (name_to_href_harmless remote DATACENTER URL_DATACENTERS s) as Hq1.
  step.
  destruct (value (name_to_href remote DATACENTER URL_DATACENTERS s))
    as [dc|e]; [|discriminate].
  set (s1 := final (name_to_href remote DATACENTER URL_DATACENTERS s)) in *.
  pose proof (server_exists_harmless remote server_name (dc ++ "/servers") s1)
    as Hq2.
  step.
  destruct (value (server_exists remote server_name (dc ++ "/servers") s1))
    as [[|]|e]; try discriminate. intros _. cbn [negb].
  set (s2 := final (server_exists remote server_name (dc ++ "/servers") s1))
    in *.
  assert (Hjf2 : lookup (server_name ++ ".json") (json_files s2) = Some jf).
  { unfold s2, s1. now rewrite server_exists_keeps, name_to_href_keeps. }
  step. rewrite (json_files_get_run _ _ Hjf2). cbn [value trace final app].
  destruct (@fwrules_create_nics_no_match name server_name nic_name
              (dc ++ "/servers")%string
              (nics jf ++ entities_nics (server jf)) s2 Hn)
    as [Hv [Ht _]].
  cbv zeta in Hv, Ht. rewrite Hv, Ht, app_nil_r.
  split; [reflexivity|]. apply Forall_app. now split.
Qed.

Lemma fwrules_create_nics_completes name server_name nic_name URL_SERVERS
  nics : forall s : state World,
  value (fwrules_create_nics remote name server_name nic_name URL_SERVERS
           nics s) = Ok tt ->
  forall nic, In nic nics -> c_name nic = nic_name ->
              firewallrules nic <> None.
Proof.
  induction nics as [|n nics IH]; intros s Hok nic Hin Hname;
    [destruct Hin|].
  revert Hok. cbn [fwrules_create_nics]. step.
  destruct Hin as [->|Hin].
  - rewrite <- Hname, String.eqb_refl.
    destruct (firewallrules nic); [discriminate|].
    cbn [value exit]. discriminate.
  - destruct (String.eqb nic_name (c_name n)).
    + destruct (firewallrules n) as [rules|]; [|discriminate].
      destruct (has_duplicates (map rule_name rules)).
      * step. cbn [value print emit exit final]. discriminate.
      * destruct (value (fwrules_create_rules remote name server_name
                           nic_name URL_SERVERS rules s)) as [[]|e];
          [|discriminate].
        intros Hok. exact (IH _ Hok nic Hin Hname).
    + cbn [value ret final]. intros Hok. exact (IH _ Hok nic Hin Hname).
Qed.

Lemma fwrules_create_single_completes name server_name nic_name
  (s : state World) jf :
  lookup (server_name ++ ".json") (json_files s) = Some jf ->
  value (fwrules_create_single remote DATACENTER name server_name nic_name s)
  = Ok tt ->
  forall nic, In nic (declared_nics jf) -> c_name nic = nic_name ->
              firewallrules nic <> None.
Proof.
  intros Hjf. unfold fwrules_create_single. cbv zeta. step.
  destruct (value (name_to_href remote DATACENTER URL_DATACENTERS s))
    as [dc|e]; [|discriminate].
  set (s1 := final (name_to_href remote DATACENTER URL_DATACENTERS s)) in *.
  step.
  destruct (value (server_exists remote server_name (dc ++ "/servers") s1))
    as [[|]|e]; try discriminate. cbn [negb].
  set (s2 := final (server_exists remote server_name (dc ++ "/servers") s1))
    in *.
  assert (Hjf2 : lookup (server_name ++ ".json") (json_files s2) = Some jf).
  { unfold s2, s1. now rewrite server_exists_keeps, name_to_href_keeps. }
  step. rewrite (json_files_get_run _ _ Hjf2). cbn [value trace final].
  apply fwrules_create_nics_completes.
Qed.

Lemma fwrules_create_each_completes server_name nic_name jf rules :
  forall s : state World,
  lookup (server_name ++ ".json") (json_files s) = Some jf ->
  value (fwrules_create_each remote DATACENTER server_name nic_name rules s)
  = Ok tt ->
  rules = [] \/
  forall nic, In nic (declared_nics jf) -> c_name nic = nic_name ->
              firewallrules nic <> None.
Proof.
  intros s Hjf. destruct rules as [|fr rules]; [now left|].
  cbn [fwrules_create_each]. step.
  destruct (value (fwrules_create_single remote DATACENTER (rule_name fr)
                     server_name nic_name s)) as [[]|e] eqn:Hv;
    [|discriminate].
  intros _. right.
  exact (@fwrules_create_single_completes (rule_name fr) server_name nic_name
           s jf Hjf Hv).
Qed.

Lemma fwrules_create_all_completes server_name jf outer :
  forall s : state World,
  lookup (server_name ++ ".json") (json_files s) = Some jf ->
  value (fwrules_create_all remote DATACENTER server_name outer s) = Ok tt ->
  forall nic_a fr rules nic_b,
    In nic_a outer -> firewallrules nic_a = Some (fr :: rules) ->
    In nic_b (declared_nics jf) -> c_name nic_b = c_name nic_a ->
    firewallrules nic_b <> None.
Proof.
  induction outer as [|n outer IH]; intros s Hjf Hok nic_a fr rules nic_b
    Ha Hfa Hb Hname; [destruct Ha|].
  revert Hok. cbn [fwrules_create_all]. step.
  destruct (firewallrules n) as [rs|] eqn:Hn.
  - pose proof (fwrules_create_each_keeps remote DATACENTER server_name
                  (c_name n) rs s) as Hk.
    pose proof (@fwrules_create_each_completes server_name (c_name n) jf rs
                  s Hjf) as Hc.
    destruct (value (fwrules_create_each remote DATACENTER server_name
                       (c_name n) rs s)) as [[]|e]; [|discriminate].
    intros Hok. destruct Ha as [->|Ha].
    + destruct (Hc eq_refl) as [Hnil|Hall].
      * rewrite Hfa in Hn. congruence.
      * now apply Hall.
    + apply (IH _ (eq_trans (f_equal (lookup _) Hk) Hjf) Hok
                nic_a fr rules nic_b Ha Hfa Hb Hname).
  - cbn [value ret final]. intros Hok. destruct Ha as [->|Ha].
    + congruence.
    + exact (IH _ Hjf Hok nic_a fr rules nic_b Ha Hfa Hb Hname).
Qed.

(** X17.  [fwrules_create] skips a NIC without the key ["firewallrules"],
    but [fwrules_create_single] reads the key of every declaration of the
    NIC name it is called for.  So when a NIC name is declared twice, once
    with at least one rule and once without the key, the synchronization
    never completes. *)
Theorem fwrules_create_fails_on_half_declared_nic
  (server_name : string) (s : state World) (jf : json_file)
  (nic_a nic_b : component) (fr : rule) (rules : list rule) :
  lookup (server_name ++ ".json") (json_files s) = Some jf ->
  In nic_a (declared_nics jf) -> In nic_b (declared_nics jf) ->
  c_name nic_b = c_name nic_a ->
  firewallrules nic_a = Some (fr :: rules) ->
  firewallrules nic_b = None ->
  exists e, value (fwrules_create remote DATACENTER server_name s) = Fail e.
Proof.
  intros Hjf Ha Hb Hname Hfa Hfb.
  destruct (value (fwrules_create remote DATACENTER server_name s))
    as [[]|e] eqn:Hok; [exfalso | now exists e].
  revert Hok. unfold fwrules_create. step.
  rewrite (json_files_get_run _ _ Hjf). cbn [value trace final].
  intros Hok.
  exact (@fwrules_create_all_completes server_name jf
           (nics jf ++ entities_nics (server jf)) s Hjf Hok
           nic_a fr rules nic_b Ha Hfa Hb Hname Hfb).
Qed.

End Rules.

Lemma fwrules_create_without_rules_witness :
  let s := start [("web1.json", web1_lan_once [])] in
  let r := fwrules_create (static cloud) "fra" "web1" s in
  value r = Ok tt /\ trace r = [] /\ final r = s.
Proof.
  apply (@fwrules_create_without_rules_does_nothing
           nat (static cloud) "fra" "web1"
           (start [("web1.json", web1_lan_once [])]) (web1_lan_once [])).
  - reflexivity.
  - intros nic [<-|[]]. right. reflexivity.
Defined.

Lemma fwrules_create_single_accepts_undeclared_witness :
  let r := fwrules_create_single (static cloud) "fra" "dns" "web1" "lan"
             (start [("web1.json", web1_lan_once [ssh; http])]) in
  value r = Ok tt /\ Forall harmless (trace r).
Proof.
  apply (@fwrules_create_single_accepts_undeclared_names
           nat (static cloud) "fra" "dns" "web1" "lan"
           (start [("web1.json", web1_lan_once [ssh; http])])
           (web1_lan_once [ssh; http])).
  - reflexivity.
  - vm_compute. reflexivity.
  - intros nic [<-|[]] _. exists [ssh; http].
    split; [reflexivity|]. split; [vm_compute; reflexivity|].
    intros [H|[H|[]]]; discriminate H.
Defined.

Lemma fwrules_create_fails_on_half_declared_witness :
  exists e, value (fwrules_create (static cloud) "fra" "web1"
                     (start [("web1.json", web1_lan_half [ssh])])) = Fail e.
Proof.
  apply (@fwrules_create_fails_on_half_declared_nic
           nat (static cloud) "fra" "web1"
           (start [("web1.json", web1_lan_half [ssh])])
           (web1_lan_half [ssh])
           (mkComponent (plain "lan") (Some [ssh]))
           (mkComponent (plain "lan") None) ssh []).
  - reflexivity.
  - left. reflexivity.
  - right. left. reflexivity.
  - reflexivity.
  - reflexivity.
  - reflexivity.
Defined.

(** * Properties of the helpers *)

(** ** Strings *)

Lemma append_assoc (a b c : string) :
  ((a ++ b) ++ c)%string = (a ++ b ++ c)%string.
Proof. induction a as [|x a IH]; cbn; [reflexivity | now rewrite IH]. Qed.

Lemma append_nil_r (a : string) : (a ++ "")%string = a.
Proof. induction a as [|x a IH]; cbn; [reflexivity | now rewrite IH]. Qed.

Lemma all_chars_app p (a b : string) :
  all_chars p (a ++ b) = all_chars p a && all_chars p b.
Proof.
  induction a as [|x a IH]; cbn; [reflexivity|].
  now rewrite IH, andb_assoc.
Qed.

Lemma all_chars_impl (p q : ascii -> bool) (s : string) :
  (forall c, p c = true -> q c = true) ->
  all_chars p s = true -> all_chars q s = true.
Proof.
  intros Hpq. induction s as [|c s IH]; cbn; [reflexivity|].
  intros H. apply andb_true_iff in H. destruct H as [Hc Hs].
  now rewrite (Hpq c Hc), (IH Hs).
Qed.

Lemma rstrip_spaces (w : string) :
  all_chars isspace w = true -> rstrip w = EmptyString.
Proof.
  induction w as [|c w IH]; cbn [all_chars rstrip]; [reflexivity|].
  intros H. apply andb_true_iff in H. destruct H as [Hc Hw].
  now rewrite (IH Hw), Hc.
Qed.

Lemma rstrip_app_spaces (s w : string) :
  all_chars isspace w = true -> rstrip (s ++ w) = rstrip s.
Proof.
  intros Hw. induction s as [|c s IH]; cbn [append rstrip].
  - now apply rstrip_spaces.
  - now rewrite IH.
Qed.

Lemma rstrip_app_kept (a b : string) :
  rstrip b <> EmptyString -> rstrip (a ++ b) = (a ++ rstrip b)%string.
Proof.
  intros Hb. induction a as [|c a IH]; cbn [append rstrip]; [reflexivity|].
  rewrite IH. destruct (a ++ rstrip b)%string as [|c' r] eqn:E;
    [|reflexivity].
  destruct a; cbn in E; [contradiction | discriminate].
Qed.

Lemma lstrip_app_spaces (w s : string) :
  all_chars isspace w = true -> lstrip (w ++ s) = lstrip s.
Proof.
  induction w as [|c w IH]; cbn [all_chars append lstrip]; [reflexivity|].
  intros H. apply andb_true_iff in H. destruct H as [Hc Hw].
  now rewrite Hc, IH.
Qed.

Lemma strip_padded (w1 name w2 : string) :
  all_chars isspace w1 = true -> all_chars isspace w2 = true ->
  lstrip name = name -> rstrip name = name ->
  strip (w1 ++ name ++ w2) = name.
Proof.
  intros H1 H2 Hl Hr. unfold strip.
  rewrite <- append_assoc, (@rstrip_app_spaces _ w2 H2).
  destruct name as [|c name].
  - rewrite append_nil_r, (@rstrip_spaces w1 H1). reflexivity.
  - rewrite rstrip_app_kept by (rewrite Hr; discriminate).
    now rewrite Hr, (@lstrip_app_spaces w1 _ H1).
Qed.

Lemma prefix_nil_l (s : string) : String.prefix "" s = true.
Proof. now destruct s. Qed.

Lemma before_cons (sep : string) (c : ascii) (s : string) :
  before sep (String c s) =
  if String.prefix sep (String c s) then EmptyString
  else String c (before sep s).
Proof. reflexivity. Qed.

Lemma prefix_cons (c0 : ascii) (sep' : string) (c : ascii) (s : string) :
  String.prefix (String c0 sep') (String c s) =
  if Ascii.eqb c0 c then String.prefix sep' s else false.
Proof.
  cbn [String.prefix]. destruct (ascii_dec c0 c) as [->|Hne].
  - now rewrite Ascii.eqb_refl.
  - apply Ascii.eqb_neq in Hne. now rewrite Hne.
Qed.

Lemma before_found (c0 : ascii) (sep' m rest : string) :
  all_chars (fun c => negb (Ascii.eqb c c0)) m = true ->
  String.prefix (String c0 sep') (String c0 sep' ++ rest) = true ->
  before (String c0 sep') (m ++ String c0 sep' ++ rest) = m.
Proof.
  intros Hm Hp.
  assert (Htail : exists t, (String c0 sep' ++ rest)%string = String c0 t)
    by (cbn [append]; eauto).
  revert Hp Htail. generalize (String c0 sep' ++ rest)%string. intros tail Hp
    [t Htail].
  induction m as [|c m IH]; cbn [append].
  - rewrite Htail in *. now rewrite before_cons, Hp.
  - cbn [all_chars] in Hm. apply andb_true_iff in Hm. destruct Hm as [Hc Hm].
    rewrite before_cons, prefix_cons.
    apply negb_true_iff in Hc. rewrite Ascii.eqb_sym, Hc.
    now rewrite (IH Hm).
Qed.

Lemma prefix_app (a b : string) : String.prefix a (a ++ b) = true.
Proof.
  induction a as [|c a IH]; cbn [append]; [apply prefix_nil_l|].
  cbn [String.prefix]. destruct (ascii_dec c c); [exact IH | contradiction].
Qed.

(** ** readlines *)

Lemma readlines_join (text : string) :
  fold_right append EmptyString (readlines text) = text.
Proof.
  induction text as [|c text IH]; cbn [readlines]; [reflexivity|].
  destruct (Ascii.eqb c newline).
  - cbn [fold_right append]. now rewrite IH.
  - destruct (readlines text) as [|line lines]; cbn [fold_right append] in *;
      now rewrite <- IH.
Qed.

Lemma readlines_nil (text : string) : readlines text = [] -> text = EmptyString.
Proof.
  intros H. rewrite <- (readlines_join text), H. reflexivity.
Qed.

Lemma readlines_line (d rest : string) :
  all_chars (fun c => negb (Ascii.eqb c newline)) d = true ->
  readlines (d ++ String newline rest) =
  (d ++ String newline EmptyString)%string :: readlines rest.
Proof.
  induction d as [|c d IH]; cbn [all_chars append]; intros H.
  - cbn [readlines]. now rewrite Ascii.eqb_refl.
  - apply andb_true_iff in H. destruct H as [Hc Hd].
    cbn [readlines]. apply negb_true_iff in Hc. rewrite Hc, (IH Hd).
    reflexivity.
Qed.

Lemma readlines_app (a b : string) :
  readlines ((a ++ String newline EmptyString) ++ b) =
  readlines (a ++ String newline EmptyString) ++ readlines b.
Proof.
  induction a as [|c a IH]; cbn [append].
  - cbn [readlines]. rewrite Ascii.eqb_refl. reflexivity.
  - cbn [readlines]. destruct (Ascii.eqb c newline).
    + now rewrite IH.
    + rewrite IH.
      destruct (readlines (a ++ String newline EmptyString)) as [|l ls] eqn:E;
        [|reflexivity].
      apply readlines_nil in E. destruct a; discriminate E.
Qed.

Lemma endswith_app (s suffix : string) :
  endswith s suffix = true -> exists p, s = (p ++ suffix)%string.
Proof.
  induction s as [|c s IH]; cbn [endswith].
  - destruct (String.eqb_spec "" suffix) as [<-|_]; [|discriminate].
    intros _. now exists EmptyString.
  - destruct (String.eqb_spec (String c s) suffix) as [<-|_].
    + intros _. now exists EmptyString.
    + intros H. destruct (IH H) as [p ->]. now exists (String c p).
Qed.

Section HelperFacts.

Variable DATACENTER : string.
Variable isfile : string -> bool.
Variable open_read : string -> outcome string.
Variable b64encode : string -> string.

Lemma temp_braces_verbatim (lines : list string) :
  Forall (fun line => startswith line "{{" = false) lines ->
  temp_braces DATACENTER isfile open_read lines =
  Returns (fold_right append EmptyString lines).
Proof.
  induction 1 as [|line lines Hline _ IH]; cbn [temp_braces fold_right];
    [reflexivity|].
  now rewrite Hline, IH.
Qed.

Lemma temp_braces_app (l1 l2 : list string) :
  temp_braces DATACENTER isfile open_read (l1 ++ l2) =
  then_text (temp_braces DATACENTER isfile open_read l1)
            (temp_braces DATACENTER isfile open_read l2).
Proof.
  induction l1 as [|line l1 IH]; cbn [app temp_braces then_text].
  - destruct (temp_braces DATACENTER isfile open_read l2); reflexivity.
  - destruct (startswith line "{{").
    + cbv zeta. destruct (open_read _) as [text|e]; [|reflexivity].
      rewrite IH.
      destruct (temp_braces DATACENTER isfile open_read l1); cbn [then_text];
        [|reflexivity].
      destruct (temp_braces DATACENTER isfile open_read l2);
        [now rewrite append_assoc | reflexivity].
    + rewrite IH.
      destruct (temp_braces DATACENTER isfile open_read l1); cbn [then_text];
        [|reflexivity].
      destruct (temp_braces DATACENTER isfile open_read l2);
        [now rewrite append_assoc | reflexivity].
Qed.

(** X18.  A template none of whose lines starts with "{{" is passed through:
    [user_data] returns the encoding of the text of the file, as it is (or
    raises when a character is not ASCII). *)
Theorem user_data_without_directive_encodes_template
  (dir file_name template : string) :
  open_read (dir ++ file_name)%string = Returns template ->
  Forall (fun line => startswith line "{{" = false) (readlines template) ->
  user_data DATACENTER isfile open_read b64encode dir file_name =
  if all_chars isascii template then Returns (b64encode template)
  else Raises UnicodeEncodeError.
Proof.
  intros Hopen Hlines. unfold user_data, server_yaml. rewrite Hopen.
  rewrite (@temp_braces_verbatim _ Hlines), readlines_join. reflexivity.
Qed.

(** X19.  The template is assembled line by line: the text assembled from a
    template that continues after the end of a line is the text assembled
    from the part up to there, followed by the text assembled from the rest;
    the first exception of the two is the exception of the whole. *)
Theorem server_yaml_line_by_line (a b : string) :
  endswith a (String newline EmptyString) = true ->
  server_yaml DATACENTER isfile open_read (a ++ b) =
  then_text (server_yaml DATACENTER isfile open_read a)
            (server_yaml DATACENTER isfile open_read b).
Proof.
  intros Hend. destruct (@endswith_app _ _ Hend) as [p ->].
  unfold server_yaml. rewrite readlines_app. apply temp_braces_app.
Qed.

(** X20.  A line that starts with "{{" is replaced as a whole by the text of
    the include file it names: white space around the name does not count,
    whatever follows the closing braces is dropped, the end of the line
    included; the file is taken from the includes of the datacenter when it
    is a file there, from /datacenters/includes/ otherwise, and when that
    file cannot be opened or read, the exception of the attempt is the
    exception of the call. *)
Theorem server_yaml_replaces_directive_line
  (w1 name w2 junk rest : string) :
  all_chars (fun c => isspace c && negb (Ascii.eqb c newline)) w1 = true ->
  all_chars (fun c => isspace c && negb (Ascii.eqb c newline)) w2 = true ->
  all_chars (fun c => negb (Ascii.eqb c "}") && negb (Ascii.eqb c newline))
            name = true ->
  lstrip name = name -> rstrip name = name ->
  all_chars (fun c => negb (Ascii.eqb c newline)) junk = true ->
  let path :=
    if isfile ("/datacenters/" ++ DATACENTER ++ "/includes/" ++ name)%string
    then ("/datacenters/" ++ DATACENTER ++ "/includes/" ++ name)%string
    else ("/datacenters/includes/" ++ name)%string in
  server_yaml DATACENTER isfile open_read
    ("{{" ++ w1 ++ name ++ w2 ++ "}}" ++ junk ++ String newline rest) =
  match open_read path with
  | Returns text =>
      then_text (Returns text) (server_yaml DATACENTER isfile open_read rest)
  | Raises e => Raises e
  end.
Proof.
  intros Hw1 Hw2 Hname Hl Hr Hjunk. cbv zeta.
  assert (Hsp : forall w,
            all_chars (fun c => isspace c && negb (Ascii.eqb c newline)) w
            = true ->
            all_chars isspace w = true /\
            all_chars (fun c => negb (Ascii.eqb c newline)) w = true /\
            all_chars (fun c => negb (Ascii.eqb c "}")) w = true).
  { intros w Hw. repeat split; revert Hw; apply all_chars_impl; intros c Hc;
      apply andb_true_iff in Hc; destruct Hc as [Hs Hn]; try assumption.
    destruct (Ascii.eqb_spec c "}") as [->|_]; [discriminate Hs | reflexivity]. }
  destruct (Hsp w1 Hw1) as [Hs1 [Hn1 Hb1]].
  destruct (Hsp w2 Hw2) as [Hs2 [Hn2 Hb2]].
  assert (Hnb : all_chars (fun c => negb (Ascii.eqb c "}")) name = true).
  { revert Hname. apply all_chars_impl. intros c Hc.
    now apply andb_true_iff in Hc. }
  assert (Hnn : all_chars (fun c => negb (Ascii.eqb c newline)) name = true).
  { revert Hname. apply all_chars_impl. intros c Hc.
    now apply andb_true_iff in Hc. }
  set (inner := (w1 ++ name ++ w2)%string).
  set (line := ("{{" ++ inner ++ "}}" ++ junk)%string).
  assert (Eline : ("{{" ++ w1 ++ name ++ w2 ++ "}}" ++ junk
                   ++ String newline rest)%string
                  = (line ++ String newline rest)%string).
  { unfold line, inner. cbn [append]. rewrite !append_assoc.
    cbn [append]. rewrite ?append_assoc. reflexivity. }
  rewrite Eline. unfold server_yaml.
  assert (Hline : all_chars (fun c => negb (Ascii.eqb c newline)) line = true).
  { unfold line, inner. cbn [append all_chars].
    rewrite !all_chars_app, Hn1, Hnn, Hn2. cbn [all_chars].
    now rewrite Hjunk. }
  rewrite (@readlines_line line rest Hline). cbn [temp_braces].
  assert (Hstart : startswith (line ++ String newline EmptyString) "{{" = true).
  { unfold startswith, line. cbn [append String.prefix].
    destruct (ascii_dec "{" "{"); [|contradiction].
    apply prefix_nil_l. }
  rewrite Hstart. cbv zeta.
  assert (Hfile : includes_file_of (line ++ String newline EmptyString)
                  = name).
  { unfold includes_file_of, line. cbn [append slice_from].
    rewrite append_assoc.
    change (String "}" (String "}" junk) ++ String newline EmptyString)%string
      with ("}}" ++ junk ++ String newline EmptyString)%string.
    rewrite (@before_found "}" "}" inner (junk ++ String newline "")).
    - unfold inner. now apply strip_padded.
    - unfold inner. now rewrite !all_chars_app, Hb1, Hnb, Hb2.
    - apply prefix_app. }
  rewrite Hfile. unfold includes_path. cbv zeta.
  rewrite !append_assoc.
  destruct (isfile _); cbn [negb]; rewrite ?append_assoc;
    (destruct (open_read _); [|reflexivity]);
    cbn [then_text]; reflexivity.
Qed.

Lemma all_chars_rstrip_ascii (s : string) :
  all_chars isascii s = true -> all_chars isascii (rstrip s) = true.
Proof.
  induction s as [|c s IH]; cbn [all_chars rstrip]; [reflexivity|].
  intros H. apply andb_true_iff in H. destruct H as [Hc Hs].
  specialize (IH Hs). destruct (rstrip s) as [|c' r].
  - destruct (isspace c); cbn [all_chars]; [reflexivity | now rewrite Hc].
  - cbn [all_chars] in *. now rewrite Hc, IH.
Qed.

(** X21.  White space at the end of the user name, of the password or of the
    contract number (the newline of a line read from a file, say) does not
    change the headers. *)
Theorem header_function_ignores_trailing_space
  (username password contract_nr w1 w2 w3 : string) :
  all_chars isspace w1 = true ->
  all_chars isspace w2 = true ->
  all_chars isspace w3 = true ->
  header_function b64encode (username ++ w1) (password ++ w2)
                  (contract_nr ++ w3) =
  header_function b64encode username password contract_nr.
Proof.
  intros H1 H2 H3. unfold header_function.
  now rewrite !rstrip_app_spaces.
Qed.

End HelperFacts.

Lemma user_data_without_directive_witness :
  user_data "fra" files_isfile files_open_read tagged
            "/datacenters/fra/cloud-configs/" "plain.yaml" =
  Returns (tagged ("#cloud-config" ++ String newline
                   (" {{ users.yaml }}" ++ String newline EmptyString))).
Proof.
  apply (@user_data_without_directive_encodes_template
           "fra" files_isfile files_open_read tagged
           "/datacenters/fra/cloud-configs/" "plain.yaml"
           ("#cloud-config" ++ String newline
            (" {{ users.yaml }}" ++ String newline EmptyString))).
  - reflexivity.
  - vm_compute. repeat constructor.
Defined.

Lemma server_yaml_line_by_line_witness :
  server_yaml "fra" files_isfile files_open_read
    (("#cloud-config" ++ String newline EmptyString)
     ++ ("{{motd.yaml}}" ++ String newline EmptyString)) =
  Returns ("#cloud-config" ++ String newline
           ("motd: hello" ++ String newline EmptyString))%string.
Proof.
  apply (@server_yaml_line_by_line "fra" files_isfile files_open_read
           ("#cloud-config" ++ String newline EmptyString)
           ("{{motd.yaml}}" ++ String newline EmptyString)).
  reflexivity.
Defined.

Lemma server_yaml_replaces_directive_line_witness :
  server_yaml "fra" files_isfile files_open_read
    ("{{" ++ " " ++ "users.yaml" ++ " " ++ "}}" ++ " # accounts"
     ++ String newline "runcmd: []") =
  Returns ("users: [fra]" ++ String newline "runcmd: []")%string.
Proof.
  apply (@server_yaml_replaces_directive_line
           "fra" files_isfile files_open_read
           " " "users.yaml" " " " # accounts" "runcmd: []");
    reflexivity.
Defined.

Lemma header_function_ignores_trailing_space_witness :
  header_function tagged ("alice" ++ String newline EmptyString)
                  ("secret" ++ String newline EmptyString) ("42" ++ " ") =
  header_function tagged "alice" "secret" "42".
Proof.
  apply (@header_function_ignores_trailing_space tagged
           "alice" "secret" "42" (String newline EmptyString)
           (String newline EmptyString) " ");
    reflexivity.
Defined.

(** ** math_func *)

Lemma yes_is_not_help (s : string) :
  re_match_word "Y" "y" "es" s = true ->
  re_match_word "H" "h" "elp" s = false.
Proof.
  unfold re_match_word at 1. unfold mem. intros H.
  apply existsb_exists in H. destruct H as [w [Hin Heq]].
  apply String.eqb_eq in Heq. subst w. cbn [app map append] in Hin.
  repeat (destruct Hin as [<-|Hin]; [reflexivity|]). destruct Hin.
Qed.

Lemma yes_is_not_empty (s : string) :
  re_match_word "Y" "y" "es" s = true -> String.eqb s EmptyString = false.
Proof.
  destruct s; [discriminate | reflexivity].
Qed.

Section MathFuncFacts.

Variable environ : string -> option string.
Variable int : string -> option Z.
Variable rng : nat -> nat.

Lemma math_func_returns (type : option string) (frames : nat) :
  forall inputs,
  fst (math_func environ int rng frames type inputs) = Returns tt ->
  exists skipped yes answer rest,
    inputs = skipped ++ yes :: answer :: rest /\
    length skipped < frames /\
    forallb asks_again skipped = true /\
    re_match_word "Y" "y" "es" yes = true /\
    answer <> EmptyString /\
    int answer = Some (problem_result rng).
Proof.
  induction frames as [|frames IH]; intros inputs; cbn [math_func].
  - discriminate.
  - destruct (question environ type) as [q|e]; [|discriminate].
    destruct inputs as [|line inputs']; [discriminate|].
    cbv zeta.
    assert (Hagain : forall b,
              fst (math_func environ int rng frames type inputs') = Returns tt ->
              asks_again line = b -> b = true ->
              exists skipped yes answer rest,
                line :: inputs' = skipped ++ yes :: answer :: rest /\
                length skipped < S frames /\
                forallb asks_again skipped = true /\
                re_match_word "Y" "y" "es" yes = true /\
                answer <> EmptyString /\
                int answer = Some (problem_result rng)).
    { intros b H Hb ->.
      destruct (IH _ H) as [sk [y [a [r [-> [Hlen [Hsk [Hy [Ha Hi]]]]]]]]].
      exists (line :: sk), y, a, r. cbn [app length forallb].
      rewrite Hb, Hsk. repeat split; auto. lia. }
    unfold asks_again in Hagain. cbv zeta in Hagain.
    destruct (re_match_word "H" "h" "elp"
                (if String.eqb line EmptyString then "N" else line)) eqn:Hh.
    + cbn [fst]. intros H. exact (Hagain _ H eq_refl eq_refl).
    + destruct (re_match_word "Y" "y" "es"
                  (if String.eqb line EmptyString then "N" else line)) eqn:Hy.
      * cbn [fst]. unfold challenge.
        destruct inputs' as [|answer rest]; [discriminate|].
        destruct (String.eqb_spec answer EmptyString) as [->|Hne];
          [discriminate|].
        destruct (int answer) as [n|] eqn:Hint; [|discriminate].
        destruct (Z.eqb_spec n (problem_result rng)) as [->|Hn];
          cbn [negb fst]; [|discriminate].
        intros _. exists [], line, answer, rest. cbn [app length forallb].
        repeat split; auto; [lia|].
        destruct (String.eqb line EmptyString); [discriminate Hy | exact Hy].
      * destruct (re_match_word "N" "n" "o"
                    (if String.eqb line EmptyString then "N" else line))
          eqn:Hn; [discriminate|].
        cbn [fst]. intros H. exact (Hagain _ H eq_refl eq_refl).
Qed.

Lemma math_func_confirms (type : option string) (q : string)
  (yes answer : string) (rest : list string) :
  question environ type = Returns q ->
  re_match_word "Y" "y" "es" yes = true ->
  answer <> EmptyString ->
  int answer = Some (problem_result rng) ->
  forall skipped frames,
    length skipped < frames ->
    forallb asks_again skipped = true ->
    fst (math_func environ int rng frames type
           (skipped ++ yes :: answer :: rest)) = Returns tt.
Proof.
  intros Hq Hy Ha Hi.
  induction skipped as [|line skipped IH]; intros [|frames] Hlen Hsk;
    try (cbn [length] in Hlen; lia); cbn [math_func app]; rewrite Hq;
    cbv zeta.
  - rewrite (yes_is_not_empty _ Hy), (yes_is_not_help _ Hy), Hy.
    cbn [fst challenge].
    apply String.eqb_neq in Ha. rewrite Ha, Hi, Z.eqb_refl. reflexivity.
  - cbn [forallb] in Hsk. apply andb_true_iff in Hsk.
    destruct Hsk as [Hline Hsk].
    cbn [length] in Hlen. apply PeanoNat.lt_S_n in Hlen.
    specialize (IH frames Hlen Hsk).
    unfold asks_again in Hline. cbv zeta in Hline.
    destruct (re_match_word "H" "h" "elp"
                (if String.eqb line EmptyString then "N" else line));
      [exact IH|].
    cbn [orb] in Hline. apply negb_true_iff, orb_false_iff in Hline.
    destruct Hline as [-> ->]. exact IH.
Qed.

(** X22.  [math_func] returns -- the deletion goes on -- exactly when, after
    any number of lines that make it ask again (a request for help, or
    anything that is neither a yes nor a no), a yes is read and the next
    line is not empty and is read by [int] as the result of the problem; the
    lines before the yes have to fit into the frames left.  Everything else
    ends in an exception: a no or an empty line ([SystemExit]), a wrong
    answer, the end of the input. *)
Theorem math_func_returns_exactly_on_the_result
  (type : option string) (q : string) (frames : nat) (inputs : list string) :
  question environ type = Returns q ->
  fst (math_func environ int rng frames type inputs) = Returns tt <->
  exists skipped yes answer rest,
    inputs = skipped ++ yes :: answer :: rest /\
    length skipped < frames /\
    forallb asks_again skipped = true /\
    re_match_word "Y" "y" "es" yes = true /\
    answer <> EmptyString /\
    int answer = Some (problem_result rng).
Proof.
  intros Hq. split.
  - apply math_func_returns.
  - intros [skipped [yes [answer [rest [-> [Hlen [Hsk [Hy [Ha Hi]]]]]]]]].
    exact (@math_func_confirms type q yes answer rest Hq Hy Ha Hi
             skipped frames Hlen Hsk).
Qed.

End MathFuncFacts.

Lemma math_func_returns_exactly_witness :
  fst (math_func environ_web1 int_digit draws_two_times_3 5 None
         ["maybe"; "h"; "yes"; "6"]) = Returns tt.
Proof.
  apply (proj2 (@math_func_returns_exactly_on_the_result
                  environ_web1 int_digit draws_two_times_3 None
                  "Are you sure you want to delete the server web1? [y/N]: "
                  5 ["maybe"; "h"; "yes"; "6"] eq_refl)).
  exists ["maybe"; "h"], "yes", "6", [].
  split; [reflexivity|]. split; [cbn; lia|]. split; [reflexivity|].
  split; [reflexivity|]. split; [discriminate | reflexivity].
Defined.

(** * Properties of the deletion of firewall rules *)

Lemma engine_events_app tr1 tr2 :
  engine_events (tr1 ++ tr2) = engine_events tr1 ++ engine_events tr2.
Proof.
  induction tr1 as [|[e|? ? ?] tr1 IH]; cbn [app engine_events];
    [reflexivity | now rewrite IH | exact IH].
Qed.

Lemma engine_events_lifted tr : engine_events (map Engine tr) = tr.
Proof. induction tr as [|e tr IH]; cbn; [reflexivity | now rewrite IH]. Qed.

Section DeletionFacts.

Context {World : Type}.
Variable remote : Remote World.

Local Abbreviation F := (F World).

Lemma fw_trace_bind {A B} (m : F A) (f : A -> F B) (s : state World) :
  fw_trace (fw_bind m f s) =
  fw_trace (m s) ++ match fw_value (m s) with
                    | Ok a => fw_trace (f a (fw_final (m s)))
                    | Fail _ => []
                    end.
Proof.
  unfold fw_bind. destruct (fw_value (m s)); cbn [fw_trace];
    rewrite ?app_nil_r; reflexivity.
Qed.

Lemma fw_value_bind {A B} (m : F A) (f : A -> F B) (s : state World) :
  fw_value (fw_bind m f s) =
  match fw_value (m s) with
  | Ok a => fw_value (f a (fw_final (m s)))
  | Fail e => Fail e
  end.
Proof. unfold fw_bind. destruct (fw_value (m s)); reflexivity. Qed.

Lemma fw_final_bind {A B} (m : F A) (f : A -> F B) (s : state World) :
  fw_final (fw_bind m f s) =
  match fw_value (m s) with
  | Ok a => fw_final (f a (fw_final (m s)))
  | Fail e => fw_final (m s)
  end.
Proof. unfold fw_bind. destruct (fw_value (m s)); reflexivity. Qed.

Lemma fw_emits_bind {A B} P (m : F A) (f : A -> F B) :
  fw_emits P m -> (forall a, fw_emits P (f a)) -> fw_emits P (fw_bind m f).
Proof.
  intros Hm Hf s. rewrite fw_trace_bind. apply Forall_app. split; [apply Hm|].
  destruct (fw_value (m s)); [apply Hf | constructor].
Qed.

Lemma fw_emits_lift {A} (P : fw_event -> Prop) (Q : event -> Prop) (m : M World A) :
  (forall e, Q e -> P (Engine e)) -> emits Q m -> fw_emits P (lift m).
Proof.
  intros HQ Hm s. cbn [lift fw_trace]. apply Forall_map.
  eapply Forall_impl; [exact HQ | apply Hm].
Qed.

Lemma fw_emits_ret {A} P (a : A) : fw_emits P (fw_ret a : F A).
Proof. intros s. constructor. Qed.

Lemma fw_emits_exit {A} P e : fw_emits P (fw_exit e : F A).
Proof. intros s. constructor. Qed.

Lemma fwrules_delete_items_removes server_name nic_name name items :
  fw_emits fw_no_post_no_patch
           (fwrules_delete_items remote server_name nic_name name items).
Proof.
  induction items as [|item items IH]; cbn [fwrules_delete_items].
  - apply fw_emits_ret.
  - apply fw_emits_bind; [|intros fw_rule].
    { apply (@fw_emits_lift _ _ no_post_no_patch); [auto|].
      now apply emits_get. }
    apply fw_emits_bind; [|intros _; exact IH].
    destruct (String.eqb (r_name fw_rule) name); [|apply fw_emits_ret].
    apply fw_emits_bind; [intros s; repeat constructor | intros _].
    apply (@fw_emits_lift _ _ no_post_no_patch); [auto|].
    now apply emits_delete.
Qed.

Lemma fwrules_delete_single_removes api_url server_name nic_name name :
  fw_emits fw_no_post_no_patch
           (fwrules_delete_single remote api_url server_name nic_name name).
Proof.
  assert (Hread : forall A (m : M World A),
            emits harmless m -> fw_emits fw_no_post_no_patch (lift m)).
  { intros A m. apply fw_emits_lift. intros e He. cbn.
    destruct e; cbn in *; tauto. }
  unfold fwrules_delete_single.
  apply fw_emits_bind; [apply Hread, server_exists_harmless | intros found].
  destruct found; cbn [negb]; [|apply fw_emits_exit].
  apply fw_emits_bind; [apply Hread, name_to_href_harmless | intros h].
  apply fw_emits_bind; [apply Hread, name_to_href_harmless | intros nic].
  apply fw_emits_bind; [|intros fw_rules].
  { apply (@fw_emits_lift _ _ no_post_no_patch); [auto|]. now apply emits_get. }
  apply fw_emits_bind; [apply fwrules_delete_items_removes | intros _].
  apply fw_emits_bind; [apply Hread, name_to_href_harmless | intros h'].
  apply Hread, all_available_harmless.
Qed.

Lemma fw_no_post_no_patch_trace tr :
  Forall fw_no_post_no_patch tr ->
  posted (engine_events tr) = [] /\ patched (engine_events tr) = [].
Proof.
  induction 1 as [|e tr He _ [IHp IHd]]; [split; reflexivity|].
  destruct e as [e|]; cbn [engine_events]; [|now split].
  destruct e; cbn in *; auto; destruct He.
Qed.

Lemma deleted_lifted_harmless {A} (m : M World A) (s : state World) :
  emits harmless m ->
  deleted (engine_events (fw_trace (lift m s))) = [].
Proof.
  intros Hm. cbn [lift fw_trace]. rewrite engine_events_lifted.
  apply deleted_harmless, Hm.
Qed.

Section Stateless.

Variable doc : string -> response.
Hypothesis Hdoc : stateless remote doc.

Lemma name_to_href_stateless name api_url (s : state World) :
  value (name_to_href remote name api_url s) =
  match find (fun item => String.eqb (r_name (doc item)) name)
             (r_items (doc api_url)) with
  | Some item => Ok (r_href (doc item))
  | None => Fail NotFound
  end.
Proof.
  unfold name_to_href. step. cbn [value requests_get final].
  rewrite Hdoc. now apply name_to_href_items_first_match.
Qed.

Lemma server_exists_items_stateless server_name items :
  forall s : state World,
  value (server_exists_items remote server_name items s) =
  Ok (existsb (fun item => String.eqb (r_name (doc item)) server_name) items).
Proof.
  induction items as [|item items IH]; intros s;
    cbn [server_exists_items existsb].
  - reflexivity.
  - step. cbn [value requests_get final]. rewrite Hdoc.
    destruct (String.eqb (r_name (doc item)) server_name);
      [reflexivity | apply IH].
Qed.

Lemma server_exists_stateless server_name api_url (s : state World) :
  value (server_exists remote server_name api_url s) =
  Ok (existsb (fun item => String.eqb (r_name (doc item)) server_name)
              (r_items (doc api_url))).
Proof.
  unfold server_exists. step. cbn [value requests_get final].
  rewrite Hdoc. apply server_exists_items_stateless.
Qed.

Lemma fwrules_delete_items_stateless server_name nic_name name items :
  forall s : state World,
  let r := fwrules_delete_items remote server_name nic_name name items s in
  fw_value r = Ok tt /\
  deleted (engine_events (fw_trace r)) =
  filter (fun item => String.eqb (r_name (doc item)) name) items.
Proof.
  induction items as [|item items IH]; intros s; cbv zeta;
    cbn [fwrules_delete_items filter].
  - split; reflexivity.
  - rewrite fw_value_bind, fw_trace_bind.
    cbn [lift requests_get fw_value fw_final fw_trace value final trace map].
    rewrite Hdoc.
    rewrite fw_value_bind, fw_trace_bind.
    destruct (String.eqb (r_name (doc item)) name).
    + cbn [fw_bind print_deleting lift requests_delete fw_value fw_final
           fw_trace value final trace map app engine_events deleted].
      match goal with
      | |- context [fwrules_delete_items remote server_name nic_name name
                      items ?st] => destruct (IH st) as [Hv Hd]
      end.
      cbv zeta in Hv, Hd. rewrite Hv. split; [reflexivity|].
      now rewrite Hd.
    + cbn [fw_ret fw_value fw_final fw_trace app engine_events deleted].
      apply IH.
Qed.

(** X23.  Against a remote side that answers every GET by a fixed document,
    and for a server and a NIC that are found there,
    [fwrules_delete_single] deletes every rule of the live listing of the
    NIC whose document carries the name -- all of them, not only the first,
    in the order of the listing, without consulting [json_files] -- and
    nothing else; it never posts or patches. *)
Theorem fwrules_delete_single_deletes_all_listed_rules_of_that_name
  (api_url server_name nic_name name : string) (s : state World)
  (server_item nic_item : string) :
  find (fun item => String.eqb (r_name (doc item)) server_name)
       (r_items (doc api_url)) = Some server_item ->
  find (fun item => String.eqb (r_name (doc item)) nic_name)
       (r_items (doc (r_href (doc server_item) ++ "/nics"))) = Some nic_item ->
  let r := fwrules_delete_single remote api_url server_name nic_name name s in
  deleted (engine_events (fw_trace r)) =
  filter (fun item => String.eqb (r_name (doc item)) name)
         (r_items (doc (r_href (doc nic_item) ++ "/firewallrules"))) /\
  posted (engine_events (fw_trace r)) = [] /\
  patched (engine_events (fw_trace r)) = [].
Proof.
  intros Hserver Hnic. cbv zeta. split.
  2: { apply fw_no_post_no_patch_trace, fwrules_delete_single_removes. }
  unfold fwrules_delete_single.
  rewrite fw_trace_bind, engine_events_app, deleted_app.
  rewrite (deleted_lifted_harmless _ (@server_exists_harmless _ remote _ _)).
  cbn [lift fw_value fw_final]. rewrite server_exists_stateless.
  assert (Hfound : existsb (fun item => String.eqb (r_name (doc item))
                                                   server_name)
                           (r_items (doc api_url)) = true).
  { apply existsb_exists. exists server_item.
    split; apply (find_some _ _ Hserver). }
  rewrite Hfound. cbn [negb app].
  rewrite fw_trace_bind, engine_events_app, deleted_app.
  rewrite (deleted_lifted_harmless _ (@name_to_href_harmless _ remote _ _)).
  cbn [lift fw_value fw_final]. rewrite name_to_href_stateless, Hserver.
  cbv zeta. cbn [app].
  rewrite fw_trace_bind, engine_events_app, deleted_app.
  rewrite (deleted_lifted_harmless _ (@name_to_href_harmless _ remote _ _)).
  cbn [lift fw_value fw_final]. rewrite name_to_href_stateless, Hnic.
  cbv zeta. cbn [app].
  rewrite fw_trace_bind.
  cbn [lift requests_get fw_value fw_final fw_trace value final trace map
       app engine_events deleted].
  rewrite Hdoc.
  rewrite fw_trace_bind, engine_events_app, deleted_app.
  match goal with
  | |- context [fwrules_delete_items remote server_name nic_name name ?items
                  ?st] =>
      destruct (@fwrules_delete_items_stateless server_name nic_name name
                  items st) as [Hv Hd]
  end.
  cbv zeta in Hv, Hd. rewrite Hv, Hd.
  rewrite fw_trace_bind, engine_events_app, deleted_app.
  rewrite (deleted_lifted_harmless _ (@name_to_href_harmless _ remote _ _)).
  cbn [app].
  destruct (fw_value (lift (name_to_href remote server_name api_url) _))
    as [h|e]; [|now rewrite app_nil_r].
  rewrite (deleted_lifted_harmless _ (@all_available_harmless _ remote _)).
  now rewrite app_nil_r.
Qed.

End Stateless.

Lemma fwrule_delete_all_completes api_url server_name nics :
  forall s : state World,
  fw_value (fwrule_delete_all remote api_url server_name nics s) = Ok tt ->
  forall nic, In nic nics -> firewallrules nic <> None.
Proof.
  induction nics as [|n nics IH]; intros s Hok nic Hin; [destruct Hin|].
  revert Hok. cbn [fwrule_delete_all]. rewrite fw_value_bind.
  destruct (firewallrules n) as [rules|] eqn:Hn; [|discriminate].
  destruct (fw_value (fwrule_delete_each remote api_url server_name
                        (c_name n) rules s)) as [[]|e]; [|discriminate].
  intros Hok. destruct Hin as [<-|Hin].
  - rewrite Hn. discriminate.
  - exact (IH _ Hok nic Hin).
Qed.

(** X24.  [fwrule_delete] reads the key "firewallrules" of every declared
    NIC, standalone or embedded, without looking whether it is there (as
    [fwrules_create] does): with one declared NIC that has no such key it
    never completes, and when that NIC is the first one declared it stops
    with [KeyError] before any request. *)
Theorem fwrule_delete_needs_firewallrules_on_every_nic
  (api_url server_name : string) (s : state World) (jf : json_file)
  (nic : component) :
  lookup (server_name ++ ".json") (json_files s) = Some jf ->
  In nic (declared_nics jf) ->
  firewallrules nic = None ->
  let r := fwrule_delete remote api_url server_name s in
  (exists e, fw_value r = Fail e) /\
  (hd_error (declared_nics jf) = Some nic ->
   fw_value r = Fail KeyError /\ fw_trace r = []).
Proof.
  intros Hjf Hin Hnone. cbv zeta. unfold fwrule_delete.
  rewrite fw_value_bind, fw_trace_bind.
  cbn [lift fw_value fw_final fw_trace].
  rewrite (json_files_get_run _ _ Hjf). cbn [value final trace map app].
  split.
  - destruct (fw_value (fwrule_delete_all remote api_url server_name
                          (nics jf ++ entities_nics (server jf)) s))
      as [[]|e] eqn:Hok; [exfalso | now exists e].
    exact (@fwrule_delete_all_completes api_url server_name
             (nics jf ++ entities_nics (server jf)) s Hok nic Hin Hnone).
  - unfold declared_nics.
    destruct (nics jf ++ entities_nics (server jf)) as [|n rest];
      [discriminate|].
    cbn [hd_error]. intros [= ->]. cbn [fwrule_delete_all].
    rewrite fw_value_bind, fw_trace_bind, Hnone.
    cbn [fw_exit fw_value fw_trace app]. split; reflexivity.
Qed.

End DeletionFacts.

Lemma fwrules_delete_single_deletes_all_witness :
  let r := fwrules_delete_single (static cloud_with_rules) "dc1/servers"
             "web1" "lan" "ssh" (start []) in
  deleted (engine_events (fw_trace r)) = ["fw/1"; "fw/3"] /\
  posted (engine_events (fw_trace r)) = [] /\
  patched (engine_events (fw_trace r)) = [].
Proof.
  apply (@fwrules_delete_single_deletes_all_listed_rules_of_that_name
           nat (static cloud_with_rules) (document cloud_with_rules)
           (static_stateless cloud_with_rules)
           "dc1/servers" "web1" "lan" "ssh" (start [])
           "dc1/servers/s1" "dc1/servers/s1/nics/n1");
    reflexivity.
Defined.

Lemma fwrule_delete_needs_firewallrules_witness :
  let nic := mkComponent (plain "lan") None in
  let r := fwrule_delete (static cloud) "dc1/servers" "web1"
             (start [("web1.json", web1_lan_bare)]) in
  (exists e, fw_value r = Fail e) /\
  (hd_error (declared_nics web1_lan_bare) = Some nic ->
   fw_value r = Fail KeyError /\ fw_trace r = []).
Proof.
  apply (@fwrule_delete_needs_firewallrules_on_every_nic
           nat (static cloud) "dc1/servers" "web1"
           (start [("web1.json", web1_lan_bare)]) web1_lan_bare
           (mkComponent (plain "lan") None)).
  - reflexivity.
  - left. reflexivity.
  - reflexivity.
Defined.

(** * Where the firewall rules are created *)

Lemma posts_app tr1 tr2 : posts (tr1 ++ tr2) = posts tr1 ++ posts tr2.
Proof.
  induction tr1 as [|e tr1 IH]; [reflexivity|].
  destruct e; cbn [app posts]; now rewrite ?IH.
Qed.

Lemma posts_harmless tr : Forall harmless tr -> posts tr = [].
Proof.
  induction 1 as [|e tr He _ IH]; [reflexivity|].
  destruct e; cbn in *; auto; destruct He.
Qed.

Lemma post_targets_app tr1 tr2 :
  post_targets (tr1 ++ tr2) = post_targets tr1 ++ post_targets tr2.
Proof. unfold post_targets. now rewrite posts_app, map_app. Qed.

Lemma post_targets_harmless tr : Forall harmless tr -> post_targets tr = [].
Proof. intros H. unfold post_targets. now rewrite (posts_harmless H). Qed.

Section RuleTargets.

Context {World : Type}.
Variable remote : Remote World.
Variable DATACENTER : string.
Variable doc : string -> response.
Hypothesis Hdoc : stateless remote doc.

Lemma name_to_href_resolves name api_url (s : state World) :
  value (name_to_href remote name api_url s) =
  match resolve doc name api_url with
  | Some href => Ok href
  | None => Fail NotFound
  end.
Proof.
  rewrite (@name_to_href_stateless World remote doc Hdoc name api_url s).
  unfold resolve.
  destruct (find _ _); reflexivity.
Qed.

Lemma fwrules_post_rule_targets name server_name nic_name URL_SERVERS rule
  (s : state World) :
  let r := fwrules_post_rule remote name server_name nic_name URL_SERVERS
             rule s in
  value r = Ok tt ->
  post_targets (trace r) =
  [(rules_url doc URL_SERVERS server_name nic_name, BodyRule rule)].
Proof.
  cbv zeta. unfold fwrules_post_rule, rules_url. cbv zeta.
  pose proof (name_to_href_harmless remote server_name URL_SERVERS s) as Hq1.
  step. rewrite (name_to_href_resolves server_name URL_SERVERS s).
  destruct (resolve doc server_name URL_SERVERS) as [server_href|];
    [|discriminate].
  set (s1 := final (name_to_href remote server_name URL_SERVERS s)) in *.
  pose proof (name_to_href_harmless remote nic_name (server_href ++ "/nics") s1)
    as Hq2.
  step. rewrite (name_to_href_resolves nic_name (server_href ++ "/nics") s1).
  destruct (resolve doc nic_name (server_href ++ "/nics")) as [nic|];
    [|discriminate].
  set (s2 := final (name_to_href remote nic_name (server_href ++ "/nics") s1))
    in *.
  step. cbn [value print emit trace final]. step.
  cbn [value requests_post trace final]. step.
  match goal with
  | |- context [name_to_href remote server_name URL_SERVERS ?st] =>
      lazymatch st with
      | with_world _ _ =>
          pose proof (name_to_href_harmless remote server_name URL_SERVERS st)
            as Hq3;
          set (s3 := st) in *
      end
  end.
  intros Hok.
  rewrite !post_targets_app, (post_targets_harmless Hq1),
    (post_targets_harmless Hq2).
  cbn [app post_targets posts map fst snd].
  destruct (value (name_to_href remote server_name URL_SERVERS s3)) as [h|e].
  - rewrite (post_targets_harmless Hq3),
      (post_targets_harmless (all_available_harmless remote [h] _)).
    reflexivity.
  - rewrite (post_targets_harmless Hq3). reflexivity.
Qed.

Lemma fwrules_create_rules_targets name server_name nic_name URL_SERVERS
  rules : forall s : state World,
  let r := fwrules_create_rules remote name server_name nic_name URL_SERVERS
             rules s in
  value r = Ok tt ->
  post_targets (trace r) =
  map (fun x => (rules_url doc URL_SERVERS server_name nic_name, BodyRule x))
      (filter (fun x => String.eqb (rule_name x) name) rules).
Proof.
  induction rules as [|rule rules IH]; intros s; cbv zeta;
    cbn [fwrules_create_rules filter].
  - reflexivity.
  - step. destruct (String.eqb (rule_name rule) name).
    + pose proof (fwrules_post_rule_targets name server_name nic_name
                    URL_SERVERS rule s) as H1. cbv zeta in H1.
      destruct (value (fwrules_post_rule remote name server_name nic_name
                         URL_SERVERS rule s)) as [[]|e]; [|discriminate].
      intros Hok. rewrite post_targets_app, (H1 eq_refl), (IH _ Hok).
      reflexivity.
    + cbn [value ret trace final app]. apply IH.
Qed.

Lemma fwrules_create_nics_targets name server_name nic_name URL_SERVERS
  nics : forall s : state World,
  let r := fwrules_create_nics remote name server_name nic_name URL_SERVERS
             nics s in
  value r = Ok tt ->
  post_targets (trace r) =
  map (fun c => (rules_url doc URL_SERVERS server_name nic_name,
                 BodyRule (snd c)))
      (rule_posts name nic_name nics).
Proof.
  induction nics as [|nic nics IH]; intros s; cbv zeta;
    cbn [fwrules_create_nics rule_posts flat_map].
  - reflexivity.
  - step. fold (rule_posts name nic_name nics).
    destruct (String.eqb nic_name (c_name nic)).
    + destruct (firewallrules nic) as [rules|]; [|discriminate].
      destruct (has_duplicates (map rule_name rules)).
      * step. cbn [value print emit exit final]. discriminate.
      * pose proof (fwrules_create_rules_targets name server_name nic_name
                      URL_SERVERS rules s) as H1. cbv zeta in H1.
        destruct (value (fwrules_create_rules remote name server_name
                           nic_name URL_SERVERS rules s)) as [[]|e];
          [|discriminate].
        intros Hok.
        rewrite post_targets_app, (H1 eq_refl), (IH _ Hok), map_app, map_map.
        reflexivity.
    + cbn [value ret trace final app]. apply IH.
Qed.

Lemma fwrules_create_single_targets name server_name nic_name
  (s : state World) jf :
  lookup (server_name ++ ".json") (json_files s) = Some jf ->
  let r := fwrules_create_single remote DATACENTER name server_name nic_name
             s in
  value r = Ok tt ->
  post_targets (trace r) =
  map (fun c => (firewallrules_url doc DATACENTER server_name (fst c),
                 BodyRule (snd c)))
      (rule_posts name nic_name (declared_nics jf)).
Proof.
  intros Hjf. cbv zeta. unfold fwrules_create_single, firewallrules_url.
  cbv zeta.
  pose proof (name_to_href_harmless remote DATACENTER URL_DATACENTERS s) as Hq1.
  step. rewrite (name_to_href_resolves DATACENTER URL_DATACENTERS s).
  destruct (resolve doc DATACENTER URL_DATACENTERS) as [dc|]; [|discriminate].
  set (s1 := final (name_to_href remote DATACENTER URL_DATACENTERS s)) in *.
  pose proof (server_exists_harmless remote server_name (dc ++ "/servers") s1)
    as Hq2.
  step.
  destruct (value (server_exists remote server_name (dc ++ "/servers") s1))
    as [[|]|e]; try discriminate. cbn [negb].
  set (s2 := final (server_exists remote server_name (dc ++ "/servers") s1))
    in *.
  assert (Hjf2 : lookup (server_name ++ ".json") (json_files s2) = Some jf).
  { unfold s2, s1. now rewrite server_exists_keeps, name_to_href_keeps. }
  step. rewrite (json_files_get_run _ _ Hjf2). cbn [value trace final app].
  intros Hok.
  rewrite !post_targets_app, (post_targets_harmless Hq1),
    (post_targets_harmless Hq2). cbn [app].
  rewrite (fwrules_create_nics_targets name server_name nic_name
             (dc ++ "/servers") (nics jf ++ entities_nics (server jf)) s2 Hok).
  apply map_ext_in. intros c Hc.
  destruct (@rule_posts_in name nic_name _ c Hc) as [-> _]. reflexivity.
Qed.

Lemma fwrules_create_each_targets server_name nic_name jf rules :
  forall s : state World,
  lookup (server_name ++ ".json") (json_files s) = Some jf ->
  let r := fwrules_create_each remote DATACENTER server_name nic_name rules
             s in
  value r = Ok tt ->
  post_targets (trace r) =
  map (fun c => (firewallrules_url doc DATACENTER server_name (fst c),
                 BodyRule (snd c)))
      (flat_map (fun fr => rule_posts (rule_name fr) nic_name
                                      (declared_nics jf)) rules).
Proof.
  induction rules as [|fr rules IH]; intros s Hjf; cbv zeta;
    cbn [fwrules_create_each flat_map].
  - reflexivity.
  - step.
    pose proof (@fwrules_create_single_targets (rule_name fr) server_name
                  nic_name s jf Hjf) as H1. cbv zeta in H1.
    pose proof (fwrules_create_single_keeps remote DATACENTER (rule_name fr)
                  server_name nic_name s) as Hk.
    destruct (value (fwrules_create_single remote DATACENTER (rule_name fr)
                       server_name nic_name s)) as [[]|e]; [|discriminate].
    intros Hok. rewrite post_targets_app, (H1 eq_refl), map_app.
    f_equal. apply IH; [now rewrite Hk | exact Hok].
Qed.

Lemma fwrules_create_all_targets server_name jf outer :
  forall s : state World,
  lookup (server_name ++ ".json") (json_files s) = Some jf ->
  let r := fwrules_create_all remote DATACENTER server_name outer s in
  value r = Ok tt ->
  post_targets (trace r) =
  map (fun c => (firewallrules_url doc DATACENTER server_name (fst c),
                 BodyRule (snd c)))
      (flat_map (calls_for (declared_nics jf)) outer).
Proof.
  induction outer as [|nic outer IH]; intros s Hjf; cbv zeta;
    cbn [fwrules_create_all flat_map].
  - reflexivity.
  - step. unfold calls_for at 1. destruct (firewallrules nic) as [rules|].
    + pose proof (@fwrules_create_each_targets server_name (c_name nic) jf
                    rules s Hjf) as H1. cbv zeta in H1.
      pose proof (fwrules_create_each_keeps remote DATACENTER server_name
                    (c_name nic) rules s) as Hk.
      destruct (value (fwrules_create_each remote DATACENTER server_name
                         (c_name nic) rules s)) as [[]|e]; [|discriminate].
      intros Hok. rewrite post_targets_app, (H1 eq_refl), map_app.
      f_equal. apply IH; [now rewrite Hk | exact Hok].
    + cbn [value ret trace final app]. now apply IH.
Qed.

End RuleTargets.

Section UniqueNames.

Context {World : Type}.
Variable remote : Remote World.
Variable DATACENTER : string.

(** X14.  When every declared NIC name is declared once, and the rule names
    of each NIC are distinct, a synchronization that completes has announced
    and posted each declared rule exactly once, in the declared order; and
    against a remote side that answers by fixed documents these are all its
    POSTs, each one sent to the firewall-rule collection of the NIC the rule
    is declared for: the URL <nic href>/firewallrules, the NIC being the
    member of <server href>/nics that carries the declared NIC name. *)
Theorem fwrules_create_posts_each_rule_once_when_names_unique
  (server_name : string) (s : state World) (jf : json_file) :
  lookup (server_name ++ ".json") (json_files s) = Some jf ->
  NoDup (map c_name (declared_nics jf)) ->
  (forall nic rules,
     In nic (declared_nics jf) -> firewallrules nic = Some rules ->
     NoDup (map rule_name rules)) ->
  let r := fwrules_create remote DATACENTER server_name s in
  value r = Ok tt ->
  fw_creations (trace r) = declared_rules (declared_nics jf) /\
  (forall doc, stateless remote doc ->
     post_targets (trace r) =
     map (fun c => (firewallrules_url doc DATACENTER server_name (fst c),
                    BodyRule (snd c)))
         (declared_rules (declared_nics jf))).
Proof.
  intros Hjf Hnics Hrules. cbv zeta. intros Hok. split.
  - rewrite (fwrules_create_creations remote DATACENTER server_name s Hjf Hok).
    now apply sync_posts_unique.
  - intros doc Hdoc.
    rewrite <- (@sync_posts_unique (declared_nics jf) Hnics Hrules).
    revert Hok. unfold fwrules_create. step.
    rewrite (json_files_get_run _ _ Hjf). cbn [value trace final app].
    intros Hok.
    exact (@fwrules_create_all_targets World remote DATACENTER doc Hdoc
             server_name jf (nics jf ++ entities_nics (server jf)) s Hjf Hok).
Qed.

End UniqueNames.

Lemma fwrules_create_posts_each_rule_once_witness :
  let r := fwrules_create (static cloud) "fra" "web1"
             (start [("web1.json", web1_lan_once [ssh; http])]) in
  fw_creations (trace r) = [("lan", ssh); ("lan", http)] /\
  post_targets (trace r) =
  [(Some "dc1/servers/s1/nics/n1/firewallrules", BodyRule ssh);
   (Some "dc1/servers/s1/nics/n1/firewallrules", BodyRule http)].
Proof.
  destruct (@fwrules_create_posts_each_rule_once_when_names_unique
              nat (static cloud) "fra" "web1"
              (start [("web1.json", web1_lan_once [ssh; http])])
              (web1_lan_once [ssh; http])) as [Hcalls Htargets].
  - reflexivity.
  - constructor; [intros [] | constructor].
  - intros nic rules [<-|[]] E. injection E as <-.
    constructor; [intros [H|[]]; discriminate H|].
    constructor; [intros [] | constructor].
  - vm_compute. reflexivity.
  - split; [exact Hcalls|].
    exact (Htargets (document cloud) (static_stateless cloud)).
Defined.
